(** * Question extraction: a model of [streamlit_app.py]

    The development embeds the question segmentation engine
    ([extract_questions_with_year]), the chapter assigner
    ([bulk_assign_by_keywords]), the workbook generator
    ([generate_workbook]) and the computations of [main], and proves
    properties of them.

    Text is a list of characters.  A character is a code point below 256
    (type [ascii]); the character classes below are the ones CPython uses
    for [str] objects in that range.  A call that can raise returns a
    [result]. *)

From Stdlib Require Import Ascii String.
From Stdlib Require Import List NArith PeanoNat Bool Lia.
From Stdlib Require Import Sorting.Sorted Sorting.Permutation.
From Stdlib Require Import Numbers.DecimalString Numbers.DecimalNat.
From Stdlib Require Numbers.DecimalFacts.
Import ListNotations.

Set Implicit Arguments.

Definition text := list ascii.

(** [chars "abc"] is the text of a literal. *)
Definition chars (s : string) : text := list_ascii_of_string s.
Arguments chars s%_string.

Definition nl : ascii := "010"%char.

(** ** Exceptions

    A call returns a value or raises an exception.  The conversions between
    integers and decimal text raise [ValueError]; the functions that call
    them do not catch it, so it ends the call of the function. *)
Inductive exn : Type := ValueError.

Inductive result (A : Type) : Type :=
| Ok (a : A)
| Raise (e : exn).

Arguments Ok {A} a.
Arguments Raise {A} e.

Definition bind (A B : Type) (r : result A) (k : A -> result B) : result B :=
  match r with
  | Ok a => k a
  | Raise e => Raise e
  end.

Notation "x <- r ;; k" := (bind r (fun x => k))
  (at level 61, r at next level, right associativity).

(** A loop that collects one value per element: the values in order, or
    the exception of the first element whose body raises. *)
Fixpoint map_result (A B : Type) (body : A -> result B) (l : list A)
  : result (list B) :=
  match l with
  | [] => Ok []
  | x :: rest =>
      y <- body x ;;
      ys <- map_result body rest ;;
      Ok (y :: ys)
  end.

(** ** Python's [str] operations used by the program *)
Module Py.

Definition code (c : ascii) : N := N_of_ascii c.

Definition in_range (lo hi : N) (c : ascii) : bool :=
  ((lo <=? code c) && (code c <=? hi))%N.

Definition code_is (n : N) (c : ascii) : bool := (code c =? n)%N.

(** [str.isspace] on one character, also the class [\s]. *)
Definition isspace (c : ascii) : bool :=
  in_range 9 13 c || in_range 28 32 c || code_is 133 c || code_is 160 c.

(** The decimal digits, the class [\d]. *)
Definition isdecimal (c : ascii) : bool := in_range 48 57 c.

(** [str.isalnum] on one character. *)
Definition isalnum (c : ascii) : bool :=
  isdecimal c || in_range 65 90 c || in_range 97 122 c
  || code_is 170 c || code_is 178 c || code_is 179 c || code_is 181 c || code_is 185 c || code_is 186 c
  || in_range 188 190 c || in_range 192 214 c || in_range 216 246 c
  || in_range 248 255 c.

(** The class [\w]. *)
Definition isword (c : ascii) : bool := isalnum c || code_is 95 c.

(** [str.lower] on one character. *)
Definition lower_char (c : ascii) : ascii :=
  if in_range 65 90 c || in_range 192 214 c || in_range 216 222 c
  then ascii_of_N (code c + 32) else c.

Definition lower (s : text) : text := map lower_char s.

Fixpoint lstrip (s : text) : text :=
  match s with
  | c :: s' => if isspace c then lstrip s' else s
  | [] => []
  end.

Definition rstrip (s : text) : text := rev (lstrip (rev s)).

(** [s.strip()] *)
Definition strip (s : text) : text := rstrip (lstrip s).

(** [s.split(sep)] for a separator of one character. *)
Fixpoint split (sep : ascii) (s : text) : list text :=
  match s with
  | [] => [[]]
  | c :: s' =>
      if Ascii.eqb c sep then [] :: split sep s'
      else match split sep s' with
           | l :: ls => (c :: l) :: ls
           | [] => [[c]]
           end
  end.

Fixpoint startswith (s p : text) : bool :=
  match p, s with
  | [], _ => true
  | a :: p', b :: s' => Ascii.eqb a b && startswith s' p'
  | _ :: _, [] => false
  end.

(** [needle in hay] *)
Fixpoint contains (needle hay : text) : bool :=
  startswith hay needle
  || match hay with
     | [] => false
     | _ :: hay' => contains needle hay'
     end.

(** [s[a:b]] for non-negative [a] and [b]. *)
Definition slice (s : text) (a b : nat) : text := firstn (b - a) (skipn a s).

(** The number that a text of decimal digits denotes. *)
Definition int_value (s : text) : N :=
  fold_left (fun acc c => (10 * acc + (code c - 48))%N) s 0%N.

(** [sys.int_info.default_max_str_digits]: the greatest number of digits
    that CPython converts between [int] and [str] unless it is configured
    otherwise, which the program does not do. *)
Definition max_str_digits : nat := 4300.

(** [int(s)] on a text of decimal digits: [ValueError] when the text has
    more than [max_str_digits] characters, leading zeros included. *)
Definition int (s : text) : result N :=
  if length s <=? max_str_digits then Ok (int_value s) else Raise ValueError.

(** The decimal digits of an integer. *)
Definition decimal (n : N) : text := chars (NilEmpty.string_of_uint (N.to_uint n)).

(** [str(n)] and [f"{n}"] for an integer that is not negative:
    [ValueError] when [n] has more than [max_str_digits] digits. *)
Definition str_int (n : N) : result text :=
  if length (decimal n) <=? max_str_digits then Ok (decimal n)
  else Raise ValueError.

(** [f"{n}"] for the number of a page or of a chapter, a number with
    no more than [max_str_digits] digits: its decimal digits. *)
Definition str (n : nat) : text := chars (NilEmpty.string_of_uint (Nat.to_uint n)).

(** [s.encode('latin-1', 'replace')]: one byte for every character; a
    character that Latin-1 does not have is replaced by [?].  Every
    character of a [text] is a character of Latin-1, with its code point as
    its byte. *)
Definition encode_latin1_replace (s : text) : list Byte.byte := map byte_of_ascii s.

(** [b.decode('latin-1')] *)
Definition decode_latin1 (b : list Byte.byte) : text := map ascii_of_byte b.

End Py.

(** ** The regular expressions of the program

    A backtracking matcher with the priorities of Python's [re]: greedy
    repetition, alternatives tried left to right, leftmost match first.
    The constructors cover the syntax the program's patterns use; every
    repetition in them is over a single character. *)
Module Re.

(** What matches one character. *)
Inductive cset : Type :=
| Chr (c : ascii)      (* a literal character *)
| Digit                (* \d *)
| Space                (* \s *)
| Word.                (* \w *)

Inductive regex : Type :=
| Eps
| One (a : cset)
| Rep (a : cset) (lo : nat) (hi : option nat)   (* a{lo,hi}, greedy *)
| Seq (r1 r2 : regex)
| Alt (r1 r2 : regex)
| Grp (n : nat) (r : regex)                     (* capture group n *)
| Eos.                                          (* $ without MULTILINE *)

Definition star (a : cset) : regex := Rep a 0 None.
Definition plus (a : cset) : regex := Rep a 1 None.
Definition opt (a : cset) : regex := Rep a 0 (Some 1).

(** A run of literal characters. *)
Fixpoint lits (s : text) : regex :=
  match s with
  | [] => Eps
  | [c] => One (Chr c)
  | c :: s' => Seq (One (Chr c)) (lits s')
  end.

Fixpoint seqs (rs : list regex) : regex :=
  match rs with
  | [] => Eps
  | [r] => r
  | r :: rs' => Seq r (seqs rs')
  end.

(** [ci] is the flag [re.IGNORECASE]. *)
Definition accepts (ci : bool) (a : cset) (c : ascii) : bool :=
  match a with
  | Chr l => if ci then Ascii.eqb (Py.lower_char c) (Py.lower_char l)
             else Ascii.eqb c l
  | Digit => Py.isdecimal c
  | Space => Py.isspace c
  | Word => Py.isword c
  end.

(** The captures: group number to captured text, latest first. *)
Definition caps := list (nat * text).

Fixpoint get_cap (n : nat) (cs : caps) : option text :=
  match cs with
  | [] => None
  | (k, v) :: cs' => if Nat.eqb k n then Some v else get_cap n cs'
  end.

Section Matcher.
Variable R : Type.

(** Greedy [a{lo,hi}] followed by [k]: take as many characters as
    allowed, give back one at a time. *)
Fixpoint rep (ok : ascii -> bool) (lo : nat) (hi : option nat)
         (k : text -> option R) (s : text) : option R :=
  let stop := match lo with 0 => k s | S _ => None end in
  match hi with
  | Some 0 => stop
  | _ =>
      match s with
      | c :: s' =>
          if ok c then
            match rep ok (pred lo) (option_map pred hi) k s' with
            | Some x => Some x
            | None => stop
            end
          else stop
      | [] => stop
      end
  end.

(** [m ci r k s cs]: match [r] at the head of [s], then continue
    with [k] on the rest. *)
Fixpoint m (ci : bool) (r : regex) (k : text -> caps -> option R)
         (s : text) (cs : caps) : option R :=
  match r with
  | Eps => k s cs
  | One a =>
      match s with
      | c :: s' => if accepts ci a c then k s' cs else None
      | [] => None
      end
  | Rep a lo hi => rep (accepts ci a) lo hi (fun s' => k s' cs) s
  | Seq r1 r2 => m ci r1 (fun s' cs' => m ci r2 k s' cs') s cs
  | Alt r1 r2 =>
      match m ci r1 k s cs with
      | Some x => Some x
      | None => m ci r2 k s cs
      end
  | Grp n r1 =>
      m ci r1
        (fun s' cs' => k s' ((n, firstn (length s - length s') s) :: cs'))
        s cs
  | Eos =>
      match s with
      | [] => k s cs
      | [c] => if Ascii.eqb c nl then k s cs else None
      | _ => None
      end
  end.
End Matcher.

(** A match anchored at the head of [s]: the rest of the text and the
    captures. *)
Definition match_at (ci : bool) (r : regex) (s : text) : option (text * caps) :=
  m ci r (fun s' cs => Some (s', cs)) s [].

(** A match object: [start()], [end()] and the groups. *)
Record match_obj : Type := MatchObj {
  m_start : nat;
  m_end : nat;
  m_caps : caps
}.

(** [match.group(n)] *)
Definition group (n : nat) (mo : match_obj) : option text := get_cap n (m_caps mo).

(** The number of capture groups of a pattern. *)
Fixpoint ngroups (r : regex) : nat :=
  match r with
  | Seq r1 r2 | Alt r1 r2 => ngroups r1 + ngroups r2
  | Grp _ r1 => S (ngroups r1)
  | _ => 0
  end.

(** [match.groups()] *)
Definition groups (r : regex) (mo : match_obj) : list (option text) :=
  map (fun n => group n mo) (seq 1 (ngroups r)).

(** [re.search]: the match at the leftmost position that has one. *)
Fixpoint search_from (ci : bool) (r : regex) (pos : nat) (s : text)
  : option match_obj :=
  match match_at ci r s with
  | Some (s', cs) => Some (MatchObj pos (pos + (length s - length s')) cs)
  | None =>
      match s with
      | [] => None
      | _ :: s' => search_from ci r (S pos) s'
      end
  end.

Definition search (ci : bool) (r : regex) (s : text) : option match_obj :=
  search_from ci r 0 s.

(** [re.finditer]: the matches left to right, none overlapping an
    earlier one.  [skip] counts the characters still covered by the
    last match.  No pattern of the program matches the empty text. *)
Fixpoint finditer_from (ci : bool) (r : regex) (skip pos : nat) (s : text)
         {struct s} : list match_obj :=
  match skip with
  | S n =>
      match s with
      | [] => []
      | _ :: s' => finditer_from ci r n (S pos) s'
      end
  | 0 =>
      match match_at ci r s with
      | Some (rest, cs) =>
          let len := length s - length rest in
          MatchObj pos (pos + len) cs
            :: match s with
               | [] => []
               | _ :: s' => finditer_from ci r (len - 1) (S pos) s'
               end
      | None =>
          match s with
          | [] => []
          | _ :: s' => finditer_from ci r 0 (S pos) s'
          end
      end
  end.

Definition finditer (ci : bool) (r : regex) (s : text) : list match_obj :=
  finditer_from ci r 0 0 s.

(** [re.sub] with a constant replacement. *)
Fixpoint sub_from (ci : bool) (r : regex) (repl : text) (skip : nat) (s : text)
         {struct s} : text :=
  match skip with
  | S n =>
      match s with
      | [] => []
      | _ :: s' => sub_from ci r repl n s'
      end
  | 0 =>
      match match_at ci r s with
      | Some (rest, _) =>
          repl ++
            match length s - length rest, s with
            | _, [] => []
            | 0, c :: s' => c :: sub_from ci r repl 0 s'
            | S n, _ :: s' => sub_from ci r repl n s'
            end
      | None =>
          match s with
          | [] => []
          | c :: s' => c :: sub_from ci r repl 0 s'
          end
      end
  end.

Definition sub (ci : bool) (r : regex) (repl s : text) : text :=
  sub_from ci r repl 0 s.

End Re.

(** ** The program *)

Import Re.

(** A pattern: its source text as written in the program, and its syntax tree. *)
Record pattern : Type := Pattern {
  source : text;
  tree : regex
}.

(** [20\d{2}] *)
Definition year_digits : regex := Seq (lits (chars "20")) (Rep Digit 2 (Some 2)).

(** [(?:st|nd|rd|th)] *)
Definition ordinal_suffix : regex :=
  Alt (lits (chars "st")) (Alt (lits (chars "nd")) (Alt (lits (chars "rd")) (lits (chars "th")))).

(** ["28th May 2024"] *)
Definition date_pattern : pattern :=
  Pattern (chars "(\d{1,2})\s*(?:st|nd|rd|th)\s+\w+\s+(20\d{2})")
    (seqs [Grp 1 (Rep Digit 1 (Some 2)); star Space; ordinal_suffix;
           plus Space; plus Word; plus Space; Grp 2 year_digits]).

(** Simple year *)
Definition simple_year_pattern : pattern :=
  Pattern (chars "(20\d{2})") (Grp 1 year_digits).

(** ["Year: 2024"] *)
Definition year_label_pattern : pattern :=
  Pattern (chars "Year\s*:?\s*(20\d{2})")
    (seqs [lits (chars "Year"); star Space; opt (Chr ":"); star Space;
           Grp 1 year_digits]).

(** ["Session: 2024"] *)
Definition session_label_pattern : pattern :=
  Pattern (chars "Session\s*:?\s*(20\d{2})")
    (seqs [lits (chars "Session"); star Space; opt (Chr ":"); star Space;
           Grp 1 year_digits]).

Definition year_patterns : list pattern :=
  [ date_pattern; simple_year_pattern; year_label_pattern; session_label_pattern ].

(** [Q\.\s*(\d+)\)]; it has no anchor, so [re.MULTILINE] changes nothing. *)
Definition question_pattern : regex :=
  seqs [lits (chars "Q."); star Space; Grp 1 (plus Digit); One (Chr ")")].

(** [\*{10,}] *)
Definition end_marker_pattern : regex := Rep (Chr "*") 10 None.

(** [\n--- PAGE \d+ ---\n] *)
Definition page_marker_pattern : regex :=
  seqs [One (Chr nl); lits (chars "--- PAGE "); plus Digit; lits (chars " ---");
        One (Chr nl)].

(** [\n\s*\n\s*\n] *)
Definition blank_lines_pattern : regex :=
  seqs [One (Chr nl); star Space; One (Chr nl); star Space; One (Chr nl)].

(** [\[(\d+)\]\s*$] *)
Definition marks_pattern : regex :=
  seqs [One (Chr "["); Grp 1 (plus Digit); One (Chr "]"); star Space; Eos].

(** [Q\.\s*\d+\)] *)
Definition marker_pattern : regex :=
  seqs [lits (chars "Q."); star Space; plus Digit; One (Chr ")")].

(** An entry of [question_positions]. *)
Record position : Type := Position {
  pos_number : N;
  pos_start : nat;
  pos_match : match_obj;
  pos_page : nat
}.

(** An entry of [questions_data]. *)
Record question : Type := Question {
  question_number : N;
  question_preview : text;
  complete_content : text;
  marks : text;
  chapter : option text;
  year : text;
  page : nat
}.

(** A document: the result of [page.extract_text()] for each page in order;
    [None] is a page for which it returns no text. *)
Definition document := list (option text).

(** The sentinel the program puts before the text of a page. *)
Definition page_marker (page_num : nat) : text :=
  [nl] ++ chars "--- PAGE " ++ Py.str page_num ++ chars " ---" ++ [nl].

(** [d[k] = v] on a dict, kept in insertion order. *)
Fixpoint dict_set (d : list (nat * nat)) (k v : nat) : list (nat * nat) :=
  match d with
  | [] => [(k, v)]
  | (k', v') :: d' =>
      if Nat.eqb k' k then (k', v) :: d' else (k', v') :: dict_set d' k v
  end.

(** The first loop: [all_text] and [page_breaks]. *)
Fixpoint read_pages (pages : document) (page_num : nat)
         (all_text : text) (page_breaks : list (nat * nat))
  : text * list (nat * nat) :=
  match pages with
  | [] => (all_text, page_breaks)
  | None :: rest | Some [] :: rest =>
      read_pages rest (S page_num) all_text page_breaks
  | Some txt :: rest =>
      read_pages rest (S page_num)
        (all_text ++ page_marker page_num ++ txt)
        (dict_set page_breaks (length all_text) page_num)
  end.

Definition all_text_of (pdf : document) : text := fst (read_pages pdf 1 [] []).
Definition page_breaks_of (pdf : document) : list (nat * nat) :=
  snd (read_pages pdf 1 [] []).

(** The year loop: the first pattern that matches sets [current_year]. *)
Fixpoint find_year (patterns : list pattern) (all_text : text) : option text :=
  match patterns with
  | [] => None
  | p :: rest =>
      match search true (tree p) all_text with
      | Some year_match =>
          if Py.contains (chars "st|nd|rd|th") (source p)
          then group 2 year_match
          else last (groups (tree p) year_match) None
      | None => find_year rest all_text
      end
  end.

(** [current_year or "Unknown"] *)
Definition or_unknown (current_year : option text) : text :=
  match current_year with
  | None | Some [] => chars "Unknown"
  | Some y => y
  end.

(** The page loop of one marker. *)
Fixpoint find_page (start_pos : nat) (items : list (nat * nat)) (page_num : nat) : nat :=
  match items with
  | [] => page_num
  | (pos, pg) :: rest =>
      find_page start_pos rest (if pos <=? start_pos then pg else page_num)
  end.

Definition group_text (n : nat) (mo : match_obj) : text :=
  match group n mo with Some t => t | None => [] end.

(** The body of the marker loop: the entry appended for one match. *)
Definition scan_question (page_breaks : list (nat * nat)) (mo : match_obj)
  : result position :=
  q_num <- Py.int (group_text 1 mo) ;;
  Ok (Position q_num (m_start mo) mo (find_page (m_start mo) page_breaks 1)).

(** The marker loop. *)
Definition scan_questions (all_text : text) (page_breaks : list (nat * nat))
  : result (list position) :=
  map_result (scan_question page_breaks) (finditer false question_pattern all_text).

(** [question_positions.sort(key=lambda x: x["number"])]: the sort is
    stable. *)
Fixpoint insert_by_number (q : position) (l : list position) : list position :=
  match l with
  | [] => [q]
  | h :: t =>
      if (pos_number q <=? pos_number h)%N then q :: l
      else h :: insert_by_number q t
  end.

Definition sort_by_number (l : list position) : list position :=
  fold_right insert_by_number [] l.

(** [end_pos] of a marker; [rest] holds the markers after it in
    [question_positions]. *)
Definition end_pos (all_text : text) (q_pos : position) (rest : list position) : nat :=
  match rest with
  | next :: _ => pos_start next
  | [] =>
      match finditer false end_marker_pattern (skipn (pos_start q_pos) all_text) with
      | first :: _ => pos_start q_pos + m_start first
      | [] => length all_text
      end
  end.

(** [complete_content] after the clean-up. *)
Definition clean_content (all_text : text) (q_pos : position) (rest : list position)
  : text :=
  let content := Py.strip (Py.slice all_text (pos_start q_pos) (end_pos all_text q_pos rest)) in
  let content := sub false page_marker_pattern [nl] content in
  let content := sub false blank_lines_pattern [nl; nl] content in
  Py.strip content.

Definition find_marks (content : text) : text :=
  match search false marks_pattern content with
  | Some marks_match => group_text 1 marks_match
  | None => chars "Unknown"
  end.

(** [re.sub(r'Q\.\s*\d+\)', '', line).strip()] *)
Definition clean_line (line : text) : text :=
  Py.strip (sub false marker_pattern [] line).

(** The preview loop: the first cleaned line longer than 10 characters,
    or the empty text. *)
Fixpoint first_meaningful (lines : list text) : text :=
  match lines with
  | [] => []
  | line :: rest =>
      match clean_line line with
      | [] => first_meaningful rest
      | cl => if 10 <? length cl then cl else first_meaningful rest
      end
  end.

Definition preview_of (content : text) : text :=
  let lines := Py.split nl content in
  match first_meaningful lines with
  | [] => match lines with l :: _ => l | [] => content end
  | p => p
  end.

(** [preview_text[:150] + "..." if len(preview_text) > 150 else preview_text] *)
Definition shorten (preview_text : text) : text :=
  if 150 <? length preview_text then firstn 150 preview_text ++ chars "..."
  else preview_text.

(** The body of the record loop for one marker: the record appended, if
    any. *)
Definition make_question (all_text : text) (current_year : option text)
           (q_pos : position) (rest : list position) : option question :=
  let content := clean_content all_text q_pos rest in
  let marks := find_marks content in
  if 20 <? length content then
    Some (Question (pos_number q_pos) (shorten (preview_of content)) content
                   marks None (or_unknown current_year) (pos_page q_pos))
  else None.

(** The record loop. *)
Fixpoint make_questions (all_text : text) (current_year : option text)
         (question_positions : list position) : list question :=
  match question_positions with
  | [] => []
  | q_pos :: rest =>
      match make_question all_text current_year q_pos rest with
      | Some q => q :: make_questions all_text current_year rest
      | None => make_questions all_text current_year rest
      end
  end.

(** [question_positions] after the sort: the markers of a document in the
    order the record loop visits them. *)
Definition question_positions_of (pdf : document) : result (list position) :=
  question_positions <- scan_questions (all_text_of pdf) (page_breaks_of pdf) ;;
  Ok (sort_by_number question_positions).

Definition current_year_of (pdf : document) : option text :=
  find_year year_patterns (all_text_of pdf).

Definition extract_questions_with_year (pdf_file : document)
  : result (list question) :=
  question_positions <- question_positions_of pdf_file ;;
  Ok (make_questions (all_text_of pdf_file) (current_year_of pdf_file)
                     question_positions).

(** *** The chapter assigner *)

Definition set_chapter (q : question) (ch : text) : question :=
  Question (question_number q) (question_preview q) (complete_content q)
           (marks q) (Some ch) (year q) (page q).

(** [any(keyword.lower() in question_lower for keyword in keywords)] *)
Definition any_keyword (keywords : list text) (question_lower : text) : bool :=
  existsb (fun keyword => Py.contains (Py.lower keyword) question_lower) keywords.

(** The inner loop over [keyword_mapping.items()], with its [break]. *)
Fixpoint assign_one (q : question) (question_lower : text)
         (items : list (text * list text)) : question :=
  match items with
  | [] => q
  | (ch, keywords) :: rest =>
      if any_keyword keywords question_lower then set_chapter q ch
      else assign_one q question_lower rest
  end.

Definition bulk_assign_by_keywords (questions : list question)
           (keyword_mapping : list (text * list text)) : list question :=
  map (fun q => assign_one q (Py.lower (question_preview q)) keyword_mapping) questions.

(** ** Fixtures *)

Definition example_pdf : document :=
  [ Some (chars "Q. 1) What is CAPM? [4]");
    Some (chars "Q. 2) Explain ruin theory. **********") ].

(** Page 1 ends where question 2 begins at the top of page 2. *)
Definition boundary_pdf : document :=
  [ Some (chars "Q. 1) Define the capital asset pricing model.");
    Some (chars "Q. 2) Explain ruin theory in detail.") ].

(** A page break in the middle of a question. *)
Definition interior_pdf : document :=
  [ Some (chars "Q. 1) Define the capital asset");
    Some (chars "pricing model and its assumptions.") ].

(** A question whose first line has 166 characters. *)
Definition long_line_pdf : document :=
  [ Some (chars "Q. 1) " ++ repeat "a"%char 160) ].

(** Question 2 printed before question 1. *)
Definition out_of_order_pdf : document :=
  [ Some (chars "Q. 2) Explain the ruin theory in detail. Q. 1) What is the capital asset pricing model?") ].

(** The marker of question 5 printed twice in a row. *)
Definition repeated_marker_pdf : document :=
  [ Some (chars "Q. 5) Q. 5) State and prove the optional stopping theorem.") ].

(** Questions 1, 3 and 2, printed in this order. *)
Definition shuffled_pdf : document :=
  [ Some (chars "Q. 1) Define the capital asset pricing model. Q. 3) Derive the Black-Scholes formula. Q. 2) Explain ruin theory in detail.") ].

(** Two questions numbered 5. *)
Definition twice_asked_pdf : document :=
  [ Some (chars "Q. 5) State and prove the optional stopping theorem. Q. 5) Define a martingale and give an example.") ].

(** A marker whose number has 4301 digits, printed after question 2 and a
    run of stars. *)
Definition many_digits_pdf : document :=
  [ Some (chars "Q. 2)**********Q. " ++ repeat "0"%char 4300 ++ chars "1)") ].

(** ** Vocabulary of the properties *)

(** A text of digits that [int] converts. *)
Definition converts (s : text) : bool := length s <=? Py.max_str_digits.

(** The number of every marker of a text converts. *)
Definition numbers_convert (all_text : text) : bool :=
  forallb (fun mo => converts (group_text 1 mo))
          (finditer false question_pattern all_text).

(** The markers of a text with the numbers that their digits denote, in
    the order of the text: what the marker loop collects when every number
    converts. *)
Definition scanned_markers (all_text : text) (page_breaks : list (nat * nat))
  : list position :=
  map (fun mo =>
         Position (Py.int_value (group_text 1 mo)) (m_start mo) mo
                  (find_page (m_start mo) page_breaks 1))
      (finditer false question_pattern all_text).

(** These markers sorted by number. *)
Definition sorted_markers_of (pdf : document) : list position :=
  sort_by_number (scanned_markers (all_text_of pdf) (page_breaks_of pdf)).

(** The records built from these markers. *)
Definition records_of (pdf : document) : list question :=
  make_questions (all_text_of pdf) (current_year_of pdf) (sorted_markers_of pdf).

(** The cleaned span of every marker of [question_positions], in order. *)
Fixpoint candidate_spans (all_text : text) (question_positions : list position)
  : list (position * text) :=
  match question_positions with
  | [] => []
  | q_pos :: rest =>
      (q_pos, clean_content all_text q_pos rest) :: candidate_spans all_text rest
  end.

(** A candidate passes the length test of the record loop. *)
Definition long_enough (c : position * text) : bool := 20 <? length (snd c).

(** [sub] is a subsequence of [l]. *)
Inductive subseq (A : Type) : list A -> list A -> Prop :=
| subseq_nil : subseq [] []
| subseq_skip : forall x s l, subseq s l -> subseq s (x :: l)
| subseq_take : forall x s l, subseq s l -> subseq (x :: s) (x :: l).

(** The loop invariant of [read_pages]: the offsets recorded so far
    increase strictly, lie inside the text, and start at 0. *)
Definition breaks_ok (all_text : text) (page_breaks : list (nat * nat)) : Prop :=
  StronglySorted lt (map fst page_breaks)
  /\ Forall (fun k => k < length all_text) (map fst page_breaks)
  /\ ((all_text = [] /\ page_breaks = [])
      \/ exists v rest, page_breaks = (0, v) :: rest).

(** The entry of [page_breaks] that owns a position: the one with the
    greatest offset not after it. *)
Definition owning_page (page_breaks : list (nat * nat)) (start_pos page_num : nat)
  : Prop :=
  exists off,
    In (off, page_num) page_breaks
    /\ off <= start_pos
    /\ forall off' pg', In (off', pg') page_breaks -> off' <= start_pos -> off' <= off.

Definition le_number (a b : position) : Prop := (pos_number a <= pos_number b)%N.

Definition has_number (n : N) (p : position) : bool := (pos_number p =? n)%N.

(** The order of the marker list: by number, and by offset among the
    markers of one number. *)
Definition number_then_start (a b : position) : Prop :=
  (pos_number a < pos_number b)%N
  \/ (pos_number a = pos_number b /\ pos_start a < pos_start b).

(** A marker whose span is shorter than the threshold. *)
Definition short_pdf : document := [ Some (chars "Q. 1) Too short.") ].

(** The line the preview is taken from: the first line whose cleaned form
    is longer than 10 characters, in that cleaned form; the first line as it
    is when there is none. *)
Definition chosen_line (content : text) : text :=
  let lines := Py.split nl content in
  match find (fun l => 10 <? length l) (map clean_line lines) with
  | Some l => l
  | None => hd content lines
  end.

(** A chapter of the mapping has a keyword inside the preview, letter case
    apart. *)
Definition chapter_matches (preview : text) (item : text * list text) : bool :=
  existsb (fun keyword => Py.contains (Py.lower keyword) (Py.lower preview))
          (snd item).

(** A record with a chapter set by hand, and a mapping. *)
Definition tagged_question : question :=
  Question 3 (chars "Derive the Black-Scholes formula.")
           (chars "Q. 3) Derive the Black-Scholes formula. [6]")
           (chars "6") (Some (chars "Chapter 9")) (chars "2024") 2.

Definition sample_mapping : list (text * list text) :=
  [ (chars "Chapter 1", [chars "capm"; chars "beta"]);
    (chars "Chapter 2", [chars "RUIN"; chars "black-scholes"]);
    (chars "Chapter 3", [chars "formula"]) ].

(** Two texts that differ in letter case only. *)
Definition same_letters (s s' : text) : Prop := Py.lower s = Py.lower s'.

(** A text of the form [20dd]. *)
Definition is_year_text (y : text) : Prop :=
  exists d1 d2,
    y = ["2"; "0"; d1; d2]%char /\ Py.isdecimal d1 = true /\ Py.isdecimal d2 = true.

(** A text with a date in capital letters after another year. *)
Definition dated_text : text := chars "CODE 2099 HELD ON 28TH MAY 2024".

(** A pattern that ends with the capture group [n] around [20\d{2}]. *)
Inductive ends_with_year (n : nat) : regex -> Prop :=
| ends_here : ends_with_year n (Grp n year_digits)
| ends_later : forall r1 r2, ends_with_year n r2 -> ends_with_year n (Seq r1 r2).

(** A text that has [20dd] somewhere. *)
Definition has_year_digits (s : text) : Prop :=
  exists pre d1 d2 post,
    s = pre ++ ["2"; "0"; d1; d2]%char ++ post
    /\ Py.isdecimal d1 = true /\ Py.isdecimal d2 = true.

(** Two results that are both absent, or both present and related. *)
Definition opt_same (A : Type) (X : A -> A -> Prop) (o o' : option A) : Prop :=
  match o, o' with
  | Some a, Some b => X a b
  | None, None => True
  | _, _ => False
  end.

(** The same groups, with texts that differ in letter case only. *)
Definition caps_same (cs cs' : caps) : Prop :=
  Forall2 (fun a b => fst a = fst b /\ same_letters (snd a) (snd b)) cs cs'.

Definition match_same (mo mo' : match_obj) : Prop :=
  m_start mo = m_start mo' /\ m_end mo = m_end mo'
  /\ caps_same (m_caps mo) (m_caps mo').

(** A paper with a date in capital letters after another year. *)
Definition dated_pdf : document :=
  [ Some (chars "CODE 2099 HELD ON 28TH MAY 2024. Q. 1) What is the capital asset pricing model?") ].

(** ** More vocabulary *)

(** [pg] is the 1-based index of a page of [pdf] that has text. *)
Definition is_text_page (pdf : document) (pg : nat) : Prop :=
  1 <= pg <= length pdf
  /\ exists txt, nth_error pdf (pg - 1) = Some (Some txt) /\ txt <> [].

(** A page without text. *)
Definition blank_page (p : option text) : Prop := p = None \/ p = Some [].

(** A paper whose second page has no text. *)
Definition gap_pdf : document :=
  [ Some (chars "Q. 1) Define the capital asset pricing model.");
    None;
    Some (chars "Q. 2) Explain ruin theory in detail.") ].

(** The records of that paper. *)
Definition gap_questions : list question :=
  [ Question 1 (chars "Define the capital asset pricing model.")
      (chars "Q. 1) Define the capital asset pricing model." ++ [nl]
         ++ chars "--- PAGE 3 ---")
      (chars "Unknown") None (chars "Unknown") 1;
    Question 2 (chars "Explain ruin theory in detail.")
      (chars "Q. 2) Explain ruin theory in detail.")
      (chars "Unknown") None (chars "Unknown") 3 ].

(** ** The workbook *)

(** The first entry of every chapter selector. *)
Definition select_chapter : text := chars "-- Select Chapter --".

(** [a == b] on texts. *)
Fixpoint text_eqb (a b : text) : bool :=
  match a, b with
  | [], [] => true
  | x :: a', y :: b' => Ascii.eqb x y && text_eqb a' b'
  | _, _ => false
  end.

(** [q["chapter"] and q["chapter"] != "-- Select Chapter --"] *)
Definition is_assigned (q : question) : bool :=
  match chapter q with
  | None | Some [] => false
  | Some ch => negb (text_eqb ch select_chapter)
  end.

(** [[q for q in questions if q["chapter"] and ...]] *)
Definition assigned_questions (questions : list question) : list question :=
  filter is_assigned questions.

(** [q["chapter"]] of a question that passed the filter. *)
Definition chapter_name (q : question) : text :=
  match chapter q with
  | Some ch => ch
  | None => []
  end.

(** The body of the grouping loop: [chapters[chapter].append(q)], after
    [chapters[chapter] = []] when the key is new.  A new key goes to the
    end of the dict. *)
Fixpoint add_to_chapter (chapters : list (text * list question))
         (ch : text) (q : question) : list (text * list question) :=
  match chapters with
  | [] => [(ch, [q])]
  | (k, qs) :: rest =>
      if text_eqb k ch then (k, qs ++ [q]) :: rest
      else (k, qs) :: add_to_chapter rest ch q
  end.

(** The grouping loop. *)
Definition group_by_chapter (assigned : list question)
  : list (text * list question) :=
  fold_left (fun chapters q => add_to_chapter chapters (chapter_name q) q)
            assigned [].

(** [(\d+)] *)
Definition number_pattern : regex := Grp 1 (plus Digit).

(** [chapter_sort_key]; [None] stands for [float('inf')]. *)
Definition chapter_sort_key (chapter_name : text) : result (option N) :=
  match search false number_pattern chapter_name with
  | Some mo => n <- Py.int (group_text 1 mo) ;; Ok (Some n)
  | None => Ok None
  end.

(** [a <= b] on sort keys: every number is below infinity. *)
Definition key_leb (a b : option N) : bool :=
  match a, b with
  | Some x, Some y => (x <=? y)%N
  | Some _, None => true
  | None, Some _ => false
  | None, None => true
  end.

(** [sorted(chapters.keys(), key=chapter_sort_key)]: the key of every
    name is computed first, then the names are sorted by their keys; the
    sort is stable. *)
Fixpoint insert_by_key (c : option N * text) (l : list (option N * text))
  : list (option N * text) :=
  match l with
  | [] => [c]
  | h :: t =>
      if key_leb (fst c) (fst h) then c :: l
      else h :: insert_by_key c t
  end.

Definition sort_by_key (l : list (option N * text)) : list (option N * text) :=
  fold_right insert_by_key [] l.

Definition sort_chapters (names : list text) : result (list text) :=
  keyed <- map_result (fun c => k <- chapter_sort_key c ;; Ok (k, c)) names ;;
  Ok (map snd (sort_by_key keyed)).

(** [chapters[chapter]] *)
Fixpoint questions_of (chapters : list (text * list question)) (ch : text)
  : list question :=
  match chapters with
  | [] => []
  | (k, qs) :: rest => if text_eqb k ch then qs else questions_of rest ch
  end.

(** The calls made on the [FPDF] object, in order. *)
Inductive pdf_call : Type :=
| Add_page
| Set_font (family style : text) (size : nat)
| Cell (w h : nat) (txt : text) (ln : bool) (align : text)
| Ln (h : nat)
| Multi_cell (w h : nat) (txt : text)
| Output (name : text).

Definition arial : text := chars "Arial".

(** [re.match(r'[ABCD]\.', line)] and [re.match(r'[a-d]\.', line)]: a
    character of the class, then a dot. *)
Definition starts_with_option (letters : text) (line : text) : bool :=
  match line with
  | c :: d :: _ => existsb (Ascii.eqb c) letters && Ascii.eqb d "."
  | _ => false
  end.

(** [re.match(r'[IVX]+\.', line)] and [re.match(r'i+\)', line)]: a run of
    one or more characters of the class, then the closing character. *)
Definition starts_with_run (letters : text) (closing : ascii) (line : text) : bool :=
  match rep (fun c => existsb (Ascii.eqb c) letters) 1 None
            (fun rest => match rest with
                         | c :: _ => if Ascii.eqb c closing then Some tt else None
                         | [] => None
                         end)
            line with
  | Some _ => true
  | None => false
  end.

(** The calls for one line of the content of a question.  The calls on the
    [FPDF] object are taken to succeed, so the [except] branch around
    [multi_cell] is not entered. *)
Definition render_line (raw_line : text) : list pdf_call :=
  let line := Py.strip raw_line in
  match line with
  | [] => [Ln 2]
  | _ =>
      (if starts_with_option (chars "ABCD") line
       then [Set_font arial [] 10; Cell 5 5 [] false []]
       else if starts_with_run (chars "IVX") "." line
       then [Set_font arial [] 10; Cell 5 5 [] false []]
       else if starts_with_option (chars "abcd") line
       then [Set_font arial [] 10; Cell 5 5 [] false []]
       else if starts_with_run (chars "i") ")" line
       then [Set_font arial (chars "B") 10]
       else [Set_font arial [] 10])
      ++ (let encoded_line := Py.decode_latin1 (Py.encode_latin1_replace line) in
          [Multi_cell 0 5 encoded_line])
  end.

(** [f"Question {q['question_number']} (Year: {q['year']}) - [{q['marks']} marks]"] *)
Definition header_text (q : question) : result text :=
  number <- Py.str_int (question_number q) ;;
  Ok (chars "Question " ++ number ++ chars " (Year: " ++ year q
            ++ chars ") - [" ++ marks q ++ chars " marks]").

(** The calls for one question. *)
Definition render_question (q : question) : result (list pdf_call) :=
  header <- header_text q ;;
  Ok ([Set_font arial (chars "B") 12; Cell 0 8 header true []; Ln 3;
       Set_font arial [] 10]
      ++ flat_map render_line (Py.split nl (complete_content q))
      ++ [Ln 10]).

(** The calls for one chapter. *)
Definition render_chapter (chapters : list (text * list question)) (ch : text)
  : result (list pdf_call) :=
  calls <- map_result render_question (questions_of chapters ch) ;;
  Ok ([Set_font arial (chars "B") 14; Cell 0 12 ch true []; Ln 5]
      ++ concat calls
      ++ [Ln 10]).

(** [generate_workbook]: the calls it has made on the [FPDF] object when it
    returns; the calls themselves are taken to succeed.  When it raises,
    [pdf.output] has not been called. *)
Definition generate_workbook (questions : list question) (output_path : text)
  : result (list pdf_call) :=
  let title :=
    [Add_page; Set_font arial [] 16;
     Cell 0 15 (chars "Chapter-wise Question Workbook") true (chars "C"); Ln 10] in
  match assigned_questions questions with
  | [] =>
      Ok (title
          ++ [Set_font arial [] 12;
              Cell 0 10 (chars "No questions have been assigned to chapters yet.")
                   true [];
              Output output_path])
  | assigned =>
      let chapters := group_by_chapter assigned in
      sorted_chapters <- sort_chapters (map fst chapters) ;;
      calls <- map_result (render_chapter chapters) sorted_chapters ;;
      Ok (title ++ concat calls ++ [Output output_path])
  end.

(** [reset_assignments]: [q["chapter"] = None] for every question. *)
Definition reset_assignments (questions : list question) : list question :=
  map (fun q => Question (question_number q) (question_preview q)
                         (complete_content q) (marks q) None (year q) (page q))
      questions.

(** [[f"Chapter {i}" for i in range(1, num_chapters + 1)]] *)
Definition numbered_chapter_names (num_chapters : nat) : list text :=
  map (fun i => chars "Chapter " ++ Py.str i) (seq 1 num_chapters).

(** ** Vocabulary of the workbook *)

(** The first run of digits in a name, as a number; [None] when the name
    has no digit.  It is the sort key of the name when the run converts. *)
Definition first_number (name : text) : option N :=
  match search false number_pattern name with
  | Some mo => Some (Py.int_value (group_text 1 mo))
  | None => None
  end.

(** The first run of digits in a name converts, or there is none. *)
Definition key_converts (name : text) : bool :=
  match search false number_pattern name with
  | Some mo => converts (group_text 1 mo)
  | None => true
  end.

(** A stable sort of names by their first number. *)
Fixpoint insert_chapter (c : text) (l : list text) : list text :=
  match l with
  | [] => [c]
  | h :: t =>
      if key_leb (first_number c) (first_number h) then c :: l
      else h :: insert_chapter c t
  end.

Definition chapters_in_order (l : list text) : list text :=
  fold_right insert_chapter [] l.

(** The number of a question has a decimal form that [str] gives. *)
Definition number_prints (q : question) : bool :=
  length (Py.decimal (question_number q)) <=? Py.max_str_digits.

(** The header of a question whose number prints. *)
Definition header_of (q : question) : text :=
  chars "Question " ++ Py.decimal (question_number q) ++ chars " (Year: " ++ year q
        ++ chars ") - [" ++ marks q ++ chars " marks]".

(** The calls for a question whose number prints. *)
Definition question_calls (q : question) : list pdf_call :=
  [Set_font arial (chars "B") 12; Cell 0 8 (header_of q) true []; Ln 3;
   Set_font arial [] 10]
  ++ flat_map render_line (Py.split nl (complete_content q))
  ++ [Ln 10].

(** The calls for a chapter whose questions have numbers that print. *)
Definition chapter_calls (chapters : list (text * list question)) (ch : text)
  : list pdf_call :=
  [Set_font arial (chars "B") 14; Cell 0 12 ch true []; Ln 5]
  ++ flat_map question_calls (questions_of chapters ch)
  ++ [Ln 10].

(** The calls of a workbook in which every chapter key converts and every
    number prints. *)
Definition workbook_calls (questions : list question) (output_path : text)
  : list pdf_call :=
  [Add_page; Set_font arial [] 16;
   Cell 0 15 (chars "Chapter-wise Question Workbook") true (chars "C"); Ln 10]
  ++ match assigned_questions questions with
     | [] =>
         [Set_font arial [] 12;
          Cell 0 10 (chars "No questions have been assigned to chapters yet.")
               true [];
          Output output_path]
     | assigned =>
         let chapters := group_by_chapter assigned in
         let sorted_chapters := chapters_in_order (map fst chapters) in
         flat_map (chapter_calls chapters) sorted_chapters
         ++ [Output output_path]
     end.

(** The texts of the cells of height [h], in the order they are printed:
    height 12 is a chapter heading, height 8 the header of a question. *)
Definition cell_texts (h : nat) (calls : list pdf_call) : list text :=
  flat_map (fun c => match c with
                     | Cell _ h' txt _ _ => if Nat.eqb h' h then [txt] else []
                     | _ => []
                     end) calls.

(** The order of the chapters in the workbook. *)
Definition key_le (a b : text) : Prop :=
  key_leb (first_number a) (first_number b) = true.

(** A question has the chapter [k]. *)
Definition in_chapter (k : text) (q : question) : bool :=
  text_eqb (chapter_name q) k.

(** What the workbook holds when no question is assigned. *)
Definition empty_workbook (output_path : text) : list pdf_call :=
  [Add_page; Set_font arial [] 16;
   Cell 0 15 (chars "Chapter-wise Question Workbook") true (chars "C"); Ln 10;
   Set_font arial [] 12;
   Cell 0 10 (chars "No questions have been assigned to chapters yet.") true [];
   Output output_path].

(** Questions with chapters, one with the placeholder and one without. *)
Definition labelled_questions : list question :=
  [ Question 1 (chars "What is CAPM?") (chars "Q. 1) What is CAPM? [4]")
      (chars "4") (Some (chars "Chapter 10")) (chars "2024") 1;
    Question 2 (chars "Explain ruin theory.") (chars "Q. 2) Explain ruin theory.")
      (chars "Unknown") (Some (chars "Chapter 2")) (chars "2024") 1;
    Question 3 (chars "Define a martingale.") (chars "Q. 3) Define a martingale.")
      (chars "5") (Some (chars "Ruin Theory")) (chars "2024") 2;
    Question 4 (chars "State the CAPM assumptions.")
      (chars "Q. 4) State the CAPM assumptions.")
      (chars "5") (Some (chars "Chapter 10")) (chars "2024") 2;
    Question 5 (chars "Price a call option.") (chars "Q. 5) Price a call option.")
      (chars "5") (Some select_chapter) (chars "2024") 2;
    Question 6 (chars "Price a put option.") (chars "Q. 6) Price a put option.")
      (chars "5") None (chars "2024") 3 ].

(** Two questions with the same number on the same page. *)
Definition alike_questions : list question :=
  [ Question 7 (chars "State the CAPM assumptions.")
      (chars "Q. 7) State the CAPM assumptions.")
      (chars "5") None (chars "2024") 4;
    Question 7 (chars "Define a martingale.") (chars "Q. 7) Define a martingale.")
      (chars "5") None (chars "2024") 4 ].

(** A chapter whose first number is [k]. *)
Definition has_key (k : option N) (c : text) : bool :=
  match first_number c, k with
  | Some x, Some y => (x =? y)%N
  | None, None => true
  | _, _ => false
  end.

(** ** The application *)

Definition nonempty (s : text) : bool :=
  match s with
  | [] => false
  | _ :: _ => true
  end.

(** [[name.strip() for name in chapter_names_input.split('\n') if name.strip()]] *)
Definition custom_chapter_names (chapter_names_input : text) : list text :=
  map Py.strip
      (filter (fun name => nonempty (Py.strip name))
              (Py.split nl chapter_names_input)).

(** [[k.strip() for k in keywords.split(',')]] *)
Definition parse_keywords (keywords : text) : list text :=
  map Py.strip (Py.split "," keywords).

(** [keyword_mapping[chapter] = keywords] on the dict, kept in insertion
    order. *)
Fixpoint mapping_set (mapping : list (text * list text)) (ch : text)
         (keywords : list text) : list (text * list text) :=
  match mapping with
  | [] => [(ch, keywords)]
  | (k, v) :: rest =>
      if text_eqb k ch then (k, keywords) :: rest
      else (k, v) :: mapping_set rest ch keywords
  end.

(** The loop over the keyword fields; [fields] gives, for every chapter
    name in order, the text typed into its field. *)
Definition read_keyword_mapping (fields : list (text * text))
  : list (text * list text) :=
  fold_left (fun mapping field =>
               if nonempty (snd field)
               then mapping_set mapping (fst field) (parse_keywords (snd field))
               else mapping)
            fields [].

(** [not q["chapter"] or q["chapter"] == "-- Select Chapter --"] *)
Definition is_unassigned (q : question) : bool :=
  match chapter q with
  | None | Some [] => true
  | Some ch => text_eqb ch select_chapter
  end.

(** [q["chapter"] == filter_chapter] *)
Definition has_chapter (filter_chapter : text) (q : question) : bool :=
  match chapter q with
  | Some ch => text_eqb ch filter_chapter
  | None => false
  end.

(** The two filters of the assignment view. *)
Definition apply_filters (questions : list question)
           (filter_chapter filter_year : text) : list question :=
  let filtered_questions :=
    if text_eqb filter_chapter (chars "Unassigned")
    then filter is_unassigned questions
    else if negb (text_eqb filter_chapter (chars "All"))
         then filter (has_chapter filter_chapter) questions
         else questions in
  if negb (text_eqb filter_year (chars "All"))
  then filter (fun q => text_eqb (year q) filter_year) filtered_questions
  else filtered_questions.

(** [(total_questions - 1) // questions_per_page + 1 if total_questions > 0 else 0] *)
Definition total_pages (total_questions questions_per_page : nat) : nat :=
  if 0 <? total_questions
  then (total_questions - 1) / questions_per_page + 1
  else 0.

(** [filtered_questions[start_idx:end_idx]] *)
Definition page_questions (filtered_questions : list question)
           (questions_per_page page_num : nat) : list question :=
  let total_questions := length filtered_questions in
  let start_idx := page_num * questions_per_page in
  let end_idx := Nat.min (start_idx + questions_per_page) total_questions in
  firstn (end_idx - start_idx) (skipn start_idx filtered_questions).

(** [next(idx for idx, orig_q in enumerate(questions) if ...)]; [None] is
    the exhausted generator. *)
Fixpoint original_idx_from (questions : list question) (q : question) (idx : nat)
  : option nat :=
  match questions with
  | [] => None
  | orig_q :: rest =>
      if (question_number orig_q =? question_number q)%N
         && (page orig_q =? page q)
      then Some idx
      else original_idx_from rest q (S idx)
  end.

Definition original_idx (questions : list question) (q : question) : option nat :=
  original_idx_from questions q 0.

(** [len([q for q in questions if q["chapter"] and ...])] *)
Definition assigned_count (questions : list question) : nat :=
  length (filter is_assigned questions).

(** [summary_data[chapter][year] += 1], after the two initialisations. *)
Fixpoint count_year (years : list (text * nat)) (y : text) : list (text * nat) :=
  match years with
  | [] => [(y, 1)]
  | (k, n) :: rest =>
      if text_eqb k y then (k, S n) :: rest else (k, n) :: count_year rest y
  end.

Fixpoint count_chapter (summary_data : list (text * list (text * nat)))
         (ch y : text) : list (text * list (text * nat)) :=
  match summary_data with
  | [] => [(ch, [(y, 1)])]
  | (k, years) :: rest =>
      if text_eqb k ch then (k, count_year years y) :: rest
      else (k, years) :: count_chapter rest ch y
  end.

(** The summary loop. *)
Definition summarize (questions : list question)
  : list (text * list (text * nat)) :=
  fold_left (fun summary_data q => count_chapter summary_data (chapter_name q) (year q))
            (assigned_questions questions) [].

(** [summary_data[chapter]] and [sum(summary_data[chapter].values())] *)
Fixpoint years_of (summary_data : list (text * list (text * nat))) (ch : text)
  : list (text * nat) :=
  match summary_data with
  | [] => []
  | (k, years) :: rest => if text_eqb k ch then years else years_of rest ch
  end.

Definition chapter_total (summary_data : list (text * list (text * nat)))
           (ch : text) : nat :=
  fold_right Nat.add 0 (map snd (years_of summary_data ch)).

(** The texts printed with [multi_cell], in order. *)
Definition multi_cell_texts (calls : list pdf_call) : list text :=
  flat_map (fun c => match c with
                     | Multi_cell _ _ txt => [txt]
                     | _ => []
                     end) calls.

(** The assigned questions in the order of the workbook: chapter after
    chapter in the sorted order, and in the order of the input inside a
    chapter. *)
Definition filed_in_order (sorted_chapters : list text) (assigned : list question)
  : list question :=
  flat_map (fun k => filter (in_chapter k) assigned) sorted_chapters.

(** A workbook that is generated without an exception: the key of every
    chapter converts and the number of every question prints. *)
Definition workbook_converts (questions : list question) : bool :=
  let chapters := group_by_chapter (assigned_questions questions) in
  forallb key_converts (map fst chapters)
  && forallb (fun ch => forallb number_prints (questions_of chapters ch))
             (chapters_in_order (map fst chapters)).

(** The lines of a content that are not blank, stripped. *)
Definition printed_lines (content : text) : list text :=
  filter nonempty (map Py.strip (Py.split nl content)).

(** * Properties *)

(** ** Where the program raises *)

Section Raising.

Variables A B : Type.

(** A loop whose body checks its element and then computes a value returns
    the values when every element passes, and raises otherwise. *)
Lemma map_result_checked (body : A -> result B) (ok : A -> bool) (g : A -> B)
      (l : list A) :
  (forall x, In x l -> body x = if ok x then Ok (g x) else Raise ValueError) ->
  map_result body l = if forallb ok l then Ok (map g l) else Raise ValueError.
Proof.
  induction l as [|x l IH]; intros H; [reflexivity|].
  cbn [map_result forallb map]. rewrite (H x (or_introl eq_refl)).
  destruct (ok x); cbn [bind andb]; [|reflexivity].
  rewrite IH by (intros y Hy; apply H; now right).
  destruct (forallb ok l); reflexivity.
Qed.

End Raising.

Lemma int_checked (s : text) :
  Py.int s = if converts s then Ok (Py.int_value s) else Raise ValueError.
Proof. reflexivity. Qed.

Lemma scan_questions_checked (all_text : text) (page_breaks : list (nat * nat)) :
  scan_questions all_text page_breaks
  = if numbers_convert all_text then Ok (scanned_markers all_text page_breaks)
    else Raise ValueError.
Proof.
  unfold scan_questions, numbers_convert, scanned_markers.
  apply map_result_checked. intros mo _.
  unfold scan_question. rewrite int_checked.
  destruct (converts (group_text 1 mo)); reflexivity.
Qed.

Lemma question_positions_checked (pdf : document) :
  question_positions_of pdf
  = if numbers_convert (all_text_of pdf) then Ok (sorted_markers_of pdf)
    else Raise ValueError.
Proof.
  unfold question_positions_of. rewrite scan_questions_checked.
  destruct (numbers_convert (all_text_of pdf)); reflexivity.
Qed.

(** The extraction raises when the number of a marker does not convert,
    and otherwise returns the records built from the sorted markers. *)
Lemma extract_checked (pdf : document) :
  extract_questions_with_year pdf
  = if numbers_convert (all_text_of pdf) then Ok (records_of pdf)
    else Raise ValueError.
Proof.
  unfold extract_questions_with_year. rewrite question_positions_checked.
  destruct (numbers_convert (all_text_of pdf)); reflexivity.
Qed.

Lemma scan_questions_returns (all_text : text) (page_breaks : list (nat * nat))
      (scanned : list position) :
  scan_questions all_text page_breaks = Ok scanned ->
  numbers_convert all_text = true /\ scanned = scanned_markers all_text page_breaks.
Proof.
  rewrite scan_questions_checked.
  destruct (numbers_convert all_text); [|discriminate].
  intros [= <-]. auto.
Qed.

Lemma question_positions_returns (pdf : document) (question_positions : list position) :
  question_positions_of pdf = Ok question_positions ->
  numbers_convert (all_text_of pdf) = true
  /\ question_positions = sorted_markers_of pdf.
Proof.
  rewrite question_positions_checked.
  destruct (numbers_convert (all_text_of pdf)); [|discriminate].
  intros [= <-]. auto.
Qed.

Lemma extract_returns (pdf : document) (questions : list question) :
  extract_questions_with_year pdf = Ok questions ->
  numbers_convert (all_text_of pdf) = true /\ questions = records_of pdf.
Proof.
  rewrite extract_checked.
  destruct (numbers_convert (all_text_of pdf)); [|discriminate].
  intros [= <-]. auto.
Qed.

Lemma latin1_round_trip (s : text) :
  Py.decode_latin1 (Py.encode_latin1_replace s) = s.
Proof.
  unfold Py.decode_latin1, Py.encode_latin1_replace. rewrite map_map.
  rewrite <- (map_id s) at 2. apply map_ext. exact ascii_of_byte_of_ascii.
Qed.

(** ** The page concatenator *)

Section Concatenator.

Lemma dict_set_fresh (d : list (nat * nat)) (k v : nat) :
  Forall (fun k' => k' < k) (map fst d) -> dict_set d k v = d ++ [(k, v)].
Proof.
  induction d as [|[k' v'] d IH]; simpl; intros H; [reflexivity|].
  inversion H as [|? ? Hk Hd]; subst.
  destruct (Nat.eqb_spec k' k) as [->|_]; [lia|].
  now rewrite IH.
Qed.

Lemma sorted_snoc (l : list nat) (k : nat) :
  StronglySorted lt l -> Forall (fun k' => k' < k) l -> StronglySorted lt (l ++ [k]).
Proof.
  induction 1 as [|a l Hs IH Ha]; simpl; intros Hk.
  - repeat constructor.
  - inversion Hk; subst. constructor; [auto|].
    apply Forall_app; split; [assumption|]. now repeat constructor.
Qed.

Lemma page_marker_length (n : nat) : 0 < length (page_marker n).
Proof. unfold page_marker; simpl; lia. Qed.

Lemma breaks_ok_step (all_text txt : text) (pb : list (nat * nat)) (n : nat) :
  breaks_ok all_text pb ->
  breaks_ok (all_text ++ page_marker n ++ txt) (dict_set pb (length all_text) n).
Proof.
  intros (Hs & Hb & H0).
  rewrite dict_set_fresh by assumption.
  assert (Hlen : length all_text < length (all_text ++ page_marker n ++ txt)).
  { pose proof (page_marker_length n). rewrite !length_app. lia. }
  repeat split.
  - rewrite map_app. now apply sorted_snoc.
  - rewrite map_app. apply Forall_app; split.
    + eapply Forall_impl; [|exact Hb]. intros k Hk. simpl in Hk. lia.
    + constructor; [exact Hlen | constructor].
  - right. destruct H0 as [[-> ->]|(v & rest & ->)]; simpl; eauto.
Qed.

Lemma read_pages_ok (pages : document) :
  forall n all_text pb,
    breaks_ok all_text pb ->
    breaks_ok (fst (read_pages pages n all_text pb))
              (snd (read_pages pages n all_text pb)).
Proof.
  induction pages as [|[[|c txt]|] pages IH]; intros n all_text pb H;
    cbn [read_pages fst snd]; auto.
  apply IH, breaks_ok_step, H.
Qed.

Lemma document_breaks_ok (pdf : document) :
  breaks_ok (all_text_of pdf) (page_breaks_of pdf).
Proof.
  apply read_pages_ok. repeat split; simpl; auto; constructor.
Qed.

(** What the page loop computes on offsets in increasing order. *)
Lemma find_page_greatest (start_pos : nat) (items : list (nat * nat)) :
  forall page_num,
    StronglySorted lt (map fst items) ->
    (Forall (fun k => start_pos < k) (map fst items)
     /\ find_page start_pos items page_num = page_num)
    \/ (exists off,
           In (off, find_page start_pos items page_num) items
           /\ off <= start_pos
           /\ forall off' pg', In (off', pg') items -> off' <= start_pos -> off' <= off).
Proof.
  induction items as [|[k v] items IH]; intros page_num Hs; simpl.
  - left; split; [constructor | reflexivity].
  - inversion Hs as [|? ? Hs' Hk]; subst.
    destruct (Nat.leb_spec k start_pos) as [Hle|Hgt].
    + right. destruct (IH v Hs') as [[Hall Heq]|(off & Hin & Hoff & Hmax)].
      * exists k. rewrite Heq. split; [now left|]. split; [assumption|].
        intros off' pg' [E|Hin'] Hle'; [inversion E; lia|].
        rewrite Forall_forall in Hall.
        specialize (Hall off' (in_map fst _ _ Hin')). simpl in Hall. lia.
      * exists off. split; [now right|]. split; [assumption|].
        intros off' pg' [E|Hin'] Hle'; [|eauto].
        inversion E; subst.
        rewrite Forall_forall in Hk.
        specialize (Hk off (in_map fst _ _ Hin)). simpl in Hk. lia.
    + destruct (IH page_num Hs') as [[Hall Heq]|(off & Hin & Hoff & Hmax)].
      * left. split; [constructor; assumption | assumption].
      * right. exists off. split; [now right|]. split; [assumption|].
        intros off' pg' [E|Hin'] Hle'; [inversion E; lia | eauto].
Qed.

End Concatenator.

(** ** The marker list and its order *)

Section Ordering.

Lemma insert_by_number_perm (q : position) (l : list position) :
  Permutation (q :: l) (insert_by_number q l).
Proof.
  induction l as [|h t IH]; simpl; [reflexivity|].
  destruct (pos_number q <=? pos_number h)%N; [reflexivity|].
  rewrite perm_swap. now constructor.
Qed.

Lemma sort_by_number_perm (l : list position) : Permutation l (sort_by_number l).
Proof.
  induction l as [|q l IH]; simpl; [constructor|].
  rewrite <- insert_by_number_perm. now constructor.
Qed.

Lemma insert_by_number_sorted (q : position) (l : list position) :
  Sorted le_number l -> Sorted le_number (insert_by_number q l).
Proof.
  induction 1 as [|h t Ht IH Hh]; simpl; [repeat constructor|].
  destruct (N.leb_spec (pos_number q) (pos_number h)) as [Hle|Hgt].
  - constructor; [now constructor | now constructor].
  - constructor; [assumption|].
    destruct t as [|h' t']; simpl in *.
    + constructor. unfold le_number. lia.
    + destruct (N.leb_spec (pos_number q) (pos_number h')).
      * constructor. unfold le_number. lia.
      * inversion Hh; subst. now constructor.
Qed.

Lemma sort_by_number_sorted (l : list position) :
  StronglySorted le_number (sort_by_number l).
Proof.
  apply Sorted_StronglySorted.
  - intros a b c; unfold le_number; lia.
  - induction l as [|q l IH]; simpl; [constructor|].
    now apply insert_by_number_sorted.
Qed.

(** Inserting a marker passes the markers with a smaller number only:
    among the markers of one number the order is unchanged. *)
Lemma insert_by_number_filter (n : N) (q : position) (l : list position) :
  filter (has_number n) (insert_by_number q l) = filter (has_number n) (q :: l).
Proof.
  induction l as [|h t IH]; [reflexivity|]. cbn [insert_by_number].
  destruct (N.leb_spec (pos_number q) (pos_number h)) as [Hle|Hgt]; [reflexivity|].
  cbn [filter] in *. rewrite IH. unfold has_number.
  destruct (N.eqb_spec (pos_number q) n), (N.eqb_spec (pos_number h) n);
    try reflexivity. lia.
Qed.

Lemma sort_by_number_stable (n : N) (l : list position) :
  filter (has_number n) (sort_by_number l) = filter (has_number n) l.
Proof.
  induction l as [|q l IH]; [reflexivity|].
  cbn [sort_by_number fold_right]. rewrite insert_by_number_filter.
  cbn [filter]. fold (sort_by_number l). now rewrite IH.
Qed.

End Ordering.

(** ** The record loop *)

Section Records.

Variable all_text : text.
Variable current_year : option text.

(** A record and the marker it was built from. *)
Lemma make_questions_In (q : question) (qs : list position) :
  In q (make_questions all_text current_year qs) ->
  exists before q_pos rest,
    qs = before ++ q_pos :: rest
    /\ make_question all_text current_year q_pos rest = Some q.
Proof.
  induction qs as [|p qs IH]; simpl; [tauto|].
  destruct (make_question all_text current_year p qs) as [q'|] eqn:E.
  - intros [<-|Hin].
    + exists [], p, qs. auto.
    + destruct (IH Hin) as (b & p' & r & -> & H). exists (p :: b), p', r. auto.
  - intros Hin.
    destruct (IH Hin) as (b & p' & r & -> & H). exists (p :: b), p', r. auto.
Qed.

Lemma make_question_Some (q_pos : position) (rest : list position) (q : question) :
  make_question all_text current_year q_pos rest = Some q ->
  20 < length (clean_content all_text q_pos rest)
  /\ q = Question (pos_number q_pos)
                  (shorten (preview_of (clean_content all_text q_pos rest)))
                  (clean_content all_text q_pos rest)
                  (find_marks (clean_content all_text q_pos rest))
                  None (or_unknown current_year) (pos_page q_pos).
Proof.
  unfold make_question.
  destruct (Nat.ltb_spec 20 (length (clean_content all_text q_pos rest)));
    [|discriminate].
  intros [= <-]. auto.
Qed.

(** The records are the candidates that pass the length test, one record
    each, in the order of the marker list. *)
Lemma make_questions_candidates (qs : list position) :
  map (fun q => (question_number q, complete_content q, page q))
      (make_questions all_text current_year qs)
  = map (fun c => (pos_number (fst c), snd c, pos_page (fst c)))
        (filter long_enough (candidate_spans all_text qs)).
Proof.
  induction qs as [|p qs IH]; [reflexivity|].
  cbn [make_questions candidate_spans filter].
  unfold make_question, long_enough at 1. cbn [snd].
  destruct (20 <? length (clean_content all_text p qs)); cbn [map fst snd];
    now rewrite IH.
Qed.

Lemma filter_subseq (A : Type) (f : A -> bool) (l : list A) :
  subseq (filter f l) l.
Proof.
  induction l as [|x l IH]; simpl; [constructor|].
  destruct (f x); now constructor.
Qed.

Lemma map_subseq (A B : Type) (f : A -> B) (s l : list A) :
  subseq s l -> subseq (map f s) (map f l).
Proof. induction 1; simpl; now constructor. Qed.

Lemma subseq_Forall (A : Type) (P : A -> Prop) (s l : list A) :
  subseq s l -> Forall P l -> Forall P s.
Proof.
  intros Hs; induction Hs; intros HP; [constructor| |];
    inversion HP; subst; auto.
Qed.

Lemma subseq_sorted (A : Type) (R : A -> A -> Prop) (s l : list A) :
  subseq s l -> StronglySorted R l -> StronglySorted R s.
Proof.
  intros Hs; induction Hs; intros HR; [constructor| |];
    inversion HR; subst; auto.
  constructor; eauto using subseq_Forall.
Qed.

Lemma subseq_length (A : Type) (s l : list A) :
  subseq s l -> length s <= length l.
Proof. induction 1; simpl; lia. Qed.

Lemma candidate_spans_fst (qs : list position) :
  map fst (candidate_spans all_text qs) = qs.
Proof. induction qs; simpl; congruence. Qed.

Lemma question_numbers_subseq (qs : list position) :
  subseq (map question_number (make_questions all_text current_year qs))
         (map pos_number qs).
Proof.
  replace (map question_number (make_questions all_text current_year qs))
    with (map (fun t => fst (fst t))
            (map (fun q => (question_number q, complete_content q, page q))
               (make_questions all_text current_year qs)))
    by (rewrite map_map; reflexivity).
  rewrite make_questions_candidates, map_map. cbn [fst].
  rewrite <- (candidate_spans_fst qs) at 2. rewrite map_map.
  apply map_subseq with (f := fun c => pos_number (fst c)), filter_subseq.
Qed.

End Records.

(** ** The marker scan *)

Section Scan.

Variable ci : bool.
Variable r : regex.

(** [finditer] reports its matches by increasing start offset. *)
Lemma finditer_from_starts (s : text) :
  forall skip pos,
    StronglySorted lt (map m_start (finditer_from ci r skip pos s))
    /\ Forall (fun k => pos <= k) (map m_start (finditer_from ci r skip pos s)).
Proof.
  induction s as [|c s IH]; intros skip pos.
  - destruct skip; cbn [finditer_from]; [|split; constructor].
    destruct (match_at ci r []) as [[rest cs]|]; cbn [map m_start];
      repeat constructor.
  - destruct skip as [|n]; cbn [finditer_from].
    + destruct (match_at ci r (c :: s)) as [[rest cs]|]; cbn [map m_start].
      * destruct (IH (length (c :: s) - length rest - 1) (S pos)) as [Hs Hf].
        assert (Hlt : Forall (fun k => pos < k)
                        (map m_start
                           (finditer_from ci r (length (c :: s) - length rest - 1)
                              (S pos) s))).
        { eapply Forall_impl; [|exact Hf]. intros k Hk; simpl in Hk; lia. }
        split; constructor; auto.
        eapply Forall_impl; [|exact Hlt]. intros k Hk; simpl in Hk; lia.
      * destruct (IH 0 (S pos)) as [Hs Hf]. split; [assumption|].
        eapply Forall_impl; [|exact Hf]. intros k Hk; simpl in Hk; lia.
    + destruct (IH n (S pos)) as [Hs Hf]. split; [assumption|].
      eapply Forall_impl; [|exact Hf]. intros k Hk; simpl in Hk; lia.
Qed.

Lemma finditer_starts (s : text) :
  StronglySorted lt (map m_start (finditer ci r s)).
Proof. apply finditer_from_starts. Qed.

End Scan.

Lemma scanned_markers_starts (all_text : text) (page_breaks : list (nat * nat)) :
  StronglySorted lt (map pos_start (scanned_markers all_text page_breaks)).
Proof.
  unfold scanned_markers. rewrite map_map. cbn [pos_start].
  apply finditer_starts.
Qed.

(** No text, no marker. *)
Lemma scanned_markers_nil (page_breaks : list (nat * nat)) :
  scanned_markers [] page_breaks = [].
Proof. reflexivity. Qed.

Lemma scanned_markers_page (pdf : document) (p : position) :
  In p (scanned_markers (all_text_of pdf) (page_breaks_of pdf)) ->
  owning_page (page_breaks_of pdf) (pos_start p) (pos_page p).
Proof.
  intros Hin.
  destruct (document_breaks_ok pdf) as (Hs & _ & H0).
  unfold scanned_markers in Hin. apply in_map_iff in Hin.
  destruct Hin as (mo & <- & Hmo). cbn [pos_start pos_page].
  destruct (find_page_greatest (m_start mo) (page_breaks_of pdf) 1 Hs)
    as [[Hall _]|Hown]; [|exact Hown].
  exfalso. destruct H0 as [[Ht _]|(v & rest & Hpb)].
  - rewrite Ht in Hmo. exact Hmo.
  - rewrite Hpb in Hall. inversion Hall as [|? ? Hk _]; subst.
    simpl in Hk. lia.
Qed.

Section LexOrder.

Lemma number_then_start_le (l : list position) (a : position) :
  Forall (number_then_start a) l -> Forall (le_number a) l.
Proof.
  apply Forall_impl. unfold number_then_start, le_number. intros b [H|[H _]]; lia.
Qed.

Lemma insert_by_number_lex (q : position) (l : list position) :
  StronglySorted number_then_start l ->
  Forall (fun h => pos_start q < pos_start h) l ->
  StronglySorted number_then_start (insert_by_number q l).
Proof.
  induction 1 as [|h t Ht IH Hh]; intros Hq; cbn [insert_by_number].
  - repeat constructor.
  - inversion Hq as [|? ? Hqh Hqt]; subst.
    destruct (N.leb_spec (pos_number q) (pos_number h)) as [Hle|Hgt].
    + constructor; [now constructor|].
      constructor.
      * unfold number_then_start. lia.
      * apply number_then_start_le in Hh.
        rewrite Forall_forall in Hh, Hqt |- *. intros x Hx.
        specialize (Hh x Hx). specialize (Hqt x Hx).
        unfold number_then_start, le_number in *. lia.
    + constructor; [auto|].
      eapply Permutation_Forall; [apply insert_by_number_perm|].
      constructor; [|assumption]. unfold number_then_start. lia.
Qed.

(** A stable sort of markers listed by increasing offset orders them by
    number first and by offset among equal numbers. *)
Lemma sort_by_number_lex (l : list position) :
  StronglySorted lt (map pos_start l) ->
  StronglySorted number_then_start (sort_by_number l).
Proof.
  induction l as [|q l IH]; cbn [sort_by_number fold_right map]; intros H.
  - constructor.
  - inversion H as [|? ? Hs Hq]; subst.
    apply insert_by_number_lex; [exact (IH Hs)|].
    eapply Permutation_Forall; [apply sort_by_number_perm|].
    rewrite Forall_map in Hq. exact Hq.
Qed.

Lemma sorted_map (A B : Type) (f : A -> B) (R : B -> B -> Prop) (l : list A) :
  StronglySorted (fun a b => R (f a) (f b)) l -> StronglySorted R (map f l).
Proof.
  induction 1 as [|a l Hs IH Ha]; simpl; constructor; auto.
  now rewrite Forall_map.
Qed.

End LexOrder.

Lemma no_long_candidate (l : list (position * text)) :
  Forall (fun c => length (snd c) <= 20) l -> filter long_enough l = [].
Proof.
  induction 1 as [|c l Hc _ IH]; [reflexivity|]. cbn [filter].
  destruct (long_enough c) eqn:E; [|exact IH].
  unfold long_enough in E. apply Nat.ltb_lt in E. unfold text in *. lia.
Qed.

(** * The claims *)

(** C4.  The offsets of [page_breaks] increase strictly; the page of every
    detected marker is the page recorded at the greatest offset that is not
    after the start of the marker; and every record carries the page of the
    marker it was built from. *)
Theorem page_is_owner_of_marker_start (pdf : document) :
  StronglySorted lt (map fst (page_breaks_of pdf))
  /\ (forall question_positions q_pos,
         question_positions_of pdf = Ok question_positions ->
         In q_pos question_positions ->
         owning_page (page_breaks_of pdf) (pos_start q_pos) (pos_page q_pos))
  /\ (forall questions q,
         extract_questions_with_year pdf = Ok questions ->
         In q questions ->
         exists question_positions before q_pos rest,
           question_positions_of pdf = Ok question_positions
           /\ question_positions = before ++ q_pos :: rest
           /\ make_question (all_text_of pdf) (current_year_of pdf) q_pos rest = Some q
           /\ owning_page (page_breaks_of pdf) (pos_start q_pos) (page q)).
Proof.
  assert (Hmark : forall q_pos,
             In q_pos (sorted_markers_of pdf) ->
             owning_page (page_breaks_of pdf) (pos_start q_pos) (pos_page q_pos)).
  { intros q_pos Hin. apply scanned_markers_page.
    eapply Permutation_in; [|exact Hin].
    symmetry. apply sort_by_number_perm. }
  split; [apply document_breaks_ok|]. split.
  - intros question_positions q_pos Hok Hin.
    apply question_positions_returns in Hok. destruct Hok as [_ ->].
    now apply Hmark.
  - intros questions q Hok Hin.
    apply extract_returns in Hok. destruct Hok as [Hconv ->].
    apply make_questions_In in Hin.
    destruct Hin as (before & q_pos & rest & Hsplit & Hmk).
    exists (sorted_markers_of pdf), before, q_pos, rest.
    split; [rewrite question_positions_checked, Hconv; reflexivity|].
    repeat split; try assumption.
    destruct (make_question_Some _ _ _ _ Hmk) as [_ ->]. cbn [page].
    apply Hmark. rewrite Hsplit. apply in_or_app. right. now left.
Qed.

Lemma page_is_owner_of_marker_start_witness :
  owning_page (page_breaks_of example_pdf) 55 2.
Proof.
  destruct (page_is_owner_of_marker_start example_pdf) as (_ & Hmark & _).
  apply (Hmark [ Position 1 16 (MatchObj 16 21 [(1, chars "1")]) 1;
                 Position 2 55 (MatchObj 55 60 [(1, chars "2")]) 2 ]
               (Position 2 55 (MatchObj 55 60 [(1, chars "2")]) 2)).
  - vm_compute. reflexivity.
  - right. left. reflexivity.
Defined.

(** The records of every document, whatever the physical order of its
    markers, are sorted ascending by number, and their numbers are a
    subsequence of the numbers of the sorted marker list: a marker gives at
    most one record. *)
Lemma records_sorted (pdf : document) :
  StronglySorted N.le (map question_number (records_of pdf))
  /\ subseq (map question_number (records_of pdf))
            (map pos_number (sorted_markers_of pdf))
  /\ length (records_of pdf) <= length (sorted_markers_of pdf).
Proof.
  pose proof (question_numbers_subseq (all_text_of pdf) (current_year_of pdf)
                (sorted_markers_of pdf)) as Hsub.
  fold (records_of pdf) in Hsub.
  split; [|split; [exact Hsub|]].
  - eapply subseq_sorted; [exact Hsub|].
    apply sorted_map with (f := pos_number) (R := N.le).
    apply sort_by_number_sorted.
  - apply subseq_length in Hsub. now rewrite !length_map in Hsub.
Qed.

(** C2.  With question 2 printed before question 1 the text has two
    markers, sorted into the order 1, 2, and the program returns one record:
    the span of marker 1 ends where marker 2 starts, which is before marker
    1, so it is empty and gives no record, and marker 2, now the last one,
    takes the rest of the text, the whole of question 1 included. *)
Theorem out_of_order_loses_question_1 :
  question_positions_of out_of_order_pdf
  = Ok [ Position 1 57 (MatchObj 57 62 [(1, chars "1")]) 1;
         Position 2 16 (MatchObj 16 21 [(1, chars "2")]) 1 ]
  /\ extract_questions_with_year out_of_order_pdf
     = Ok [ Question 2
              (chars "Explain the ruin theory in detail.  What is the capital asset pricing model?")
              (chars "Q. 2) Explain the ruin theory in detail. Q. 1) What is the capital asset pricing model?")
              (chars "Unknown") None (chars "Unknown") 1 ].
Proof. vm_compute. split; reflexivity. Qed.

(** C5, as the code has it.  The sort keeps every scanned marker (the
    sorted list is a permutation of the scan), orders by number, and among
    the markers of one number keeps the left-to-right scan order; the
    markers whose cleaned span is longer than 20 characters give one record
    each, duplicates of a number included. *)
Theorem duplicate_numbers_kept_in_scan_order (pdf : document)
        (scanned : list position) :
  scan_questions (all_text_of pdf) (page_breaks_of pdf) = Ok scanned ->
  let sorted := sort_by_number scanned in
  question_positions_of pdf = Ok sorted
  /\ Permutation scanned sorted
  /\ StronglySorted lt (map pos_start scanned)
  /\ StronglySorted le_number sorted
  /\ (forall n, filter (has_number n) sorted = filter (has_number n) scanned)
  /\ StronglySorted number_then_start sorted
  /\ exists questions,
      extract_questions_with_year pdf = Ok questions
      /\ map question_number questions
         = map (fun c => pos_number (fst c))
               (filter long_enough (candidate_spans (all_text_of pdf) sorted)).
Proof.
  intros Hok. cbv zeta.
  apply scan_questions_returns in Hok. destruct Hok as [Hconv ->].
  fold (sorted_markers_of pdf).
  split; [rewrite question_positions_checked, Hconv; reflexivity|].
  unfold sorted_markers_of. repeat split.
  - apply sort_by_number_perm.
  - apply scanned_markers_starts.
  - apply sort_by_number_sorted.
  - intros n. apply sort_by_number_stable.
  - apply sort_by_number_lex, scanned_markers_starts.
  - exists (records_of pdf).
    split; [rewrite extract_checked, Hconv; reflexivity|].
    pose proof (make_questions_candidates (all_text_of pdf) (current_year_of pdf)
                  (sorted_markers_of pdf)) as H.
    apply (f_equal (map (fun t => fst (fst t)))) in H.
    rewrite !map_map in H. exact H.
Qed.

Lemma duplicate_numbers_kept_in_scan_order_witness :
  exists questions,
    extract_questions_with_year twice_asked_pdf = Ok questions
    /\ map question_number questions = [5; 5]%N.
Proof.
  destruct (@duplicate_numbers_kept_in_scan_order twice_asked_pdf
              [ Position 5 16 (MatchObj 16 21 [(1, chars "5")]) 1;
                Position 5 69 (MatchObj 69 74 [(1, chars "5")]) 1 ])
    as (_ & _ & _ & _ & _ & _ & questions & Hok & Hn).
  - vm_compute. reflexivity.
  - exists questions. split; [exact Hok|]. rewrite Hn. vm_compute. reflexivity.
Defined.

(** C5, as stated, fails: two markers numbered 5, one record. *)
Lemma repeated_marker_gives_one_record :
  question_positions_of repeated_marker_pdf
  = Ok [ Position 5 16 (MatchObj 16 21 [(1, chars "5")]) 1;
         Position 5 22 (MatchObj 22 27 [(1, chars "5")]) 1 ]
  /\ exists questions,
      extract_questions_with_year repeated_marker_pdf = Ok questions
      /\ map question_number questions = [5%N]
      /\ length questions <> 2.
Proof.
  split; [vm_compute; reflexivity|].
  eexists. split; [vm_compute; reflexivity|].
  split; [reflexivity | discriminate].
Qed.

(** C8, as the code has it.  When the number of every marker has at most
    4300 digits the program raises nothing: its records are the candidate
    spans longer than 20 characters and nothing else, so that a document all
    of whose candidates are that short, and a document without markers,
    gives the empty list.  When the number of a marker has more digits the
    program raises [ValueError], whatever the spans are. *)
Theorem short_spans_are_dropped (pdf : document) :
  (numbers_convert (all_text_of pdf) = true ->
   exists question_positions questions,
     question_positions_of pdf = Ok question_positions
     /\ extract_questions_with_year pdf = Ok questions
     /\ let candidates := candidate_spans (all_text_of pdf) question_positions in
        map (fun q => (question_number q, complete_content q, page q)) questions
        = map (fun c => (pos_number (fst c), snd c, pos_page (fst c)))
              (filter long_enough candidates)
        /\ Forall (fun q => 20 < length (complete_content q)) questions
        /\ (Forall (fun c => length (snd c) <= 20) candidates -> questions = [])
        /\ (question_positions = [] -> questions = []))
  /\ (finditer false question_pattern (all_text_of pdf) = [] ->
      extract_questions_with_year pdf = Ok [])
  /\ (numbers_convert (all_text_of pdf) = false ->
      extract_questions_with_year pdf = Raise ValueError).
Proof.
  split; [|split].
  - intros Hconv. exists (sorted_markers_of pdf), (records_of pdf).
    split; [rewrite question_positions_checked, Hconv; reflexivity|].
    split; [rewrite extract_checked, Hconv; reflexivity|].
    cbv zeta.
    pose proof (make_questions_candidates (all_text_of pdf) (current_year_of pdf)
                  (sorted_markers_of pdf)) as Hc.
    fold (records_of pdf) in Hc.
    split; [exact Hc|]. split; [|split].
    + apply Forall_forall. intros q Hin. apply make_questions_In in Hin.
      destruct Hin as (b & p & r & _ & Hmk).
      destruct (make_question_Some _ _ _ _ Hmk) as [Hlen ->]. exact Hlen.
    + intros Hshort.
      rewrite (no_long_candidate Hshort) in Hc.
      destruct (records_of pdf); [reflexivity | discriminate].
    + unfold records_of. now intros ->.
  - intros Hnone. rewrite extract_checked.
    unfold numbers_convert, records_of, sorted_markers_of, scanned_markers.
    rewrite Hnone. reflexivity.
  - intros Hconv. rewrite extract_checked, Hconv. reflexivity.
Qed.

Lemma short_spans_are_dropped_witness :
  extract_questions_with_year short_pdf = Ok []
  /\ extract_questions_with_year [] = Ok [].
Proof.
  split.
  - destruct (short_spans_are_dropped short_pdf) as (Hconv & _ & _).
    destruct Hconv as (question_positions & questions & Hp & Hq & _ & _ & Hshort & _);
      [vm_compute; reflexivity|].
    rewrite Hq. f_equal. apply Hshort.
    assert (E : question_positions
                = [Position 1 16 (MatchObj 16 21 [(1, chars "1")]) 1]).
    { assert (Hp' : question_positions_of short_pdf
                    = Ok [Position 1 16 (MatchObj 16 21 [(1, chars "1")]) 1])
        by (vm_compute; reflexivity).
      rewrite Hp in Hp'. now injection Hp'. }
    rewrite E. vm_compute. repeat constructor.
  - destruct (short_spans_are_dropped []) as (_ & Hnone & _).
    apply Hnone. reflexivity.
Defined.

(** C8, as stated, fails: the spans of both markers are short (the first
    in the sorted order is empty, the second stops at the run of stars), and
    the program raises, because the number of a marker has 4301 digits. *)
Lemma many_digits_raise :
  map (fun c => snd c)
      (candidate_spans (all_text_of many_digits_pdf)
                       (sorted_markers_of many_digits_pdf))
  = [ []; chars "Q. 2)" ]
  /\ extract_questions_with_year many_digits_pdf = Raise ValueError
  /\ extract_questions_with_year many_digits_pdf <> Ok [].
Proof.
  assert (E : extract_questions_with_year many_digits_pdf = Raise ValueError)
    by (vm_compute; reflexivity).
  split; [vm_compute; reflexivity|]. split; [exact E|].
  rewrite E. discriminate.
Qed.

(** ** The preview *)

Lemma first_meaningful_find (lines : list text) :
  first_meaningful lines
  = match find (fun l => 10 <? length l) (map clean_line lines) with
    | Some l => l
    | None => []
    end.
Proof.
  induction lines as [|line rest IH]; [reflexivity|].
  cbn [first_meaningful map find]. rewrite IH.
  destruct (clean_line line) as [|c cl]; [reflexivity|].
  now destruct (10 <? length (c :: cl)).
Qed.

Lemma preview_of_chosen_line (content : text) :
  preview_of content = chosen_line content.
Proof.
  unfold preview_of, chosen_line. cbv zeta. rewrite first_meaningful_find.
  destruct (find (fun l => 10 <? length l) (map clean_line (Py.split nl content)))
    as [l|] eqn:E.
  - apply find_some in E. destruct E as [_ E]. apply Nat.ltb_lt in E.
    destruct l; [simpl in E; lia | reflexivity].
  - destruct (Py.split nl content); reflexivity.
Qed.

Lemma shorten_length (preview_text : text) :
  length (shorten preview_text) <= 153
  /\ (150 < length preview_text -> length (shorten preview_text) = 153).
Proof.
  unfold shorten. destruct (Nat.ltb_spec 150 (length preview_text)) as [H|H].
  - rewrite length_app, firstn_length_le by lia. simpl. lia.
  - lia.
Qed.

(** C7, as the code has it.  The preview of a record is taken from the
    first line of its content whose form, with every [Q. <number>)] fragment
    removed and the white space at both ends stripped, is longer than 10
    characters (the preview is that form), or from the first line as it is
    when no line qualifies; a text of at most 150 characters is the preview
    itself, a longer one is cut to its first 150 characters followed by
    three dots, so the preview has at most 153 characters. *)
Theorem preview_is_first_meaningful_line (pdf : document)
        (questions : list question) (q : question) :
  extract_questions_with_year pdf = Ok questions ->
  In q questions ->
  let chosen := chosen_line (complete_content q) in
  question_preview q
  = (if length chosen <=? 150 then chosen else firstn 150 chosen ++ chars "...")
  /\ length (question_preview q) <= 153
  /\ (150 < length chosen -> length (question_preview q) = 153).
Proof.
  intros Hok Hin. apply extract_returns in Hok. destruct Hok as [_ ->].
  apply make_questions_In in Hin.
  destruct Hin as (b & p & r & _ & Hmk).
  destruct (make_question_Some _ _ _ _ Hmk) as [_ ->].
  cbn [question_preview complete_content]. cbv zeta.
  rewrite preview_of_chosen_line.
  split; [|apply shorten_length].
  unfold shorten. rewrite Nat.ltb_antisym.
  now destruct (length (chosen_line (clean_content (all_text_of pdf) p r)) <=? 150).
Qed.

Lemma preview_is_first_meaningful_line_witness :
  question_preview
    (Question 1 (chars "Define the capital asset") 
       (chars "Q. 1) Define the capital asset" ++ [nl]
          ++ chars "pricing model and its assumptions.")
       (chars "Unknown") None (chars "Unknown") 1)
  = chars "Define the capital asset".
Proof.
  refine (proj1 (@preview_is_first_meaningful_line interior_pdf
                   [ Question 1 (chars "Define the capital asset")
                       (chars "Q. 1) Define the capital asset" ++ [nl]
                          ++ chars "pricing model and its assumptions.")
                       (chars "Unknown") None (chars "Unknown") 1 ]
                   _ _ _)).
  - vm_compute. reflexivity.
  - left. reflexivity.
Defined.

(** C7, as stated, fails: a first line of 160 characters after the
    marker gives a preview of 153 characters. *)
Lemma long_preview_has_153_characters :
  exists questions,
    extract_questions_with_year long_line_pdf = Ok questions
    /\ ~ Forall (fun q => length (question_preview q) <= 150) questions.
Proof.
  eexists. split; [vm_compute; reflexivity|].
  intros H. inversion H as [|q l Hq _ E]; subst.
  vm_compute in Hq. lia.
Qed.

(** ** The chapter assigner *)

Lemma assign_one_find (q : question) (items : list (text * list text)) :
  assign_one q (Py.lower (question_preview q)) items
  = match find (chapter_matches (question_preview q)) items with
    | Some item => set_chapter q (fst item)
    | None => q
    end.
Proof.
  induction items as [|[ch keywords] items IH]; [reflexivity|].
  cbn [assign_one find]. unfold chapter_matches at 1, any_keyword. cbn [snd fst].
  destruct (existsb _ keywords); [reflexivity | exact IH].
Qed.

(** C9.  The assigner gives every record, in place, the first chapter in
    the order of the mapping one of whose keywords occurs in the preview,
    letter case apart; a record that no chapter matches is returned as it
    was, its chapter included; a matched record changes in its chapter
    only. *)
Theorem bulk_assign_first_match (questions : list question)
        (keyword_mapping : list (text * list text)) (i : nat) (q : question) :
  nth_error questions i = Some q ->
  length (bulk_assign_by_keywords questions keyword_mapping) = length questions
  /\ exists q',
      nth_error (bulk_assign_by_keywords questions keyword_mapping) i = Some q'
      /\ q' = match find (chapter_matches (question_preview q)) keyword_mapping with
              | Some item => set_chapter q (fst item)
              | None => q
              end
      /\ chapter q' = match find (chapter_matches (question_preview q)) keyword_mapping with
                      | Some item => Some (fst item)
                      | None => chapter q
                      end
      /\ (question_number q', question_preview q', complete_content q',
          marks q', year q', page q')
         = (question_number q, question_preview q, complete_content q,
            marks q, year q, page q).
Proof.
  intros Hq. unfold bulk_assign_by_keywords.
  split; [apply length_map|].
  eexists. split; [rewrite nth_error_map, Hq; reflexivity|].
  rewrite assign_one_find.
  destruct (find (chapter_matches (question_preview q)) keyword_mapping);
    repeat split.
Qed.

Lemma bulk_assign_first_match_witness :
  (exists q',
      nth_error (bulk_assign_by_keywords [tagged_question] sample_mapping) 0 = Some q'
      /\ chapter q' = Some (chars "Chapter 2"))
  /\ (exists q',
         nth_error (bulk_assign_by_keywords [tagged_question]
                      [(chars "Chapter 1", [chars "capm"])]) 0 = Some q'
         /\ q' = tagged_question).
Proof.
  split.
  - destruct (bulk_assign_first_match [tagged_question] sample_mapping 0
                (q := tagged_question) eq_refl) as (_ & q' & Hnth & _ & Hch & _).
    exists q'. split; [exact Hnth | exact Hch].
  - destruct (bulk_assign_first_match [tagged_question]
                [(chars "Chapter 1", [chars "capm"])] 0
                (q := tagged_question) eq_refl) as (_ & q' & Hnth & Hq & _).
    exists q'. split; [exact Hnth | exact Hq].
Defined.

(** ** The two-page example and the page boundary *)

(** C1.  On the two-page example the program returns two records, numbered
    1 and 2, on pages 1 and 2, and the content of the second stops before
    the run of stars; but the marks of the first are "Unknown", not "4": its
    content ends with the sentinel line of page 2, which the clean-up leaves
    in place, so [[4]] is not at the end of the content. *)
Theorem example_first_marks_unknown :
  extract_questions_with_year example_pdf
  = Ok [ Question 1 (chars "What is CAPM? [4]")
           (chars "Q. 1) What is CAPM? [4]" ++ [nl] ++ chars "--- PAGE 2 ---")
           (chars "Unknown") None (chars "Unknown") 1;
         Question 2 (chars "Explain ruin theory.")
           (chars "Q. 2) Explain ruin theory.")
           (chars "Unknown") None (chars "Unknown") 2 ].
Proof. vm_compute. reflexivity. Qed.

(** C6.  A question that ends where the next one begins at the top of a
    page keeps the sentinel line of that page at the end of its content:
    the first [strip] removes the line feed that closes the sentinel, and
    the substitution, which wants a line feed on both sides, no longer
    finds it. *)
Theorem sentinel_left_at_page_boundary :
  exists questions,
    extract_questions_with_year boundary_pdf = Ok questions
    /\ map complete_content questions
       = [ chars "Q. 1) Define the capital asset pricing model." ++ [nl]
             ++ chars "--- PAGE 2 ---";
           chars "Q. 2) Explain ruin theory in detail." ]
    /\ Exists (fun q => Py.contains (chars "--- PAGE 2 ---") (complete_content q) = true)
              questions.
Proof.
  eexists. split; [vm_compute; reflexivity|].
  split; [reflexivity | left; reflexivity].
Qed.

(** A sentinel in the middle of a question is removed. *)
Example sentinel_removed_inside_question :
  exists questions,
    extract_questions_with_year interior_pdf = Ok questions
    /\ map complete_content questions
       = [ chars "Q. 1) Define the capital asset" ++ [nl]
             ++ chars "pricing model and its assumptions." ].
Proof. eexists. split; [vm_compute; reflexivity | reflexivity]. Qed.

(** ** The matcher *)

Section MatcherFacts.

Variable R : Type.

(** A successful match hands a rest of the text to its continuation. *)
Lemma rep_continues (ok : ascii -> bool) (k : text -> option R) (x : R) (s : text) :
  forall lo hi,
    rep ok lo hi k s = Some x ->
    exists pre s', s = pre ++ s' /\ k s' = Some x.
Proof.
  induction s as [|c s IH]; intros lo hi H.
  - exists [], []. split; [reflexivity|].
    destruct hi as [[|h]|], lo; simpl in H; congruence.
  - assert (Hstop : match lo with 0 => k (c :: s) | S _ => None end = Some x ->
                    exists pre s', c :: s = pre ++ s' /\ k s' = Some x).
    { intros Hs. exists [], (c :: s). split; [reflexivity|].
      destruct lo; congruence. }
    cbn [rep] in H.
    destruct hi as [[|h]|]; [auto| |];
      (destruct (ok c); [|auto];
       match type of H with
       | match ?e with _ => _ end = _ => destruct e as [y|] eqn:E
       end; [|auto];
       injection H as ->; apply IH in E; destruct E as (pre & s' & -> & E);
       exists (c :: pre), s'; auto).
Qed.

Lemma rep_zero (ok : ascii -> bool) (k : text -> option R) (s : text) :
  rep ok 0 (Some 0) k s = k s.
Proof. destruct s; reflexivity. Qed.

Lemma m_continues (ci : bool) (r : regex) :
  forall (k : text -> caps -> option R) s cs x,
    m ci r k s cs = Some x ->
    exists pre s' cs', s = pre ++ s' /\ k s' cs' = Some x.
Proof.
  induction r as [|a|a lo hi|r1 IH1 r2 IH2|r1 IH1 r2 IH2|n r IH|];
    intros k s cs x H; cbn [m] in H.
  - exists [], s, cs. auto.
  - destruct s as [|c s]; [discriminate|].
    destruct (accepts ci a c); [|discriminate].
    exists [c], s, cs. auto.
  - apply rep_continues in H. destruct H as (pre & s' & -> & H).
    exists pre, s', cs. auto.
  - apply IH1 in H. destruct H as (pre1 & s1 & cs1 & -> & H).
    apply IH2 in H. destruct H as (pre2 & s2 & cs2 & -> & H).
    exists (pre1 ++ pre2), s2, cs2. rewrite app_assoc. auto.
  - destruct (m ci r1 k s cs) as [y|] eqn:E.
    + injection H as ->. eauto.
    + eauto.
  - apply IH in H. destruct H as (pre & s' & cs' & -> & H). eauto.
  - exists [], s, cs. split; [reflexivity|].
    destruct s as [|c [|c' s]]; [assumption| |discriminate].
    destruct (Ascii.eqb c nl); [assumption | discriminate].
Qed.

Lemma accepts_2 (ci : bool) (c : ascii) :
  accepts ci (Chr "2") c = true -> c = "2"%char.
Proof.
  destruct ci; destruct c as [[] [] [] [] [] [] [] []]; vm_compute;
    intros H; (reflexivity || discriminate H).
Qed.

Lemma accepts_0 (ci : bool) (c : ascii) :
  accepts ci (Chr "0") c = true -> c = "0"%char.
Proof.
  destruct ci; destruct c as [[] [] [] [] [] [] [] []]; vm_compute;
    intros H; (reflexivity || discriminate H).
Qed.

(** The group around [20\d{2}] takes four characters, [20] and two
    digits, and records them. *)
Lemma year_digits_match (ci : bool) (n : nat) (k : text -> caps -> option R)
      (s : text) (cs : caps) (x : R) :
  m ci (Grp n year_digits) k s cs = Some x ->
  exists d1 d2 s',
    s = ["2"; "0"; d1; d2]%char ++ s'
    /\ Py.isdecimal d1 = true /\ Py.isdecimal d2 = true
    /\ k s' ((n, ["2"; "0"; d1; d2]%char) :: cs) = Some x.
Proof.
  change year_digits
    with (Seq (Seq (One (Chr "2")) (One (Chr "0"))) (Rep Digit 2 (Some 2))).
  cbn [m]. intros H.
  destruct s as [|c1 s]; [discriminate|].
  destruct (accepts ci (Chr "2") c1) eqn:E1; [|discriminate].
  apply accepts_2 in E1. subst c1.
  destruct s as [|c2 s]; [discriminate|].
  destruct (accepts ci (Chr "0") c2) eqn:E2; [|discriminate].
  apply accepts_0 in E2. subst c2.
  change (accepts ci Digit) with Py.isdecimal in H.
  destruct s as [|d1 s]; [discriminate|]. cbn [rep pred option_map] in H.
  destruct (Py.isdecimal d1) eqn:D1; [|discriminate].
  destruct s as [|d2 s]; [discriminate|]. cbn [rep pred option_map] in H.
  destruct (Py.isdecimal d2) eqn:D2; [|discriminate].
  rewrite rep_zero in H.
  replace (length ("2"%char :: "0"%char :: d1 :: d2 :: s) - length s) with 4 in H
    by (cbn [length]; lia).
  cbn [firstn] in H.
  exists d1, d2, s. repeat split; try assumption.
  destruct (k s ((n, ["2"; "0"; d1; d2]%char) :: cs)); congruence.
Qed.

Lemma ends_with_year_match (ci : bool) (n : nat) (r : regex) :
  ends_with_year n r ->
  forall (k : text -> caps -> option R) s cs x,
    m ci r k s cs = Some x ->
    exists pre d1 d2 s' cs',
      s = pre ++ ["2"; "0"; d1; d2]%char ++ s'
      /\ Py.isdecimal d1 = true /\ Py.isdecimal d2 = true
      /\ k s' ((n, ["2"; "0"; d1; d2]%char) :: cs') = Some x.
Proof.
  induction 1 as [|r1 r2 _ IH]; intros k s cs x H.
  - apply year_digits_match in H.
    destruct H as (d1 & d2 & s' & -> & D1 & D2 & H).
    exists [], d1, d2, s', cs. auto.
  - cbn [m] in H. apply m_continues in H.
    destruct H as (pre1 & s1 & cs1 & -> & H).
    apply IH in H. destruct H as (pre & d1 & d2 & s' & cs' & -> & D1 & D2 & H).
    exists (pre1 ++ pre), d1, d2, s', cs'. rewrite <- app_assoc. auto.
Qed.

End MatcherFacts.

(** ** The year patterns *)

Lemma search_from_match (ci : bool) (r : regex) (s : text) :
  forall pos mo,
    search_from ci r pos s = Some mo ->
    exists pre s1 rest,
      s = pre ++ s1 /\ match_at ci r s1 = Some (rest, m_caps mo).
Proof.
  induction s as [|c s IH]; intros pos mo H; cbn [search_from] in H.
  - destruct (match_at ci r []) as [[rest cs]|] eqn:E; [|discriminate].
    injection H as <-. exists [], [], rest. auto.
  - destruct (match_at ci r (c :: s)) as [[rest cs]|] eqn:E.
    + injection H as <-. exists [], (c :: s), rest. auto.
    + apply IH in H. destruct H as (pre & s1 & rest & -> & H).
      exists (c :: pre), s1, rest. auto.
Qed.

(** Where a pattern that ends with the year group matches, the text has
    [20dd], and the group holds it. *)
Lemma search_year (ci : bool) (n : nat) (r : regex) (s : text) (mo : match_obj) :
  ends_with_year n r ->
  search ci r s = Some mo ->
  has_year_digits s /\ exists y, group n mo = Some y /\ is_year_text y.
Proof.
  intros Hr H. apply search_from_match in H.
  destruct H as (pre & s1 & rest & -> & H).
  unfold match_at in H. eapply ends_with_year_match in H; [|exact Hr].
  destruct H as (pre' & d1 & d2 & s' & cs' & -> & D1 & D2 & H).
  injection H as _ H. split.
  - exists (pre ++ pre'), d1, d2, s'. rewrite <- app_assoc. auto.
  - exists ["2"; "0"; d1; d2]%char. split; [|exists d1, d2; auto].
    unfold group. rewrite <- H. cbn [get_cap]. now rewrite Nat.eqb_refl.
Qed.

Lemma simple_year_here (ci : bool) (d1 d2 : ascii) (post : text) :
  Py.isdecimal d1 = true -> Py.isdecimal d2 = true ->
  match_at ci (tree simple_year_pattern) ("2" :: "0" :: d1 :: d2 :: post)%char
  = Some (post, [(1, ["2"; "0"; d1; d2]%char)]).
Proof.
  intros D1 D2.
  assert (H2 : accepts ci (Chr "2") "2" = true) by (destruct ci; reflexivity).
  assert (H0 : accepts ci (Chr "0") "0" = true) by (destruct ci; reflexivity).
  unfold match_at. cbn [tree simple_year_pattern].
  change year_digits
    with (Seq (Seq (One (Chr "2")) (One (Chr "0"))) (Rep Digit 2 (Some 2))).
  cbn [m]. rewrite H2, H0.
  change (accepts ci Digit) with Py.isdecimal.
  cbn [rep pred option_map]. rewrite D1, D2.
  rewrite rep_zero.
  replace (length ("2"%char :: "0"%char :: d1 :: d2 :: post) - length post) with 4
    by (cbn [length]; lia).
  reflexivity.
Qed.

(** The simple pattern matches every text that has [20dd]. *)
Lemma simple_year_found (ci : bool) (s : text) :
  has_year_digits s -> search ci (tree simple_year_pattern) s <> None.
Proof.
  intros (pre & d1 & d2 & post & -> & D1 & D2).
  unfold search. generalize 0.
  induction pre as [|c pre IH]; intros pos.
  - cbn [app search_from].
    rewrite (@simple_year_here ci d1 d2 post D1 D2). discriminate.
  - rewrite <- app_comm_cons. cbn [search_from].
    destruct (match_at ci (tree simple_year_pattern)
                (c :: pre ++ ["2"; "0"; d1; d2]%char ++ post)) as [[rest cs]|];
      [discriminate | apply IH].
Qed.

Lemma date_ends_with_year : ends_with_year 2 (tree date_pattern).
Proof. cbv [date_pattern tree seqs]. repeat constructor. Qed.

Lemma simple_ends_with_year : ends_with_year 1 (tree simple_year_pattern).
Proof. constructor. Qed.

Lemma year_label_ends_with_year : ends_with_year 1 (tree year_label_pattern).
Proof. cbv [year_label_pattern tree seqs]. repeat constructor. Qed.

Lemma session_label_ends_with_year : ends_with_year 1 (tree session_label_pattern).
Proof. cbv [session_label_pattern tree seqs]. repeat constructor. Qed.

(** C10.  Where the pattern of ["Year: 20xx"] or of ["Session: 20xx"]
    matches the text, the simple pattern matches it too; so the loop over the
    four patterns stops at the first or the second one or finds nothing, and
    it computes what the loop over the first two patterns computes. *)
Theorem label_patterns_are_redundant (all_text : text) :
  (search true (tree year_label_pattern) all_text <> None
   \/ search true (tree session_label_pattern) all_text <> None ->
   search true (tree simple_year_pattern) all_text <> None)
  /\ find_year [date_pattern; simple_year_pattern] all_text
     = find_year year_patterns all_text.
Proof.
  assert (Himp : forall p mo,
             ends_with_year 1 (tree p) ->
             search true (tree p) all_text = Some mo ->
             search true (tree simple_year_pattern) all_text <> None).
  { intros p mo Hp Hs. apply simple_year_found.
    exact (proj1 (@search_year true 1 (tree p) all_text mo Hp Hs)). }
  split.
  - intros [H|H].
    + destruct (search true (tree year_label_pattern) all_text) as [mo|] eqn:E;
        [|congruence].
      exact (Himp _ _ year_label_ends_with_year E).
    + destruct (search true (tree session_label_pattern) all_text) as [mo|] eqn:E;
        [|congruence].
      exact (Himp _ _ session_label_ends_with_year E).
  - unfold year_patterns. cbn [find_year].
    destruct (search true (tree date_pattern) all_text); [reflexivity|].
    destruct (search true (tree simple_year_pattern) all_text) eqn:E2;
      [reflexivity|].
    destruct (search true (tree year_label_pattern) all_text) as [mo|] eqn:E3.
    { exfalso. exact (Himp _ _ year_label_ends_with_year E3 eq_refl). }
    destruct (search true (tree session_label_pattern) all_text) as [mo|] eqn:E4.
    { exfalso. exact (Himp _ _ session_label_ends_with_year E4 eq_refl). }
    reflexivity.
Qed.

Lemma label_patterns_are_redundant_witness :
  search true (tree simple_year_pattern) (chars "Session: 2021 and 2023") <> None.
Proof.
  apply (proj1 (label_patterns_are_redundant (chars "Session: 2021 and 2023"))).
  right. vm_compute. discriminate.
Defined.

(** ** Letter case *)

Lemma lower_char_classes (c : ascii) :
  Py.isdecimal (Py.lower_char c) = Py.isdecimal c
  /\ Py.isspace (Py.lower_char c) = Py.isspace c
  /\ Py.isword (Py.lower_char c) = Py.isword c
  /\ Ascii.eqb (Py.lower_char c) nl = Ascii.eqb c nl
  /\ (Py.isdecimal c = true -> Py.lower_char c = c).
Proof.
  destruct c as [[] [] [] [] [] [] [] []]; vm_compute; repeat split;
    intros H; discriminate H.
Qed.

Lemma accepts_same (a : cset) (c c' : ascii) :
  Py.lower_char c = Py.lower_char c' -> accepts true a c = accepts true a c'.
Proof.
  intros H.
  destruct (lower_char_classes c) as (D & S & W & _).
  destruct (lower_char_classes c') as (D' & S' & W' & _).
  destruct a; cbn [accepts]; congruence.
Qed.

Lemma same_letters_cons (c c' : ascii) (s s' : text) :
  same_letters (c :: s) (c' :: s') ->
  Py.lower_char c = Py.lower_char c' /\ same_letters s s'.
Proof. unfold same_letters, Py.lower. cbn [map]. intros [= H1 H2]. auto. Qed.

Lemma same_letters_length (s s' : text) :
  same_letters s s' -> length s = length s'.
Proof.
  unfold same_letters, Py.lower. intros H.
  apply (f_equal (@length ascii)) in H. now rewrite !length_map in H.
Qed.

Lemma same_letters_firstn (n : nat) (s s' : text) :
  same_letters s s' -> same_letters (firstn n s) (firstn n s').
Proof.
  unfold same_letters, Py.lower. intros H. now rewrite <- !firstn_map, H.
Qed.

Section CaseInsensitive.

Variable A : Type.
Variable X : A -> A -> Prop.

Lemma rep_same (ok : ascii -> bool) :
  (forall c c', Py.lower_char c = Py.lower_char c' -> ok c = ok c') ->
  forall s s',
    same_letters s s' ->
    forall lo hi (k k' : text -> option A),
      (forall t t', same_letters t t' -> opt_same X (k t) (k' t')) ->
      opt_same X (rep ok lo hi k s) (rep ok lo hi k' s').
Proof.
  intros Hok. induction s as [|c s IH]; intros [|c' s'] Hs; try discriminate Hs;
    intros lo hi k k' Hk.
  - cbn [rep]. destruct hi as [[|h]|], lo; cbn [opt_same]; auto.
  - apply same_letters_cons in Hs as Hs'. destruct Hs' as [Hc Hs'].
    assert (Hstop : opt_same X (match lo with 0 => k (c :: s) | S _ => None end)
                             (match lo with 0 => k' (c' :: s') | S _ => None end))
      by (destruct lo; cbn [opt_same]; auto).
    cbn [rep]. rewrite (Hok c c' Hc).
    destruct hi as [[|h]|]; [exact Hstop| |];
      (destruct (ok c'); [|exact Hstop];
       match goal with
       | |- opt_same X (match rep ok ?l ?h' k s with _ => _ end) _ =>
           specialize (IH s' Hs' l h' k k' Hk);
           destruct (rep ok l h' k s), (rep ok l h' k' s');
           cbn [opt_same] in IH |- *; tauto
       end).
Qed.

Lemma m_same (r : regex) :
  forall (k k' : text -> caps -> option A) s s' cs cs',
    same_letters s s' ->
    caps_same cs cs' ->
    (forall t t' ds ds',
        same_letters t t' -> caps_same ds ds' -> opt_same X (k t ds) (k' t' ds')) ->
    opt_same X (m true r k s cs) (m true r k' s' cs').
Proof.
  induction r as [|a|a lo hi|r1 IH1 r2 IH2|r1 IH1 r2 IH2|n r IH|];
    intros k k' s s' cs cs' Hs Hcs Hk; cbn [m].
  - auto.
  - destruct s as [|c s], s' as [|c' s']; try discriminate Hs; [exact I|].
    apply same_letters_cons in Hs. destruct Hs as [Hc Hs].
    rewrite (@accepts_same a c c' Hc). destruct (accepts true a c'); [auto | exact I].
  - apply rep_same; auto using accepts_same.
  - apply IH1; auto.
  - specialize (IH1 k k' s s' cs cs' Hs Hcs Hk).
    destruct (m true r1 k s cs), (m true r1 k' s' cs');
      cbn [opt_same] in IH1 |- *; try tauto.
    apply IH2; auto.
  - apply IH; auto. intros t t' ds ds' Ht Hds. apply Hk; [exact Ht|].
    constructor; [|exact Hds]. cbn [fst snd]. split; [reflexivity|].
    rewrite (same_letters_length Hs), (same_letters_length Ht).
    now apply same_letters_firstn.
  - destruct s as [|c [|c2 s]], s' as [|c' [|c2' s']]; try discriminate Hs;
      try exact I; [auto|].
    apply same_letters_cons in Hs as Hs'. destruct Hs' as [Hc _].
    destruct (lower_char_classes c) as (_ & _ & _ & N & _).
    destruct (lower_char_classes c') as (_ & _ & _ & N' & _).
    replace (Ascii.eqb c nl) with (Ascii.eqb c' nl) by congruence.
    destruct (Ascii.eqb c' nl); [auto | exact I].
Qed.

End CaseInsensitive.

Lemma match_at_same (r : regex) (s s' : text) :
  same_letters s s' ->
  opt_same (fun a b => same_letters (fst a) (fst b) /\ caps_same (snd a) (snd b))
           (match_at true r s) (match_at true r s').
Proof.
  intros Hs. unfold match_at. apply m_same; [exact Hs | constructor |].
  intros t t' ds ds' Ht Hds. cbn [opt_same fst snd]. auto.
Qed.

Lemma search_from_same (r : regex) :
  forall s s' pos,
    same_letters s s' ->
    opt_same match_same (search_from true r pos s) (search_from true r pos s').
Proof.
  induction s as [|c s IH]; intros [|c' s'] pos Hs; try discriminate Hs;
    cbn [search_from]; pose proof (match_at_same r Hs) as Hm.
  - destruct (match_at true r []) as [[t cs]|];
      cbn [opt_same fst snd] in Hm |- *; [|exact I].
    destruct Hm as [Ht Hcs]. unfold match_same. cbn [m_start m_end m_caps]. auto.
  - destruct (match_at true r (c :: s)) as [[t cs]|],
             (match_at true r (c' :: s')) as [[t' cs']|];
      cbn [opt_same fst snd] in Hm |- *; try tauto.
    + destruct Hm as [Ht Hcs]. unfold match_same. cbn [m_start m_end m_caps].
      rewrite (same_letters_length Ht), (same_letters_length Hs). auto.
    + apply IH. apply same_letters_cons in Hs. tauto.
Qed.

Lemma get_cap_same (n : nat) (cs cs' : caps) :
  caps_same cs cs' -> opt_same same_letters (get_cap n cs) (get_cap n cs').
Proof.
  induction 1 as [|[i v] [i' v'] cs cs' [Hi Hv] _ IH]; cbn [get_cap opt_same];
    [exact I|].
  cbn [fst snd] in Hi, Hv. subst i'.
  destruct (Nat.eqb i n); [exact Hv | exact IH].
Qed.

Lemma last_group_same (mo mo' : match_obj) (l : list nat) :
  caps_same (m_caps mo) (m_caps mo') ->
  opt_same same_letters (last (map (fun n => group n mo) l) None)
                        (last (map (fun n => group n mo') l) None).
Proof.
  intros H. induction l as [|n [|n' l] IH]; [exact I| |].
  - cbn [map last]. now apply get_cap_same.
  - exact IH.
Qed.

(** The year loop sees no difference between two texts that differ in
    letter case only. *)
Lemma find_year_same (patterns : list pattern) (s s' : text) :
  same_letters s s' ->
  opt_same same_letters (find_year patterns s) (find_year patterns s').
Proof.
  intros Hs. induction patterns as [|p rest IH]; cbn [find_year]; [exact I|].
  pose proof (search_from_same (tree p) 0 Hs) as Hm. fold (search true (tree p) s) in Hm.
  fold (search true (tree p) s') in Hm.
  destruct (search true (tree p) s) as [mo|], (search true (tree p) s') as [mo'|];
    cbn [opt_same] in Hm; try tauto.
  destruct Hm as (_ & _ & Hcs).
  destruct (Py.contains (chars "st|nd|rd|th") (source p)).
  - now apply get_cap_same.
  - now apply last_group_same.
Qed.

(** What the year loop returns is a text [20dd]. *)
Lemma find_year_is_year_text (s y : text) :
  find_year year_patterns s = Some y -> is_year_text y.
Proof.
  unfold year_patterns. cbn [find_year].
  change (Py.contains (chars "st|nd|rd|th") (source date_pattern)) with true.
  change (Py.contains (chars "st|nd|rd|th") (source simple_year_pattern)) with false.
  change (Py.contains (chars "st|nd|rd|th") (source year_label_pattern)) with false.
  change (Py.contains (chars "st|nd|rd|th") (source session_label_pattern)) with false.
  cbv iota.
  assert (Hg : forall n r mo,
             ends_with_year n r -> search true r s = Some mo ->
             group n mo = Some y -> is_year_text y).
  { intros n r mo Hr Hs Hy.
    destruct (@search_year true n r s mo Hr Hs) as (_ & y' & Hy' & Hyear).
    congruence. }
  destruct (search true (tree date_pattern) s) as [mo|] eqn:E1.
  { exact (Hg 2 _ mo date_ends_with_year E1). }
  destruct (search true (tree simple_year_pattern) s) as [mo|] eqn:E2.
  { exact (Hg 1 _ mo simple_ends_with_year E2). }
  destruct (search true (tree year_label_pattern) s) as [mo|] eqn:E3.
  { exact (Hg 1 _ mo year_label_ends_with_year E3). }
  destruct (search true (tree session_label_pattern) s) as [mo|] eqn:E4.
  { exact (Hg 1 _ mo session_label_ends_with_year E4). }
  discriminate.
Qed.

Lemma year_text_same (y y' : text) :
  is_year_text y -> is_year_text y' -> same_letters y y' -> y = y'.
Proof.
  intros (d1 & d2 & -> & D1 & D2) (e1 & e2 & -> & E1 & E2) H.
  unfold same_letters, Py.lower in H. cbn [map] in H.
  injection H as H1 H2.
  destruct (lower_char_classes d1) as (_ & _ & _ & _ & L1).
  destruct (lower_char_classes d2) as (_ & _ & _ & _ & L2).
  destruct (lower_char_classes e1) as (_ & _ & _ & _ & M1).
  destruct (lower_char_classes e2) as (_ & _ & _ & _ & M2).
  rewrite L1, M1 in H1 by assumption. rewrite L2, M2 in H2 by assumption.
  congruence.
Qed.

Lemma find_year_ignores_case (s s' : text) :
  same_letters s s' -> find_year year_patterns s = find_year year_patterns s'.
Proof.
  intros Hs. pose proof (find_year_same year_patterns Hs) as H.
  destruct (find_year year_patterns s) as [y|] eqn:E,
           (find_year year_patterns s') as [y'|] eqn:E';
    cbn [opt_same] in H; try tauto.
  f_equal. eauto using year_text_same, find_year_is_year_text.
Qed.

Lemma make_questions_year (all_text : text) (current_year : option text)
      (qs : list position) :
  Forall (fun q => year q = or_unknown current_year)
         (make_questions all_text current_year qs).
Proof.
  apply Forall_forall. intros q Hin. apply make_questions_In in Hin.
  destruct Hin as (b & p & r & _ & Hmk).
  destruct (make_question_Some _ _ _ _ Hmk) as [_ ->]. reflexivity.
Qed.

(** C3.  The year of a document is decided by the first of the four
    patterns, in their listed order, that matches anywhere in the whole
    concatenated text, letter case ignored: the date pattern gives its second
    group, the other patterns their last group; when none matches the year is
    "Unknown".  The value is a text [20dd] or "Unknown", it is the same on
    every record, and two texts that differ in letter case only give the same
    year. *)
Theorem year_decided_by_first_matching_pattern (pdf : document) :
  let all_text := all_text_of pdf in
  current_year_of pdf
  = match search true (tree date_pattern) all_text with
    | Some mo => group 2 mo
    | None =>
        match search true (tree simple_year_pattern) all_text with
        | Some mo => last (groups (tree simple_year_pattern) mo) None
        | None =>
            match search true (tree year_label_pattern) all_text with
            | Some mo => last (groups (tree year_label_pattern) mo) None
            | None =>
                match search true (tree session_label_pattern) all_text with
                | Some mo => last (groups (tree session_label_pattern) mo) None
                | None => None
                end
            end
        end
    end
  /\ (forall questions,
         extract_questions_with_year pdf = Ok questions ->
         Forall (fun q => year q = or_unknown (current_year_of pdf)) questions)
  /\ (current_year_of pdf = None ->
      forall questions,
        extract_questions_with_year pdf = Ok questions ->
        Forall (fun q => year q = chars "Unknown") questions)
  /\ (forall y,
         current_year_of pdf = Some y ->
         is_year_text y
         /\ forall questions,
             extract_questions_with_year pdf = Ok questions ->
             Forall (fun q => year q = y) questions)
  /\ (forall other,
         same_letters other all_text ->
         find_year year_patterns other = current_year_of pdf).
Proof.
  cbv zeta.
  pose proof (make_questions_year (all_text_of pdf) (current_year_of pdf)
                (sorted_markers_of pdf)) as Hy.
  fold (records_of pdf) in Hy.
  split; [reflexivity|]. split; [|split; [|split]].
  - intros questions Hok. apply extract_returns in Hok.
    destruct Hok as [_ ->]. exact Hy.
  - intros E questions Hok. apply extract_returns in Hok.
    destruct Hok as [_ ->]. rewrite E in Hy. exact Hy.
  - intros y E. pose proof (find_year_is_year_text _ E) as Hyear.
    split; [exact Hyear|].
    intros questions Hok. apply extract_returns in Hok.
    destruct Hok as [_ ->]. rewrite E in Hy.
    destruct Hyear as (d1 & d2 & -> & _). exact Hy.
  - intros other Hs. now apply find_year_ignores_case.
Qed.

Lemma year_decided_by_first_matching_pattern_witness :
  (exists questions,
      extract_questions_with_year dated_pdf = Ok questions
      /\ questions <> []
      /\ Forall (fun q => year q = chars "2024") questions)
  /\ find_year year_patterns (Py.lower (all_text_of dated_pdf)) = Some (chars "2024").
Proof.
  destruct (year_decided_by_first_matching_pattern dated_pdf)
    as (_ & _ & _ & Hsome & Hcase).
  split.
  - eexists. split; [vm_compute; reflexivity|]. split; [discriminate|].
    refine (proj2 (Hsome (chars "2024") _) _ _); vm_compute; reflexivity.
  - rewrite (Hcase (Py.lower (all_text_of dated_pdf))); vm_compute; reflexivity.
Defined.

(** * Further properties of the extraction *)

(** X26.  The records that the extraction returns are sorted ascending by
    number, whatever the order of the markers in the text, and a marker
    gives at most one record: the numbers of the records are a subsequence
    of the numbers of the sorted marker list. *)
Theorem records_sorted_by_number (pdf : document) (questions : list question) :
  extract_questions_with_year pdf = Ok questions ->
  StronglySorted N.le (map question_number questions)
  /\ exists question_positions,
      question_positions_of pdf = Ok question_positions
      /\ subseq (map question_number questions)
                (map pos_number question_positions)
      /\ length questions <= length question_positions.
Proof.
  intros Hok. apply extract_returns in Hok. destruct Hok as [Hconv ->].
  destruct (records_sorted pdf) as (Hs & Hsub & Hlen).
  split; [exact Hs|]. exists (sorted_markers_of pdf).
  split; [rewrite question_positions_checked, Hconv; reflexivity|].
  split; assumption.
Qed.

Lemma records_sorted_by_number_witness :
  StronglySorted N.le [1; 3]%N.
Proof.
  apply (proj1 (@records_sorted_by_number shuffled_pdf
                  [ Question 1
                      (chars "Define the capital asset pricing model.  Derive the Black-Scholes formula.")
                      (chars "Q. 1) Define the capital asset pricing model. Q. 3) Derive the Black-Scholes formula.")
                      (chars "Unknown") None (chars "Unknown") 1;
                    Question 3
                      (chars "Derive the Black-Scholes formula.  Explain ruin theory in detail.")
                      (chars "Q. 3) Derive the Black-Scholes formula. Q. 2) Explain ruin theory in detail.")
                      (chars "Unknown") None (chars "Unknown") 1 ]
                  ltac:(vm_compute; reflexivity))).
Defined.

Lemma empty_span (all_text : text) (q_pos next : position) (rest : list position) :
  pos_start next <= pos_start q_pos ->
  clean_content all_text q_pos (next :: rest) = [].
Proof.
  intros H. unfold clean_content, end_pos, Py.slice.
  rewrite (proj2 (Nat.sub_0_le _ _) H). reflexivity.
Qed.

(** X1.  A marker that is followed, in the sorted marker list, by a marker that
    starts at or before it in the text gives no record: its span is empty. *)
Theorem inverted_successor_gives_no_record
        (all_text : text) (current_year : option text)
        (q_pos next : position) (rest : list position) :
  pos_start next <= pos_start q_pos ->
  clean_content all_text q_pos (next :: rest) = []
  /\ make_question all_text current_year q_pos (next :: rest) = None.
Proof.
  intros H. pose proof (@empty_span all_text q_pos next rest H) as E.
  split; [exact E|]. unfold make_question. now rewrite E.
Qed.

Lemma inverted_successor_gives_no_record_witness :
  make_question (all_text_of out_of_order_pdf) None
    (Position 1 57 (MatchObj 57 62 [(1, chars "1")]) 1)
    [Position 2 16 (MatchObj 16 21 [(1, chars "2")]) 1] = None.
Proof.
  refine (proj2 (inverted_successor_gives_no_record _ _ _ _ _ _)).
  cbn [pos_start]. lia.
Defined.

Lemma insert_by_number_head (q : position) (l : list position) :
  HdRel le_number q l -> insert_by_number q l = q :: l.
Proof.
  destruct 1 as [|h t H]; [reflexivity|]. cbn [insert_by_number].
  unfold le_number in H. apply N.leb_le in H. now rewrite H.
Qed.

Lemma sort_by_number_sorted_id (l : list position) :
  Sorted le_number l -> sort_by_number l = l.
Proof.
  induction 1 as [|q l Hl IH Hq]; [reflexivity|].
  cbn [sort_by_number fold_right]. fold (sort_by_number l).
  rewrite IH. now apply insert_by_number_head.
Qed.

(** X2.  When the markers of a document are numbered in ascending order as
    they appear in the text (equal numbers allowed), the sort changes
    nothing: the record loop visits the markers in text order. *)
Theorem ascending_markers_keep_text_order (pdf : document)
        (scanned : list position) :
  scan_questions (all_text_of pdf) (page_breaks_of pdf) = Ok scanned ->
  Sorted le_number scanned ->
  question_positions_of pdf = Ok scanned
  /\ StronglySorted lt (map pos_start scanned).
Proof.
  intros Hok H. unfold question_positions_of. rewrite Hok. cbn [bind].
  rewrite (sort_by_number_sorted_id H).
  split; [reflexivity|].
  apply scan_questions_returns in Hok. destruct Hok as [_ ->].
  apply scanned_markers_starts.
Qed.

Lemma ascending_markers_keep_text_order_witness :
  question_positions_of example_pdf
  = Ok [ Position 1 16 (MatchObj 16 21 [(1, chars "1")]) 1;
         Position 2 55 (MatchObj 55 60 [(1, chars "2")]) 2 ].
Proof.
  apply (@ascending_markers_keep_text_order example_pdf
           [ Position 1 16 (MatchObj 16 21 [(1, chars "1")]) 1;
             Position 2 55 (MatchObj 55 60 [(1, chars "2")]) 2 ]).
  - vm_compute. reflexivity.
  - repeat constructor. unfold le_number. cbn [pos_number]. lia.
Defined.

Lemma read_pages_blank (pages : document) :
  Forall blank_page pages ->
  forall n all_text pb, read_pages pages n all_text pb = (all_text, pb).
Proof.
  induction 1 as [|p pages [->| ->] _ IH]; intros n all_text pb;
    cbn [read_pages]; auto.
Qed.

(** X3.  A document none of whose pages has text (no page at all, or pages for
    which the text extraction gives nothing) has an empty concatenated text
    and gives the empty list of questions; nothing fails. *)
Theorem blank_document_gives_no_question (pdf : document) :
  Forall blank_page pdf ->
  all_text_of pdf = [] /\ page_breaks_of pdf = []
  /\ extract_questions_with_year pdf = Ok [].
Proof.
  intros H.
  assert (Et : all_text_of pdf = [])
    by (unfold all_text_of; now rewrite read_pages_blank).
  assert (Eb : page_breaks_of pdf = [])
    by (unfold page_breaks_of; now rewrite read_pages_blank).
  repeat split; try assumption.
  unfold extract_questions_with_year, question_positions_of.
  rewrite Et, Eb. reflexivity.
Qed.

Lemma blank_document_gives_no_question_witness :
  extract_questions_with_year [None; Some []; None] = Ok [].
Proof.
  apply (@blank_document_gives_no_question [None; Some []; None]).
  repeat (apply Forall_cons; [unfold blank_page; auto|]). apply Forall_nil.
Defined.

Lemma dict_set_Forall (P : nat -> Prop) (d : list (nat * nat)) (k v : nat) :
  Forall (fun e => P (snd e)) d -> P v ->
  Forall (fun e => P (snd e)) (dict_set d k v).
Proof.
  induction 1 as [|[k' v'] d Hh Hd IH]; intros Hv; cbn [dict_set].
  - repeat constructor. exact Hv.
  - destruct (Nat.eqb k' k); constructor; auto.
Qed.

(** Every page number recorded in [page_breaks] is the index of a page
    with text. *)
Lemma read_pages_text_pages (pdf : document) :
  forall rest done n all_text pb,
    pdf = done ++ rest ->
    n = S (length done) ->
    Forall (fun e => is_text_page pdf (snd e)) pb ->
    Forall (fun e => is_text_page pdf (snd e))
           (snd (read_pages rest n all_text pb)).
Proof.
  induction rest as [|p rest IH]; intros done n all_text pb Hpdf Hn Hpb;
    [exact Hpb|].
  assert (Hnext : pdf = (done ++ [p]) ++ rest)
    by (rewrite <- app_assoc; exact Hpdf).
  assert (Hlen : S n = S (length (done ++ [p])))
    by (rewrite length_app; simpl; lia).
  destruct p as [[|c txt]|]; cbn [read_pages];
    try (apply (IH (done ++ [Some []])); assumption);
    try (apply (IH (done ++ [None])); assumption).
  apply (IH (done ++ [Some (c :: txt)])); try assumption.
  apply dict_set_Forall; [exact Hpb|].
  unfold is_text_page. subst n pdf. rewrite length_app. cbn [length].
  split; [lia|]. exists (c :: txt). split; [|discriminate].
  replace (S (length done) - 1) with (length done) by lia.
  rewrite nth_error_app2 by lia. now rewrite Nat.sub_diag.
Qed.

(** X4.  The page of every record is the 1-based index of a page of the
    document that has text: it lies between 1 and the number of pages, and
    never points at a page that was skipped. *)
Theorem page_is_a_text_page (pdf : document) (questions : list question)
        (q : question) :
  extract_questions_with_year pdf = Ok questions ->
  In q questions ->
  is_text_page pdf (page q).
Proof.
  intros Hok Hin. apply extract_returns in Hok. destruct Hok as [_ ->].
  apply make_questions_In in Hin.
  destruct Hin as (before & q_pos & rest & Hsplit & Hmk).
  destruct (make_question_Some _ _ _ _ Hmk) as [_ ->]. cbn [page].
  assert (Hp : In q_pos (scanned_markers (all_text_of pdf) (page_breaks_of pdf))).
  { eapply Permutation_in; [symmetry; apply sort_by_number_perm|].
    fold (sorted_markers_of pdf). rewrite Hsplit.
    apply in_or_app. right. now left. }
  destruct (scanned_markers_page pdf q_pos Hp) as (off & Hoff & _).
  pose proof (@read_pages_text_pages pdf pdf [] 1 [] [] eq_refl eq_refl
                (Forall_nil _)) as Hall.
  fold (page_breaks_of pdf) in Hall.
  rewrite Forall_forall in Hall. exact (Hall _ Hoff).
Qed.

Lemma page_is_a_text_page_witness : is_text_page gap_pdf 3.
Proof.
  apply (@page_is_a_text_page gap_pdf gap_questions
           (Question 2 (chars "Explain ruin theory in detail.")
              (chars "Q. 2) Explain ruin theory in detail.")
              (chars "Unknown") None (chars "Unknown") 3)).
  - vm_compute. reflexivity.
  - right. left. reflexivity.
Defined.

(** Two lists with the same elements, both in strictly increasing order of
    a key, are the same list. *)
Lemma sorted_perm_unique (A : Type) (f : A -> nat) (l1 : list A) :
  forall l2,
    StronglySorted (fun a b => f a < f b) l1 ->
    StronglySorted (fun a b => f a < f b) l2 ->
    Permutation l1 l2 -> l1 = l2.
Proof.
  induction l1 as [|a l1 IH]; intros l2 H1 H2 Hp.
  - apply Permutation_nil in Hp. now subst.
  - destruct l2 as [|b l2]; [symmetry in Hp; now apply Permutation_nil in Hp|].
    inversion H1 as [|? ? H1' Ha]; inversion H2 as [|? ? H2' Hb]; subst.
    assert (E : a = b).
    { assert (Ia : In a (b :: l2)) by (eapply Permutation_in; [exact Hp | now left]).
      assert (Ib : In b (a :: l1))
        by (eapply Permutation_in; [symmetry; exact Hp | now left]).
      destruct Ia as [E|Ia]; [now symmetry|].
      destruct Ib as [E|Ib]; [exact E|].
      rewrite Forall_forall in Ha, Hb.
      specialize (Ha b Ib). specialize (Hb a Ia). lia. }
    subst b. f_equal. apply IH; auto. now apply Permutation_cons_inv in Hp.
Qed.

Lemma make_questions_length (all_text : text) (current_year : option text)
      (qs : list position) :
  length (make_questions all_text current_year qs) <= length qs.
Proof.
  induction qs as [|q qs IH]; cbn [make_questions length]; [lia|].
  destruct (make_question all_text current_year q qs); cbn [length]; lia.
Qed.

(** When every marker gives a record, each marker starts before its
    successor in the list. *)
Lemma all_kept_in_text_order (all_text : text) (current_year : option text)
      (qs : list position) :
  length (make_questions all_text current_year qs) = length qs ->
  Sorted (fun a b => pos_start a < pos_start b) qs.
Proof.
  induction qs as [|q qs IH]; cbn [make_questions length]; intros H;
    [constructor|].
  pose proof (make_questions_length all_text current_year qs) as Hle.
  destruct (make_question all_text current_year q qs) as [r|] eqn:E;
    cbn [length] in H; [|lia].
  constructor; [apply IH; lia|].
  destruct qs as [|next rest]; constructor.
  destruct (Nat.lt_ge_cases (pos_start q) (pos_start next)) as [Hlt|Hge];
    [exact Hlt|].
  unfold make_question in E. rewrite (@empty_span all_text q next rest Hge) in E.
  discriminate E.
Qed.

(** X5.  When the markers of a document are not numbered in ascending order as
    they appear in the text, at least one marker gives no record. *)
Theorem unsorted_markers_lose_a_record (pdf : document)
        (scanned : list position) :
  scan_questions (all_text_of pdf) (page_breaks_of pdf) = Ok scanned ->
  ~ Sorted le_number scanned ->
  exists questions,
    extract_questions_with_year pdf = Ok questions
    /\ length questions < length scanned.
Proof.
  intros Hok Hns.
  apply scan_questions_returns in Hok. destruct Hok as [Hconv ->].
  exists (records_of pdf).
  split; [rewrite extract_checked, Hconv; reflexivity|].
  rewrite (Permutation_length
             (sort_by_number_perm
                (scanned_markers (all_text_of pdf) (page_breaks_of pdf)))).
  fold (sorted_markers_of pdf).
  pose proof (make_questions_length (all_text_of pdf) (current_year_of pdf)
                (sorted_markers_of pdf)) as Hle.
  fold (records_of pdf) in Hle.
  destruct (Nat.eq_dec (length (records_of pdf))
                       (length (sorted_markers_of pdf))) as [E|E]; [|lia].
  exfalso. apply Hns.
  apply all_kept_in_text_order in E.
  apply Sorted_StronglySorted in E; [|intros a b c; lia].
  assert (Hsame : sorted_markers_of pdf
                  = scanned_markers (all_text_of pdf) (page_breaks_of pdf)).
  { apply sorted_perm_unique with (f := pos_start); [exact E| |].
    - pose proof (scanned_markers_starts (all_text_of pdf) (page_breaks_of pdf)) as Hs.
      clear - Hs. induction (scanned_markers (all_text_of pdf) (page_breaks_of pdf))
        as [|p l IH]; [constructor|].
      cbn [map] in Hs. inversion Hs as [|? ? Hs' Hp]; subst.
      constructor; [auto|]. now rewrite Forall_map in Hp.
    - symmetry. apply sort_by_number_perm. }
  rewrite <- Hsame. apply StronglySorted_Sorted, sort_by_number_sorted.
Qed.

Lemma unsorted_markers_lose_a_record_witness :
  exists questions,
    extract_questions_with_year out_of_order_pdf = Ok questions
    /\ length questions < 2.
Proof.
  apply (@unsorted_markers_lose_a_record out_of_order_pdf
           [ Position 2 16 (MatchObj 16 21 [(1, chars "2")]) 1;
             Position 1 57 (MatchObj 57 62 [(1, chars "1")]) 1 ]).
  - vm_compute. reflexivity.
  - intros H. inversion H as [|? ? _ Hd]; subst.
    inversion Hd as [|? ? Hle]; subst.
    unfold le_number in Hle. cbn [pos_number] in Hle. lia.
Defined.

(** ** White space at the ends *)

Lemma lstrip_first (s : text) (c : ascii) (t : text) :
  Py.lstrip s = c :: t -> Py.isspace c = false.
Proof.
  induction s as [|a s IH]; cbn [Py.lstrip]; [discriminate|].
  destruct (Py.isspace a) eqn:E; [exact IH|]. now intros [= <- _].
Qed.

Lemma lstrip_split (s : text) :
  exists ws, s = ws ++ Py.lstrip s /\ Forall (fun c => Py.isspace c = true) ws.
Proof.
  induction s as [|a s (ws & Hs & Hws)]; cbn [Py.lstrip].
  - exists []. split; [reflexivity | constructor].
  - destruct (Py.isspace a) eqn:E.
    + exists (a :: ws). split; [cbn [app]; now f_equal | now constructor].
    + exists []. split; [reflexivity | constructor].
Qed.

Lemma lstrip_snoc (l : text) (c : ascii) :
  Py.isspace c = false -> Py.lstrip (l ++ [c]) = Py.lstrip l ++ [c].
Proof.
  intros Hc. induction l as [|a l IH]; cbn [app Py.lstrip].
  - now rewrite Hc.
  - destruct (Py.isspace a); [exact IH | reflexivity].
Qed.

Lemma rstrip_cons (c : ascii) (t : text) :
  Py.isspace c = false -> Py.rstrip (c :: t) = c :: Py.rstrip t.
Proof.
  intros Hc. unfold Py.rstrip. cbn [rev].
  rewrite lstrip_snoc by exact Hc. rewrite rev_app_distr. reflexivity.
Qed.

Lemma rstrip_split (s : text) :
  exists ws, s = Py.rstrip s ++ ws /\ Forall (fun c => Py.isspace c = true) ws.
Proof.
  destruct (lstrip_split (rev s)) as (ws & Hs & Hws).
  exists (rev ws). split.
  - unfold Py.rstrip. rewrite <- rev_app_distr, <- Hs. now rewrite rev_involutive.
  - apply Forall_rev. exact Hws.
Qed.

Lemma rstrip_last (s pre : text) (c : ascii) :
  Py.rstrip s = pre ++ [c] -> Py.isspace c = false.
Proof.
  unfold Py.rstrip. intros H. apply (f_equal (@rev ascii)) in H.
  rewrite rev_involutive, rev_app_distr in H. cbn [rev app] in H.
  eapply lstrip_first. exact H.
Qed.

(** [s.strip()] neither begins nor ends with white space, and it gives
    back a text that has none at its ends. *)
Lemma strip_ends (s : text) :
  (forall c t, Py.strip s = c :: t -> Py.isspace c = false)
  /\ (forall pre c, Py.strip s = pre ++ [c] -> Py.isspace c = false).
Proof.
  unfold Py.strip. split.
  - intros c t H.
    destruct (rstrip_split (Py.lstrip s)) as (ws & Hs & _).
    rewrite H in Hs. eapply lstrip_first. exact Hs.
  - intros pre c H. eapply rstrip_last. exact H.
Qed.

Lemma strip_head (c : ascii) (t : text) :
  Py.isspace c = false -> Py.strip (c :: t) = c :: Py.rstrip t.
Proof.
  intros Hc. unfold Py.strip. cbn [Py.lstrip]. rewrite Hc.
  now apply rstrip_cons.
Qed.

Lemma split_no_sep (sep : ascii) (s : text) :
  Py.split sep s <> []
  /\ Forall (fun piece => ~ In sep piece) (Py.split sep s).
Proof.
  induction s as [|c s [Hne IH]]; cbn [Py.split].
  - split; [discriminate|]. repeat constructor. intros [].
  - destruct (Ascii.eqb_spec c sep) as [->|Hc].
    + split; [discriminate|]. constructor; [intros []|exact IH].
    + destruct (Py.split sep s) as [|l ls]; [congruence|].
      split; [discriminate|].
      inversion IH as [|? ? Hl Hls]; subst. constructor; [|exact Hls].
      intros [E|Hin]; [now apply Hc | contradiction].
Qed.

Lemma split_snoc (sep : ascii) (s : text) :
  Py.split sep (s ++ [sep]) = Py.split sep s ++ [[]].
Proof.
  induction s as [|c s IH]; cbn [app Py.split].
  - now rewrite Ascii.eqb_refl.
  - rewrite IH. destruct (Ascii.eqb c sep); [reflexivity|].
    pose proof (proj1 (split_no_sep sep s)) as Hne.
    destruct (Py.split sep s) as [|l ls]; [congruence | reflexivity].
Qed.

Lemma strip_incl (s : text) (c : ascii) : In c (Py.strip s) -> In c s.
Proof.
  unfold Py.strip. intros H.
  destruct (rstrip_split (Py.lstrip s)) as (ws & Hr & _).
  destruct (lstrip_split s) as (ws' & Hl & _).
  rewrite Hl. apply in_or_app. right. rewrite Hr. apply in_or_app. now left.
Qed.

Lemma lstrip_id (s : text) :
  match s with [] => True | c :: _ => Py.isspace c = false end ->
  Py.lstrip s = s.
Proof. destruct s as [|c s]; cbn [Py.lstrip]; [reflexivity|]. now intros ->. Qed.

(** Stripping a stripped text changes nothing. *)
Lemma strip_idempotent (s : text) : Py.strip (Py.strip s) = Py.strip s.
Proof.
  destruct (strip_ends s) as [Hfirst Hlast].
  unfold Py.strip at 1.
  assert (Hl : Py.lstrip (Py.strip s) = Py.strip s).
  { apply lstrip_id. destruct (Py.strip s) as [|c t] eqn:E; [exact I|].
    now apply (Hfirst c t). }
  rewrite Hl. unfold Py.rstrip.
  rewrite lstrip_id; [apply rev_involutive|].
  destruct (rev (Py.strip s)) as [|c t] eqn:E; [exact I|].
  apply (Hlast (rev t) c).
  rewrite <- (rev_involutive (Py.strip s)), E. reflexivity.
Qed.

(** ** The marks *)

Lemma rep_takes (R : Type) (ok : ascii -> bool) (k : text -> option R) (x : R)
      (s : text) :
  forall lo hi,
    rep ok lo hi k s = Some x ->
    exists pre s',
      s = pre ++ s'
      /\ Forall (fun c => ok c = true) pre
      /\ lo <= length pre
      /\ k s' = Some x.
Proof.
  induction s as [|c s IH]; intros lo hi H.
  - exists [], []. destruct hi as [[|h]|], lo; simpl in H; try discriminate;
      repeat split; auto.
  - assert (Hstop : match lo with 0 => k (c :: s) | S _ => None end = Some x ->
                    exists pre s',
                      c :: s = pre ++ s'
                      /\ Forall (fun c => ok c = true) pre
                      /\ lo <= length pre
                      /\ k s' = Some x).
    { intros Hs. exists [], (c :: s). destruct lo; [|discriminate].
      repeat split; auto. }
    cbn [rep] in H.
    destruct hi as [[|h]|]; [auto| |];
      (destruct (ok c) eqn:Hc; [|auto];
       match type of H with
       | match ?e with _ => _ end = _ => destruct e as [y|] eqn:E
       end; [|auto];
       injection H as ->; apply IH in E;
       destruct E as (pre & s' & -> & Hpre & Hlo & E);
       exists (c :: pre), s'; repeat split; auto; cbn [length]; lia).
Qed.

Lemma firstn_taken (A : Type) (pre rest : list A) :
  firstn (length (pre ++ rest) - length rest) (pre ++ rest) = pre.
Proof.
  rewrite length_app, Nat.add_sub.
  rewrite firstn_app, Nat.sub_diag, firstn_all. cbn [firstn]. apply app_nil_r.
Qed.

(** Where the marks pattern matches, the text reads [[digits]] and then
    white space up to its end. *)
Lemma marks_pattern_match (s rest : text) (cs : caps) :
  match_at false marks_pattern s = Some (rest, cs) ->
  exists ds ws,
    s = "["%char :: ds ++ "]"%char :: ws ++ rest
    /\ ds <> []
    /\ Forall (fun c => Py.isdecimal c = true) ds
    /\ Forall (fun c => Py.isspace c = true) ws
    /\ (rest = [] \/ rest = [nl])
    /\ cs = [(1, ds)].
Proof.
  unfold match_at, marks_pattern. cbv [seqs star plus]. cbn [m].
  destruct s as [|c s]; [discriminate|].
  change (accepts false (Chr "[") c) with (Ascii.eqb c "[").
  destruct (Ascii.eqb_spec c "[") as [->|_]; [|discriminate].
  intros H. apply rep_takes in H.
  destruct H as (ds & s1 & -> & Hds & Hlen & H).
  destruct s1 as [|c1 s1]; [discriminate|].
  change (accepts false (Chr "]") c1) with (Ascii.eqb c1 "]") in H.
  destruct (Ascii.eqb_spec c1 "]") as [->|_]; [|discriminate].
  apply rep_takes in H. destruct H as (ws & s2 & -> & Hws & _ & H).
  rewrite firstn_taken in H.
  exists ds, ws.
  assert (Hrest : (s2 = [] \/ s2 = [nl]) /\ Some (s2, [(1, ds)]) = Some (rest, cs)).
  { destruct s2 as [|c2 [|c3 s2]]; [auto| |discriminate].
    destruct (Ascii.eqb_spec c2 nl) as [->|_]; [auto | discriminate]. }
  destruct Hrest as [Hs2 [= <- <-]].
  repeat split; auto.
  destruct ds; [cbn [length] in Hlen; lia | discriminate].
Qed.

Lemma find_marks_found (content : text) :
  find_marks content = chars "Unknown"
  \/ exists pre ws,
      content = pre ++ "["%char :: find_marks content ++ "]"%char :: ws
      /\ find_marks content <> []
      /\ Forall (fun c => Py.isdecimal c = true) (find_marks content)
      /\ Forall (fun c => Py.isspace c = true) ws.
Proof.
  unfold find_marks.
  destruct (search false marks_pattern content) as [mo|] eqn:E; [right | now left].
  apply search_from_match in E. destruct E as (pre & s1 & rest & -> & E).
  apply marks_pattern_match in E.
  destruct E as (ds & ws & -> & Hne & Hds & Hws & Hrest & Hcs).
  unfold group_text, group. rewrite Hcs. cbn [get_cap Nat.eqb].
  exists pre, (ws ++ rest). repeat split; auto.
  apply Forall_app. split; [exact Hws|].
  destruct Hrest as [-> | ->]; repeat constructor.
Qed.

(** X6.  The marks of a record are "Unknown" or a run of decimal digits, and
    in the second case the content of the record ends with these digits in
    square brackets. *)
Theorem marks_close_the_content (pdf : document) (questions : list question)
        (q : question) :
  extract_questions_with_year pdf = Ok questions ->
  In q questions ->
  marks q = chars "Unknown"
  \/ (marks q <> []
      /\ Forall (fun c => Py.isdecimal c = true) (marks q)
      /\ exists pre, complete_content q = pre ++ "["%char :: marks q ++ ["]"%char]).
Proof.
  intros Hok Hin. apply extract_returns in Hok. destruct Hok as [_ ->].
  apply make_questions_In in Hin.
  destruct Hin as (before & q_pos & rest & _ & Hmk).
  destruct (make_question_Some _ _ _ _ Hmk) as [_ ->].
  cbn [marks complete_content].
  destruct (find_marks_found (clean_content (all_text_of pdf) q_pos rest))
    as [Hu | (pre & ws & Hc & Hne & Hds & Hws)]; [now left | right].
  repeat split; auto. exists pre.
  destruct ws as [|w ws].
  - exact Hc.
  - exfalso.
    destruct (@exists_last _ (w :: ws)) as (ws' & c & Hlast); [discriminate|].
    rewrite Hlast in Hc, Hws.
    apply Forall_app in Hws. destruct Hws as [_ Hc']. inversion Hc'; subst.
    assert (Hs : Py.isspace c = false).
    { unfold clean_content in Hc. cbv zeta in Hc.
      eapply (proj2 (strip_ends _)) with
        (pre := pre ++ "["%char
                  :: find_marks (clean_content (all_text_of pdf) q_pos rest)
                  ++ "]"%char :: ws').
      rewrite Hc at 1. rewrite <- app_assoc. cbn [app].
      rewrite <- app_assoc. reflexivity. }
    congruence.
Qed.

Lemma marks_close_the_content_witness :
  chars "6" = chars "Unknown"
  \/ (chars "6" <> []
      /\ Forall (fun c => Py.isdecimal c = true) (chars "6")
      /\ exists pre,
          chars "Q. 3) Derive the Black-Scholes formula. [6]"
          = pre ++ "["%char :: chars "6" ++ ["]"%char]).
Proof.
  apply (@marks_close_the_content
           [Some (chars "Q. 3) Derive the Black-Scholes formula. [6]")]
           [Question 3 (chars "Derive the Black-Scholes formula. [6]")
              (chars "Q. 3) Derive the Black-Scholes formula. [6]")
              (chars "6") None (chars "Unknown") 1]
           (Question 3 (chars "Derive the Black-Scholes formula. [6]")
              (chars "Q. 3) Derive the Black-Scholes formula. [6]")
              (chars "6") None (chars "Unknown") 1)).
  - vm_compute. reflexivity.
  - left. reflexivity.
Defined.

(** ** Where a record begins *)

(** Every match [finditer] reports is a match of the pattern at its start
    offset. *)
Lemma finditer_from_match (ci : bool) (r : regex) (s : text) :
  forall skip pos mo,
    In mo (finditer_from ci r skip pos s) ->
    exists pre s1 rest,
      s = pre ++ s1
      /\ m_start mo = pos + length pre
      /\ match_at ci r s1 = Some (rest, m_caps mo).
Proof.
  induction s as [|c s IH]; intros skip pos mo Hin.
  - destruct skip; cbn [finditer_from] in Hin; [|contradiction].
    destruct (match_at ci r []) as [[rest cs]|] eqn:E; [|contradiction].
    destruct Hin as [<-|[]]. exists [], [], rest. cbn [m_start m_caps length app].
    repeat split; auto.
  - assert (Hlater : forall skip',
               In mo (finditer_from ci r skip' (S pos) s) ->
               exists pre s1 rest,
                 c :: s = pre ++ s1
                 /\ m_start mo = pos + length pre
                 /\ match_at ci r s1 = Some (rest, m_caps mo)).
    { intros skip' H. apply IH in H. destruct H as (pre & s1 & rest & -> & Hst & Hm).
      exists (c :: pre), s1, rest. cbn [length app]. repeat split; auto. lia. }
    destruct skip as [|n]; cbn [finditer_from] in Hin; [|eauto].
    destruct (match_at ci r (c :: s)) as [[rest cs]|] eqn:E; [|eauto].
    destruct Hin as [<-|Hin]; [|eauto].
    exists [], (c :: s), rest. cbn [m_start m_caps length app].
    repeat split; auto.
Qed.

Lemma question_pattern_match (s rest : text) (cs : caps) :
  match_at false question_pattern s = Some (rest, cs) ->
  exists t, s = "Q"%char :: "."%char :: t.
Proof.
  unfold match_at, question_pattern. cbv [seqs lits chars list_ascii_of_string].
  cbn [m]. destruct s as [|c1 [|c2 t]]; try discriminate.
  - now destruct (accepts false (Chr "Q") c1).
  - change (accepts false (Chr "Q") c1) with (Ascii.eqb c1 "Q").
    change (accepts false (Chr ".") c2) with (Ascii.eqb c2 ".").
    destruct (Ascii.eqb_spec c1 "Q") as [->|_]; [|discriminate].
    destruct (Ascii.eqb_spec c2 ".") as [->|_]; [|discriminate].
    intros _. now exists t.
Qed.

(** The text at the start offset of a marker begins with [Q.]. *)
Lemma scanned_markers_marker (all_text : text) (page_breaks : list (nat * nat))
      (p : position) :
  In p (scanned_markers all_text page_breaks) ->
  exists t, skipn (pos_start p) all_text = "Q"%char :: "."%char :: t.
Proof.
  unfold scanned_markers. intros Hin. apply in_map_iff in Hin.
  destruct Hin as (mo & <- & Hmo). cbn [pos_start].
  apply finditer_from_match in Hmo.
  destruct Hmo as (pre & s1 & rest & -> & Hst & Hm).
  rewrite Hst. cbn [Nat.add].
  rewrite skipn_app, skipn_all, Nat.sub_diag. cbn [skipn app].
  eapply question_pattern_match. exact Hm.
Qed.

(** The clean-up of a span that begins with [Q.] keeps the two characters
    in front, unless it leaves at most 20 characters. *)
Lemma cleaned_span_keeps_marker (n : nat) (u : text) :
  let content :=
    Py.strip
      (sub false blank_lines_pattern [nl; nl]
         (sub false page_marker_pattern [nl]
            (Py.strip (firstn n ("Q"%char :: "."%char :: u))))) in
  20 < length content -> exists t, content = "Q"%char :: "."%char :: t.
Proof.
  destruct n as [|[|n]]; cbv zeta; cbn [firstn].
  - intros H. vm_compute in H. lia.
  - intros H. vm_compute in H. lia.
  - intros _.
    assert (HQ : Py.isspace "Q" = false) by reflexivity.
    assert (Hd : Py.isspace "." = false) by reflexivity.
    rewrite strip_head by exact HQ. rewrite rstrip_cons by exact Hd.
    change (sub false page_marker_pattern [nl]
              ("Q"%char :: "."%char :: Py.rstrip (firstn n u)))
      with ("Q"%char :: "."%char
              :: sub_from false page_marker_pattern [nl] 0 (Py.rstrip (firstn n u))).
    change (sub false blank_lines_pattern [nl; nl]
              ("Q"%char :: "."%char
                 :: sub_from false page_marker_pattern [nl] 0
                      (Py.rstrip (firstn n u))))
      with ("Q"%char :: "."%char
              :: sub_from false blank_lines_pattern [nl; nl] 0
                   (sub_from false page_marker_pattern [nl] 0
                      (Py.rstrip (firstn n u)))).
    rewrite strip_head by exact HQ. rewrite rstrip_cons by exact Hd. eauto.
Qed.

Lemma content_begins_with_marker_lemma (pdf : document) (q : question) :
  In q (records_of pdf) ->
  exists t, complete_content q = "Q"%char :: "."%char :: t.
Proof.
  intros Hin. apply make_questions_In in Hin.
  destruct Hin as (before & q_pos & rest & Hsplit & Hmk).
  destruct (make_question_Some _ _ _ _ Hmk) as [Hlen ->].
  cbn [complete_content].
  assert (Hp : In q_pos (scanned_markers (all_text_of pdf) (page_breaks_of pdf))).
  { eapply Permutation_in; [symmetry; apply sort_by_number_perm|].
    fold (sorted_markers_of pdf). rewrite Hsplit.
    apply in_or_app. right. now left. }
  apply scanned_markers_marker in Hp. destruct Hp as (u & Hu).
  unfold clean_content, Py.slice in Hlen |- *. cbv zeta in Hlen |- *.
  rewrite Hu in Hlen |- *.
  exact (cleaned_span_keeps_marker _ _ Hlen).
Qed.

(** X7.  The content of every record begins with the two characters [Q.] of
    its marker, and neither begins nor ends with white space. *)
Theorem content_begins_with_marker (pdf : document) (questions : list question)
        (q : question) :
  extract_questions_with_year pdf = Ok questions ->
  In q questions ->
  (exists t, complete_content q = "Q"%char :: "."%char :: t)
  /\ Py.strip (complete_content q) = complete_content q
  /\ (forall pre c, complete_content q = pre ++ [c] -> Py.isspace c = false).
Proof.
  intros Hok Hin. apply extract_returns in Hok. destruct Hok as [_ ->].
  split; [apply content_begins_with_marker_lemma with (pdf := pdf); exact Hin|].
  apply make_questions_In in Hin.
  destruct Hin as (before & q_pos & rest & _ & Hmk).
  destruct (make_question_Some _ _ _ _ Hmk) as [_ ->].
  cbn [complete_content]. unfold clean_content. cbv zeta.
  split; [apply strip_idempotent | apply strip_ends].
Qed.

Lemma content_begins_with_marker_witness :
  exists t, chars "Q. 2) Explain ruin theory in detail." = "Q"%char :: "."%char :: t.
Proof.
  apply (@content_begins_with_marker gap_pdf gap_questions
           (Question 2 (chars "Explain ruin theory in detail.")
              (chars "Q. 2) Explain ruin theory in detail.")
              (chars "Unknown") None (chars "Unknown") 3)).
  - vm_compute. reflexivity.
  - right. left. reflexivity.
Defined.

(** ** Decimal numerals *)

Lemma uint_digits (d : Decimal.uint) :
  Forall (fun c => Py.isdecimal c = true) (chars (NilEmpty.string_of_uint d)).
Proof.
  induction d; cbn [NilEmpty.string_of_uint chars list_ascii_of_string];
    constructor; try reflexivity; assumption.
Qed.

Lemma int_of_uint (d : Decimal.uint) :
  forall acc,
    fold_left (fun acc c => (10 * acc + (Py.code c - 48))%N)
              (chars (NilEmpty.string_of_uint d)) acc
    = N.of_nat (Nat.of_uint_acc d (N.to_nat acc)).
Proof.
  induction d; intros acc;
    cbn [NilEmpty.string_of_uint chars list_ascii_of_string fold_left
         Nat.of_uint_acc];
    [now rewrite N2Nat.id|..];
    unfold chars in IHd; rewrite IHd; f_equal; f_equal;
    rewrite Nat.tail_mul_spec;
    match goal with
    | |- N.to_nat (10 * acc + ?k) = _ =>
        let v := eval vm_compute in k in change k with v
    end;
    lia.
Qed.

(** [int(str(n)) == n], and [str(n)] is a non-empty run of digits. *)
Lemma int_str (n : nat) :
  Py.int_value (Py.str n) = N.of_nat n
  /\ Py.str n <> []
  /\ Forall (fun c => Py.isdecimal c = true) (Py.str n).
Proof.
  unfold Py.int_value, Py.str. rewrite int_of_uint. cbn [N.to_nat].
  fold (Nat.of_uint (Nat.to_uint n)). rewrite DecimalNat.Unsigned.of_to.
  split; [reflexivity|]. split; [|apply uint_digits].
  assert (Hn : Nat.to_uint n <> Decimal.Nil).
  { destruct n as [|n]; [discriminate|]. intros H.
    apply (f_equal Nat.of_uint) in H.
    rewrite DecimalNat.Unsigned.of_to in H. discriminate H. }
  destruct (Nat.to_uint n); try congruence; discriminate.
Qed.

(** ** The sentinel and the pattern that removes it *)

(** A greedy repetition takes a whole run when what follows the run does
    not belong to it and the rest of the pattern matches there. *)
Lemma rep_greedy (R : Type) (ok : ascii -> bool) (k : text -> option R) (x : R)
      (t : text) :
  match t with [] => True | c :: _ => ok c = false end ->
  k t = Some x ->
  forall ds lo,
    Forall (fun c => ok c = true) ds ->
    lo <= length ds ->
    rep ok lo None k (ds ++ t) = Some x.
Proof.
  intros Ht Hk. induction ds as [|d ds IH]; intros lo Hds Hlo.
  - cbn [length] in Hlo. replace lo with 0 by lia. cbn [app].
    destruct t as [|c t]; cbn [rep]; [exact Hk|]. now rewrite Ht.
  - inversion Hds as [|? ? Hd Hds']; subst. cbn [app rep option_map]. rewrite Hd.
    rewrite IH; [reflexivity | exact Hds' | cbn [length] in Hlo; lia].
Qed.

Lemma page_marker_text (n : nat) (rest : text) :
  page_marker n ++ rest
  = nl :: chars "--- PAGE " ++ Py.str n ++ chars " ---" ++ nl :: rest.
Proof. unfold page_marker. cbn [app]. now rewrite <- !app_assoc. Qed.

Lemma accepts_same_char (c : ascii) : accepts false (Chr c) c = true.
Proof. apply Ascii.eqb_refl. Qed.

(** The pattern of the clean-up matches every sentinel the concatenator
    writes, whatever follows it. *)
Lemma page_marker_matched (n : nat) (rest : text) :
  match_at false page_marker_pattern (page_marker n ++ rest) = Some (rest, []).
Proof.
  rewrite page_marker_text. unfold match_at, page_marker_pattern.
  cbv [seqs lits plus chars list_ascii_of_string]. cbn [m app].
  rewrite !accepts_same_char.
  destruct (int_str n) as (_ & _ & Hd).
  apply rep_greedy; [reflexivity | | exact Hd |].
  - rewrite !accepts_same_char. reflexivity.
  - destruct (int_str n) as (_ & Hne & _).
    destruct (Py.str n); [congruence | cbn [length]; lia].
Qed.

Lemma match_at_needs_line_feed (c : ascii) (s : text) :
  c <> nl -> match_at false page_marker_pattern (c :: s) = None.
Proof.
  intros Hc. unfold match_at, page_marker_pattern.
  cbv [seqs lits plus chars list_ascii_of_string]. cbn [m].
  change (accepts false (Chr nl) c) with (Ascii.eqb c nl).
  now destruct (Ascii.eqb_spec c nl).
Qed.

Lemma sub_from_skip (ci : bool) (r : regex) (repl : text) (s : text) :
  forall pre, sub_from ci r repl (length pre) (pre ++ s) = sub_from ci r repl 0 s.
Proof.
  induction pre as [|c pre IH]; [reflexivity|]. cbn [length app sub_from].
  exact IH.
Qed.

(** X8.  The substitution of the clean-up replaces a sentinel by one line
    feed and goes on after it, when the text before the sentinel has no line
    feed. *)
Theorem sentinel_is_replaced_by_line_feed (before rest : text) (n : nat) :
  ~ In nl before ->
  sub false page_marker_pattern [nl] (before ++ page_marker n ++ rest)
  = before ++ nl :: sub false page_marker_pattern [nl] rest.
Proof.
  unfold sub. induction before as [|c before IH]; intros Hnl.
  - cbn [app]. pose proof (page_marker_matched n rest) as Hm.
    assert (Hlen : length (page_marker n ++ rest) - length rest
                   = S (length (page_marker n) - 1)).
    { rewrite length_app. pose proof (page_marker_length n). lia. }
    destruct (page_marker n) as [|c pm] eqn:E;
      [pose proof (page_marker_length n) as H0; rewrite E in H0; inversion H0|].
    cbn [app sub_from] in Hm |- *. rewrite Hm.
    cbn [app] in Hlen. rewrite Hlen. cbn [app length].
    replace (S (length pm) - 1) with (length pm) by lia.
    now rewrite sub_from_skip.
  - cbn [app sub_from].
    rewrite match_at_needs_line_feed by (intros ->; apply Hnl; now left).
    f_equal. apply IH. intros H. apply Hnl. now right.
Qed.

Lemma sentinel_is_replaced_by_line_feed_witness :
  sub false page_marker_pattern [nl]
      (chars "asset" ++ page_marker 2 ++ chars "pricing")
  = chars "asset" ++ nl :: sub false page_marker_pattern [nl] (chars "pricing").
Proof.
  apply sentinel_is_replaced_by_line_feed.
  vm_compute. intuition discriminate.
Defined.

(** * Properties of the workbook *)

Lemma text_eqb_eq (a b : text) : text_eqb a b = true <-> a = b.
Proof.
  revert b. induction a as [|x a IH]; intros [|y b]; cbn [text_eqb];
    try (split; [discriminate | discriminate]); [tauto|].
  rewrite andb_true_iff, Ascii.eqb_eq, IH. split.
  - now intros [-> ->].
  - now intros [= -> ->].
Qed.

Lemma text_eqb_refl (a : text) : text_eqb a a = true.
Proof. now apply text_eqb_eq. Qed.

Lemma text_eqb_neq (a b : text) : a <> b -> text_eqb a b = false.
Proof.
  intros H. destruct (text_eqb a b) eqn:E; [|reflexivity].
  apply text_eqb_eq in E. contradiction.
Qed.

Lemma text_eq_dec (a b : text) : {a = b} + {a <> b}.
Proof. apply list_eq_dec, ascii_dec. Qed.

(** ** Grouping *)

Lemma questions_of_add (chapters : list (text * list question))
      (ch k : text) (q : question) :
  questions_of (add_to_chapter chapters ch q) k
  = questions_of chapters k ++ (if text_eqb ch k then [q] else []).
Proof.
  induction chapters as [|[k' qs] rest IH]; cbn [add_to_chapter questions_of].
  - reflexivity.
  - destruct (text_eq_dec k' ch) as [->|Hne].
    + rewrite text_eqb_refl. cbn [questions_of].
      destruct (text_eqb ch k); [reflexivity | now rewrite app_nil_r].
    + rewrite (text_eqb_neq Hne). cbn [questions_of].
      destruct (text_eq_dec k' k) as [->|Hne'].
      * rewrite text_eqb_refl.
        rewrite text_eqb_neq by congruence. now rewrite app_nil_r.
      * rewrite (text_eqb_neq Hne'). exact IH.
Qed.

Lemma keys_of_add (chapters : list (text * list question)) (ch : text)
      (q : question) :
  map fst (add_to_chapter chapters ch q)
  = if existsb (fun k => text_eqb k ch) (map fst chapters)
    then map fst chapters else map fst chapters ++ [ch].
Proof.
  induction chapters as [|[k' qs] rest IH]; cbn [add_to_chapter map fst existsb].
  - reflexivity.
  - destruct (text_eqb k' ch); cbn [map fst orb]; [reflexivity|].
    rewrite IH. now destruct (existsb _ (map fst rest)).
Qed.

Lemma group_loop (assigned : list question) :
  forall chapters,
    let result :=
      fold_left (fun chapters q => add_to_chapter chapters (chapter_name q) q)
                assigned chapters in
    (forall k, questions_of result k
               = questions_of chapters k ++ filter (in_chapter k) assigned)
    /\ (NoDup (map fst chapters) -> NoDup (map fst result))
    /\ (forall k, In k (map fst result)
                  <-> In k (map fst chapters)
                      \/ exists q, In q assigned /\ chapter_name q = k).
Proof.
  induction assigned as [|q assigned IH]; intros chapters; cbv zeta; cbn [fold_left].
  - split; [|split]; auto.
    + intros k. cbn [filter]. now rewrite app_nil_r.
    + intros k. split; [auto|]. intros [H|(q & [] & _)]. exact H.
  - destruct (IH (add_to_chapter chapters (chapter_name q) q)) as (Hq & Hn & Hk).
    cbv zeta in Hq, Hn, Hk.
    assert (Hkeys := keys_of_add chapters (chapter_name q) q).
    split; [|split].
    + intros k. rewrite Hq, questions_of_add, <- app_assoc. f_equal.
      cbn [filter]. unfold in_chapter at 2. now destruct (text_eqb (chapter_name q) k).
    + intros Hnd. apply Hn. rewrite Hkeys.
      destruct (existsb (fun k => text_eqb k (chapter_name q)) (map fst chapters))
        eqn:E; [exact Hnd|].
      apply NoDup_app; [exact Hnd | repeat constructor; intros [] |].
      intros k Hin [Ek|[]]. rewrite <- Ek in Hin.
      assert (Ht : existsb (fun k' => text_eqb k' (chapter_name q))
                           (map fst chapters) = true)
        by (apply existsb_exists; exists (chapter_name q);
            split; [exact Hin | apply text_eqb_refl]).
      congruence.
    + intros k. rewrite Hk, Hkeys. split.
      * intros [H|(q' & Hq' & E)];
          [|right; exists q'; split; [now right | exact E]].
        destruct (existsb (fun k' => text_eqb k' (chapter_name q)) (map fst chapters));
          [now left|].
        apply in_app_or in H. destruct H as [H|[<-|[]]]; [now left|].
        right. exists q. split; [now left | reflexivity].
      * intros [H|(q' & [<-|Hq'] & E)].
        -- left. destruct (existsb _ (map fst chapters)); [exact H|].
           apply in_or_app. now left.
        -- left. subst k.
           destruct (existsb (fun k' => text_eqb k' (chapter_name q))
                             (map fst chapters)) eqn:Ex.
           ++ apply existsb_exists in Ex. destruct Ex as (k' & Hin & Heq).
              apply text_eqb_eq in Heq. now subst k'.
           ++ apply in_or_app. right. now left.
        -- right. exists q'. auto.
Qed.

Lemma group_by_chapter_spec (assigned : list question) :
  (forall k, questions_of (group_by_chapter assigned) k
             = filter (in_chapter k) assigned)
  /\ NoDup (map fst (group_by_chapter assigned))
  /\ (forall k, In k (map fst (group_by_chapter assigned))
                <-> exists q, In q assigned /\ chapter_name q = k).
Proof.
  unfold group_by_chapter.
  destruct (group_loop assigned []) as (Hq & Hn & Hk).
  cbv zeta in Hq, Hn, Hk. split; [exact Hq|]. split; [apply Hn; constructor|].
  intros k. rewrite Hk. split; [intros [[]|H]; exact H | auto].
Qed.

Lemma assigned_chapter (q : question) :
  is_assigned q = true -> chapter q = Some (chapter_name q).
Proof.
  unfold is_assigned, chapter_name. destruct (chapter q); [reflexivity | discriminate].
Qed.

(** X9.  The grouping loop of the workbook files every assigned question under
    its chapter: [chapters[k]] holds the assigned questions whose chapter is
    [k], in the order of the input, the keys are distinct, and they are the
    chapters that some assigned question has. *)
Theorem chapters_hold_their_questions (questions : list question) :
  let chapters := group_by_chapter (assigned_questions questions) in
  (forall k, questions_of chapters k
             = filter (in_chapter k) (assigned_questions questions))
  /\ NoDup (map fst chapters)
  /\ (forall k, In k (map fst chapters)
                <-> exists q, In q questions /\ is_assigned q = true
                              /\ chapter q = Some k).
Proof.
  cbv zeta.
  destruct (group_by_chapter_spec (assigned_questions questions)) as (Hq & Hn & Hk).
  split; [exact Hq|]. split; [exact Hn|].
  intros k. rewrite Hk. unfold assigned_questions. split.
  - intros (q & Hin & E). apply filter_In in Hin. destruct Hin as [Hin Ha].
    exists q. repeat split; auto. rewrite (assigned_chapter q Ha). now f_equal.
  - intros (q & Hin & Ha & E). exists q. split; [apply filter_In; auto|].
    unfold chapter_name. now rewrite E.
Qed.

Lemma chapters_hold_their_questions_witness :
  In (chars "Chapter 2")
     (map fst (group_by_chapter (assigned_questions labelled_questions))).
Proof.
  apply (proj2 (proj2 (chapters_hold_their_questions labelled_questions))).
  exists (Question 2 (chars "Explain ruin theory.") (chars "Q. 2) Explain ruin theory.")
            (chars "Unknown") (Some (chars "Chapter 2")) (chars "2024") 1).
  repeat split. right. left. reflexivity.
Defined.

(** ** The order of the chapters *)

Lemma key_leb_total (a b : option N) : key_leb a b = false -> key_leb b a = true.
Proof.
  destruct a as [x|], b as [y|]; cbn [key_leb]; try discriminate; auto.
  rewrite N.leb_gt, N.leb_le. lia.
Qed.

Lemma key_le_trans (a b c : text) : key_le a b -> key_le b c -> key_le a c.
Proof.
  unfold key_le.
  destruct (first_number a), (first_number b), (first_number c);
    cbn [key_leb]; try discriminate; auto.
  rewrite !N.leb_le. lia.
Qed.

Lemma insert_chapter_perm (c : text) (l : list text) :
  Permutation (c :: l) (insert_chapter c l).
Proof.
  induction l as [|h t IH]; cbn [insert_chapter]; [reflexivity|].
  destruct (key_leb (first_number c) (first_number h)); [reflexivity|].
  rewrite perm_swap. now constructor.
Qed.

Lemma chapters_in_order_perm (l : list text) : Permutation l (chapters_in_order l).
Proof.
  induction l as [|c l IH]; cbn [chapters_in_order fold_right]; [constructor|].
  rewrite <- insert_chapter_perm. now constructor.
Qed.

Lemma insert_chapter_sorted (c : text) (l : list text) :
  Sorted key_le l -> Sorted key_le (insert_chapter c l).
Proof.
  induction 1 as [|h t Ht IH Hh]; cbn [insert_chapter]; [repeat constructor|].
  destruct (key_leb (first_number c) (first_number h)) eqn:E.
  - constructor; [now constructor | now constructor].
  - apply key_leb_total in E. constructor; [assumption|].
    destruct t as [|h' t']; cbn [insert_chapter] in *.
    + now constructor.
    + destruct (key_leb (first_number c) (first_number h'));
        constructor; [exact E | now inversion Hh].
Qed.

Lemma chapters_in_order_sorted (l : list text) : StronglySorted key_le (chapters_in_order l).
Proof.
  apply Sorted_StronglySorted; [exact key_le_trans|].
  induction l as [|c l IH]; cbn [chapters_in_order fold_right]; [constructor|].
  now apply insert_chapter_sorted.
Qed.

Lemma insert_chapter_filter (k : option N) (c : text) (l : list text) :
  filter (has_key k) (insert_chapter c l) = filter (has_key k) (c :: l).
Proof.
  induction l as [|h t IH]; [reflexivity|]. cbn [insert_chapter].
  destruct (key_leb (first_number c) (first_number h)) eqn:E;
    [reflexivity|].
  cbn [filter] in *. rewrite IH. unfold has_key.
  destruct (first_number c) as [x|], (first_number h) as [y|], k as [z|];
    cbn [key_leb] in E; try discriminate; try reflexivity.
  apply N.leb_gt in E.
  destruct (N.eqb_spec x z), (N.eqb_spec y z); try reflexivity. lia.
Qed.

Lemma chapters_in_order_stable (k : option N) (l : list text) :
  filter (has_key k) (chapters_in_order l) = filter (has_key k) l.
Proof.
  induction l as [|c l IH]; [reflexivity|].
  cbn [chapters_in_order fold_right]. rewrite insert_chapter_filter.
  cbn [filter]. fold (chapters_in_order l). now rewrite IH.
Qed.

(** The sort of the names with their keys is the sort of the names by
    their first number. *)
Lemma insert_by_key_first_number (c : text) (l : list text) :
  insert_by_key (first_number c, c) (map (fun x => (first_number x, x)) l)
  = map (fun x => (first_number x, x)) (insert_chapter c l).
Proof.
  induction l as [|h t IH]; [reflexivity|].
  cbn [map insert_by_key insert_chapter fst].
  destruct (key_leb (first_number c) (first_number h)); [reflexivity|].
  cbn [map]. now rewrite IH.
Qed.

Lemma sort_by_key_first_number (l : list text) :
  sort_by_key (map (fun x => (first_number x, x)) l)
  = map (fun x => (first_number x, x)) (chapters_in_order l).
Proof.
  induction l as [|c l IH]; [reflexivity|].
  cbn [map]. unfold sort_by_key, chapters_in_order in *. cbn [fold_right].
  rewrite IH. apply insert_by_key_first_number.
Qed.

Lemma chapter_sort_key_checked (name : text) :
  chapter_sort_key name
  = if key_converts name then Ok (first_number name) else Raise ValueError.
Proof.
  unfold chapter_sort_key, key_converts, first_number.
  destruct (search false number_pattern name) as [mo|]; [|reflexivity].
  rewrite int_checked. destruct (converts (group_text 1 mo)); reflexivity.
Qed.

(** The sort raises when the first run of digits of a name does not
    convert, and otherwise returns the names sorted by their first number. *)
Lemma sort_chapters_checked (names : list text) :
  sort_chapters names
  = if forallb key_converts names then Ok (chapters_in_order names)
    else Raise ValueError.
Proof.
  unfold sort_chapters.
  rewrite (@map_result_checked _ _ _ key_converts (fun c => (first_number c, c))).
  - destruct (forallb key_converts names); cbn [bind]; [|reflexivity].
    rewrite sort_by_key_first_number, map_map. cbn [snd]. now rewrite map_id.
  - intros c _. rewrite chapter_sort_key_checked.
    destruct (key_converts c); reflexivity.
Qed.

Lemma sort_chapters_returns (names sorted : list text) :
  sort_chapters names = Ok sorted ->
  forallb key_converts names = true /\ sorted = chapters_in_order names.
Proof.
  rewrite sort_chapters_checked.
  destruct (forallb key_converts names); [|discriminate].
  intros [= <-]. auto.
Qed.

(** X10.  The chapters of the workbook are ordered by the first number in
    their name, which is their sort key, the names without a number last;
    the order is a rearrangement of the chapters that keeps, among the
    chapters of one key, the order in which they were first assigned. *)
Theorem chapters_ordered_by_first_number (l sorted : list text) :
  sort_chapters l = Ok sorted ->
  Forall (fun c => chapter_sort_key c = Ok (first_number c)) l
  /\ Permutation l sorted
  /\ StronglySorted key_le sorted
  /\ forall k, filter (has_key k) sorted = filter (has_key k) l.
Proof.
  intros Hok. apply sort_chapters_returns in Hok. destruct Hok as [Hconv ->].
  split; [|split; [apply chapters_in_order_perm|]].
  - rewrite forallb_forall in Hconv. apply Forall_forall. intros c Hc.
    rewrite chapter_sort_key_checked, (Hconv c Hc). reflexivity.
  - split; [apply chapters_in_order_sorted|].
    intros k. apply chapters_in_order_stable.
Qed.

Lemma chapters_ordered_by_first_number_witness :
  StronglySorted key_le
    [ chars "Chapter 2"; chars "Unit 2"; chars "Chapter 10"; chars "Ruin Theory";
      chars "Appendix" ].
Proof.
  apply (@chapters_ordered_by_first_number
           [ chars "Ruin Theory"; chars "Chapter 10"; chars "Chapter 2";
             chars "Appendix"; chars "Unit 2" ]).
  vm_compute. reflexivity.
Defined.

(** ** The sort key *)

Lemma number_pattern_needs_digit (c : ascii) (s : text) :
  Py.isdecimal c = false -> match_at false number_pattern (c :: s) = None.
Proof.
  intros H. unfold match_at, number_pattern, plus. cbn [m rep].
  change (accepts false Digit c) with (Py.isdecimal c). now rewrite H.
Qed.

Lemma number_pattern_takes_run (ds t : text) :
  ds <> [] ->
  Forall (fun c => Py.isdecimal c = true) ds ->
  match t with [] => True | c :: _ => Py.isdecimal c = false end ->
  match_at false number_pattern (ds ++ t) = Some (t, [(1, ds)]).
Proof.
  intros Hne Hds Ht. unfold match_at, number_pattern, plus. cbn [m].
  apply rep_greedy.
  - exact Ht.
  - now rewrite firstn_taken.
  - exact Hds.
  - destruct ds; [congruence | cbn [length]; lia].
Qed.

Lemma number_not_found (name : text) :
  Forall (fun c => Py.isdecimal c = false) name ->
  search false number_pattern name = None.
Proof.
  unfold search. intros H.
  assert (E : forall pos, search_from false number_pattern pos name = None).
  { induction H as [|c name Hc _ IH]; intros pos; [reflexivity|].
    cbn [search_from]. rewrite number_pattern_needs_digit by exact Hc.
    apply IH. }
  apply E.
Qed.

Lemma number_found (pre ds t : text) :
  Forall (fun c => Py.isdecimal c = false) pre ->
  ds <> [] ->
  Forall (fun c => Py.isdecimal c = true) ds ->
  match t with [] => True | c :: _ => Py.isdecimal c = false end ->
  exists mo,
    search false number_pattern (pre ++ ds ++ t) = Some mo
    /\ group_text 1 mo = ds.
Proof.
  unfold search. intros Hpre Hne Hds Ht.
  assert (E : forall pos,
             exists e, search_from false number_pattern pos (pre ++ ds ++ t)
                       = Some (MatchObj (pos + length pre) e [(1, ds)])).
  { induction Hpre as [|c pre Hc _ IH]; intros pos.
    - cbn [app length]. rewrite Nat.add_0_r.
      exists (pos + (length (ds ++ t) - length t)).
      destruct (ds ++ t) eqn:Es; cbn [search_from];
        rewrite <- Es, (number_pattern_takes_run t Hne Hds Ht);
        rewrite ?Es; reflexivity.
    - cbn [app search_from length].
      rewrite number_pattern_needs_digit by exact Hc.
      destruct (IH (S pos)) as (e & He). exists e. rewrite He.
      f_equal. f_equal. lia. }
  destruct (E 0) as (e & He). rewrite He.
  eexists. split; [reflexivity|].
  unfold group_text, group. cbn [m_caps get_cap Nat.eqb]. reflexivity.
Qed.

Lemma first_number_none (name : text) :
  Forall (fun c => Py.isdecimal c = false) name -> first_number name = None.
Proof.
  intros H. unfold first_number. now rewrite number_not_found.
Qed.

Lemma first_number_some (pre ds t : text) :
  Forall (fun c => Py.isdecimal c = false) pre ->
  ds <> [] ->
  Forall (fun c => Py.isdecimal c = true) ds ->
  match t with [] => True | c :: _ => Py.isdecimal c = false end ->
  first_number (pre ++ ds ++ t) = Some (Py.int_value ds).
Proof.
  intros Hpre Hne Hds Ht.
  destruct (number_found t Hpre Hne Hds Ht) as (mo & Hs & Hg).
  unfold first_number. now rewrite Hs, Hg.
Qed.

Lemma key_converts_some (pre ds t : text) :
  Forall (fun c => Py.isdecimal c = false) pre ->
  ds <> [] ->
  Forall (fun c => Py.isdecimal c = true) ds ->
  match t with [] => True | c :: _ => Py.isdecimal c = false end ->
  key_converts (pre ++ ds ++ t) = converts ds.
Proof.
  intros Hpre Hne Hds Ht.
  destruct (number_found t Hpre Hne Hds Ht) as (mo & Hs & Hg).
  unfold key_converts. now rewrite Hs, Hg.
Qed.

(** X11.  The sort key of a chapter is the first run of digits in its name,
    read as a number; a name without a digit has the key infinity; a run of
    more than 4300 digits raises [ValueError]. *)
Theorem sort_key_is_first_number (name : text) :
  (Forall (fun c => Py.isdecimal c = false) name -> chapter_sort_key name = Ok None)
  /\ (forall pre ds t,
         name = pre ++ ds ++ t ->
         Forall (fun c => Py.isdecimal c = false) pre ->
         ds <> [] ->
         Forall (fun c => Py.isdecimal c = true) ds ->
         match t with [] => True | c :: _ => Py.isdecimal c = false end ->
         chapter_sort_key name
         = if length ds <=? Py.max_str_digits then Ok (Some (Py.int_value ds))
           else Raise ValueError).
Proof.
  split.
  - intros H. unfold chapter_sort_key. now rewrite number_not_found.
  - intros pre ds t -> Hpre Hne Hds Ht.
    rewrite chapter_sort_key_checked, key_converts_some, first_number_some
      by assumption.
    reflexivity.
Qed.

Lemma sort_key_is_first_number_witness :
  chapter_sort_key (chars "Unit 12, part 3") = Ok (Some 12%N)
  /\ chapter_sort_key (chars "Ruin Theory") = Ok None.
Proof.
  split.
  - apply (proj2 (sort_key_is_first_number (chars "Unit 12, part 3"))
             (chars "Unit ") (chars "12") (chars ", part 3")).
    + reflexivity.
    + repeat constructor.
    + discriminate.
    + repeat constructor.
    + reflexivity.
  - apply (proj1 (sort_key_is_first_number (chars "Ruin Theory"))).
    repeat constructor.
Defined.

(** ** What the workbook prints *)

Lemma cell_texts_app (h : nat) (a b : list pdf_call) :
  cell_texts h (a ++ b) = cell_texts h a ++ cell_texts h b.
Proof. apply flat_map_app. Qed.

Lemma cell_texts_flat_map (A : Type) (h : nat) (f : A -> list pdf_call)
      (l : list A) :
  cell_texts h (flat_map f l) = flat_map (fun x => cell_texts h (f x)) l.
Proof.
  induction l as [|x l IH]; [reflexivity|].
  cbn [flat_map]. now rewrite cell_texts_app, IH.
Qed.

Lemma flat_map_nil (A B : Type) (f : A -> list B) (l : list A) :
  (forall x, f x = []) -> flat_map f l = [].
Proof.
  intros H. induction l as [|x l IH]; [reflexivity|].
  cbn [flat_map]. now rewrite H, IH.
Qed.

Lemma flat_map_single (A B : Type) (f : A -> B) (l : list A) :
  flat_map (fun x => [f x]) l = map f l.
Proof. induction l as [|x l IH]; [reflexivity|]. cbn [flat_map map app]. now f_equal. Qed.

Lemma flat_map_of_map (A B C : Type) (f : A -> list B) (g : B -> C) (l : list A) :
  flat_map (fun x => map g (f x)) l = map g (flat_map f l).
Proof.
  induction l as [|x l IH]; [reflexivity|]. cbn [flat_map]. now rewrite map_app, IH.
Qed.

(** A line of the content prints no cell of height 8 or 12. *)
Lemma render_line_cells (h : nat) (line : text) :
  h = 8 \/ h = 12 -> cell_texts h (render_line line) = [].
Proof.
  intros Hh. unfold render_line. cbv zeta.
  destruct (Py.strip line) as [|c l]; [reflexivity|].
  rewrite cell_texts_app.
  destruct (starts_with_option (chars "ABCD") (c :: l));
    [destruct Hh as [-> | ->]; reflexivity|].
  destruct (starts_with_run (chars "IVX") "." (c :: l));
    [destruct Hh as [-> | ->]; reflexivity|].
  destruct (starts_with_option (chars "abcd") (c :: l));
    [destruct Hh as [-> | ->]; reflexivity|].
  destruct (starts_with_run (chars "i") ")" (c :: l)); reflexivity.
Qed.

Lemma question_calls_cells (q : question) :
  cell_texts 8 (question_calls q) = [header_of q]
  /\ cell_texts 12 (question_calls q) = [].
Proof.
  unfold question_calls. rewrite !cell_texts_app, !cell_texts_flat_map.
  rewrite !flat_map_nil by (intros line; apply render_line_cells; auto).
  split; reflexivity.
Qed.

Lemma chapter_calls_cells (chapters : list (text * list question)) (ch : text) :
  cell_texts 8 (chapter_calls chapters ch)
  = map header_of (questions_of chapters ch)
  /\ cell_texts 12 (chapter_calls chapters ch) = [ch].
Proof.
  unfold chapter_calls. rewrite !cell_texts_app, !cell_texts_flat_map. split.
  - rewrite (flat_map_ext _ (fun q => [header_of q]))
      by (intros q; apply question_calls_cells).
    rewrite flat_map_single. cbn [cell_texts flat_map app Nat.eqb].
    now rewrite app_nil_r.
  - rewrite flat_map_nil by (intros q; apply question_calls_cells).
    reflexivity.
Qed.

Lemma filter_split (A : Type) (f : A -> bool) (l : list A) :
  Permutation l (filter f l ++ filter (fun x => negb (f x)) l).
Proof.
  induction l as [|x l IH]; [constructor|]. cbn [filter].
  destruct (f x); cbn [negb app].
  - now constructor.
  - now apply Permutation_cons_app.
Qed.

Lemma flat_map_ext_In (A B : Type) (f g : A -> list B) (l : list A) :
  (forall x, In x l -> f x = g x) -> flat_map f l = flat_map g l.
Proof.
  induction l as [|x l IH]; intros H; [reflexivity|]. cbn [flat_map].
  rewrite (H x (or_introl eq_refl)), IH; [reflexivity|].
  intros y Hy. apply H. now right.
Qed.

Lemma filter_other_chapter (k k' : text) (l : list question) :
  k' <> k ->
  filter (in_chapter k') (filter (fun q => negb (in_chapter k q)) l)
  = filter (in_chapter k') l.
Proof.
  intros Hne. induction l as [|q l IH]; [reflexivity|]. cbn [filter].
  destruct (in_chapter k q) eqn:E; cbn [negb filter].
  - assert (E' : in_chapter k' q = false).
    { unfold in_chapter in E |- *. apply text_eqb_eq in E.
      rewrite E. apply text_eqb_neq. congruence. }
    rewrite E'. exact IH.
  - now rewrite IH.
Qed.

(** Filing a list under distinct keys that cover it rearranges it. *)
Lemma filed_is_permutation (keys : list text) :
  forall l : list question,
    NoDup keys ->
    (forall q, In q l -> In (chapter_name q) keys) ->
    Permutation (flat_map (fun k => filter (in_chapter k) l) keys) l.
Proof.
  induction keys as [|k keys IH]; intros l Hnd Hcov.
  - destruct l as [|q l]; [constructor|]. destruct (Hcov q (or_introl eq_refl)).
  - inversion Hnd as [|? ? Hk Hnd']; subst. cbn [flat_map].
    transitivity (filter (in_chapter k) l ++ filter (fun q => negb (in_chapter k q)) l);
      [|symmetry; apply filter_split].
    apply Permutation_app_head.
    rewrite (flat_map_ext_In
               (fun k' => filter (in_chapter k') l)
               (fun k' => filter (in_chapter k')
                                 (filter (fun q => negb (in_chapter k q)) l))).
    + apply IH; [exact Hnd'|].
      intros q Hq. apply filter_In in Hq. destruct Hq as [Hq Hn].
      destruct (Hcov q Hq) as [E|H]; [|exact H].
      unfold in_chapter in Hn. rewrite <- E, text_eqb_refl in Hn. discriminate.
    + intros k' Hk'. symmetry. apply filter_other_chapter.
      intros ->. contradiction.
Qed.

(** The cells of a workbook that is generated without an exception. *)
Lemma workbook_calls_cells (questions : list question) (output_path : text) :
  let assigned := assigned_questions questions in
  let sorted_chapters := chapters_in_order (map fst (group_by_chapter assigned)) in
  cell_texts 12 (workbook_calls questions output_path) = sorted_chapters
  /\ cell_texts 8 (workbook_calls questions output_path)
     = map header_of (filed_in_order sorted_chapters assigned)
  /\ Permutation (filed_in_order sorted_chapters assigned) assigned.
Proof.
  unfold filed_in_order.
  cbv zeta.
  destruct (group_by_chapter_spec (assigned_questions questions))
    as (Hq & Hnd & Hk).
  assert (Hcells :
            forall h f,
              (forall ch, cell_texts h
                            (chapter_calls
                               (group_by_chapter (assigned_questions questions)) ch)
                          = f ch) ->
              (h = 8 \/ h = 12) ->
              cell_texts h (workbook_calls questions output_path)
              = flat_map f
                  (chapters_in_order
                     (map fst (group_by_chapter (assigned_questions questions))))).
  { intros h f Hf Hh. unfold workbook_calls. rewrite cell_texts_app.
    destruct (assigned_questions questions) as [|q l] eqn:E.
    - destruct Hh as [-> | ->]; reflexivity.
    - cbv zeta. rewrite cell_texts_app, cell_texts_flat_map.
      rewrite (flat_map_ext _ _ Hf).
      destruct Hh as [-> | ->]; cbn [cell_texts flat_map app Nat.eqb];
        now rewrite app_nil_r. }
  split; [|split].
  - rewrite (Hcells 12 (fun ch => [ch]));
      [ | intros ch; apply chapter_calls_cells | auto].
    rewrite flat_map_single. apply map_id.
  - rewrite (Hcells 8 (fun ch => map header_of
                                   (filter (in_chapter ch)
                                           (assigned_questions questions))));
      [ | intros ch; rewrite <- Hq; apply chapter_calls_cells | auto].
    apply flat_map_of_map.
  - apply filed_is_permutation.
    + eapply Permutation_NoDup; [apply chapters_in_order_perm | exact Hnd].
    + intros q Hin'. eapply Permutation_in; [apply chapters_in_order_perm|].
      apply Hk. exists q. split; [exact Hin' | reflexivity].
Qed.

Lemma header_text_checked (q : question) :
  header_text q = if number_prints q then Ok (header_of q) else Raise ValueError.
Proof.
  unfold header_text, number_prints, header_of, Py.str_int.
  destruct (length (Py.decimal (question_number q)) <=? Py.max_str_digits);
    reflexivity.
Qed.

Lemma render_question_checked (q : question) :
  render_question q
  = if number_prints q then Ok (question_calls q) else Raise ValueError.
Proof.
  unfold render_question. rewrite header_text_checked.
  destruct (number_prints q); reflexivity.
Qed.

Lemma render_chapter_checked (chapters : list (text * list question)) (ch : text) :
  render_chapter chapters ch
  = if forallb number_prints (questions_of chapters ch)
    then Ok (chapter_calls chapters ch) else Raise ValueError.
Proof.
  unfold render_chapter.
  rewrite (@map_result_checked _ _ _ number_prints question_calls)
    by (intros q _; apply render_question_checked).
  destruct (forallb number_prints (questions_of chapters ch)); cbn [bind];
    [|reflexivity].
  unfold chapter_calls. now rewrite flat_map_concat_map.
Qed.

(** The generation raises when a chapter key does not convert or the
    number of a question does not print, and otherwise makes the calls of
    [workbook_calls]. *)
Lemma generate_workbook_checked (questions : list question) (output_path : text) :
  generate_workbook questions output_path
  = if workbook_converts questions then Ok (workbook_calls questions output_path)
    else Raise ValueError.
Proof.
  unfold generate_workbook, workbook_converts, workbook_calls. cbv zeta.
  destruct (assigned_questions questions) as [|q0 l] eqn:E; [reflexivity|].
  rewrite sort_chapters_checked.
  destruct (forallb key_converts (map fst (group_by_chapter (q0 :: l))));
    cbn [bind andb]; [|reflexivity].
  rewrite (@map_result_checked _ _ _
             (fun ch => forallb number_prints
                                (questions_of (group_by_chapter (q0 :: l)) ch))
             (chapter_calls (group_by_chapter (q0 :: l))))
    by (intros ch _; apply render_chapter_checked).
  destruct (forallb _ (chapters_in_order (map fst (group_by_chapter (q0 :: l)))));
    cbn [bind]; [|reflexivity].
  now rewrite flat_map_concat_map.
Qed.

Lemma generate_workbook_returns (questions : list question) (output_path : text)
      (calls : list pdf_call) :
  generate_workbook questions output_path = Ok calls ->
  workbook_converts questions = true
  /\ calls = workbook_calls questions output_path.
Proof.
  rewrite generate_workbook_checked.
  destruct (workbook_converts questions); [|discriminate].
  intros [= <-]. auto.
Qed.

(** In a workbook that converts, the sort returns and the number of every
    question of the workbook prints. *)
Lemma workbook_converts_parts (questions : list question) :
  workbook_converts questions = true ->
  let assigned := assigned_questions questions in
  let sorted_chapters := chapters_in_order (map fst (group_by_chapter assigned)) in
  sort_chapters (map fst (group_by_chapter assigned)) = Ok sorted_chapters
  /\ Forall (fun q => number_prints q = true)
            (filed_in_order sorted_chapters assigned).
Proof.
  unfold workbook_converts. cbv zeta. intros H.
  apply andb_true_iff in H. destruct H as [Hk Hp].
  split; [rewrite sort_chapters_checked, Hk; reflexivity|].
  destruct (group_by_chapter_spec (assigned_questions questions)) as (Hq & _ & _).
  rewrite forallb_forall in Hp.
  apply Forall_forall. intros q Hin. unfold filed_in_order in Hin.
  apply in_flat_map in Hin. destruct Hin as (ch & Hch & Hin).
  specialize (Hp ch Hch). rewrite forallb_forall in Hp.
  apply Hp. now rewrite Hq.
Qed.

(** X12.  The workbook prints, as cells of height 12, the chapters in their
    sorted order, and as cells of height 8 one header for every assigned
    question, chapter after chapter and in the order of the input inside a
    chapter; a question that is not assigned is not printed. *)
Theorem workbook_prints_assigned_questions (questions : list question)
        (output_path : text) (calls : list pdf_call) :
  generate_workbook questions output_path = Ok calls ->
  let assigned := assigned_questions questions in
  exists sorted_chapters,
    sort_chapters (map fst (group_by_chapter assigned)) = Ok sorted_chapters
    /\ cell_texts 12 calls = sorted_chapters
    /\ Forall2 (fun q header => header_text q = Ok header)
               (filed_in_order sorted_chapters assigned)
               (cell_texts 8 calls)
    /\ Permutation (filed_in_order sorted_chapters assigned) assigned.
Proof.
  intros Hok. cbv zeta.
  apply generate_workbook_returns in Hok. destruct Hok as [Hconv ->].
  destruct (workbook_converts_parts questions Hconv) as [Hsort Hprint].
  destruct (workbook_calls_cells questions output_path) as (H12 & H8 & Hperm).
  eexists. split; [exact Hsort|]. split; [exact H12|]. split; [|exact Hperm].
  rewrite H8. clear - Hprint.
  induction Hprint as [|q l Hq _ IH]; cbn [map]; constructor; [|exact IH].
  now rewrite header_text_checked, Hq.
Qed.

Lemma workbook_prints_assigned_questions_witness :
  exists sorted_chapters,
    sort_chapters (map fst (group_by_chapter (assigned_questions labelled_questions)))
    = Ok sorted_chapters
    /\ cell_texts 12 (workbook_calls labelled_questions (chars "temp_workbook.pdf"))
       = sorted_chapters
    /\ Forall2 (fun q header => header_text q = Ok header)
               (filed_in_order sorted_chapters (assigned_questions labelled_questions))
               (cell_texts 8 (workbook_calls labelled_questions
                                (chars "temp_workbook.pdf")))
    /\ Permutation
         (filed_in_order sorted_chapters (assigned_questions labelled_questions))
         (assigned_questions labelled_questions).
Proof.
  apply (@workbook_prints_assigned_questions labelled_questions
           (chars "temp_workbook.pdf")
           (workbook_calls labelled_questions (chars "temp_workbook.pdf"))).
  vm_compute. reflexivity.
Defined.

(** ** Numbered chapters *)

Lemma numbered_chapter_number (i : nat) :
  first_number (chars "Chapter " ++ Py.str i) = Some (N.of_nat i).
Proof.
  destruct (int_str i) as (Hint & Hne & Hds). rewrite <- Hint.
  rewrite <- (app_nil_r (Py.str i)) at 1.
  apply first_number_some; auto. repeat constructor.
Qed.

Lemma numbered_chapter_converts (i : nat) :
  key_converts (chars "Chapter " ++ Py.str i) = converts (Py.str i).
Proof.
  destruct (int_str i) as (_ & Hne & Hds).
  rewrite <- (app_nil_r (Py.str i)) at 1.
  apply key_converts_some; auto. repeat constructor.
Qed.

(** A greater number is not written with fewer digits. *)
Lemma string_of_uint_length (d : Decimal.uint) :
  length (chars (NilEmpty.string_of_uint d)) = Decimal.nb_digits d.
Proof.
  unfold chars.
  induction d;
    cbn [NilEmpty.string_of_uint list_ascii_of_string length Decimal.nb_digits];
    congruence.
Qed.

Lemma succ_digits (d : Decimal.uint) :
  Decimal.nb_digits d <= Decimal.nb_digits (Decimal.Little.succ d).
Proof. induction d; cbn [Decimal.nb_digits Decimal.Little.succ]; lia. Qed.

Lemma str_length_succ (n : nat) : length (Py.str n) <= length (Py.str (S n)).
Proof.
  unfold Py.str. rewrite !string_of_uint_length, !Unsigned.to_uint_alt.
  rewrite !DecimalFacts.nb_digits_rev, Unsigned.to_lu_succ. apply succ_digits.
Qed.

Lemma str_length_mono (i n : nat) :
  i <= n -> length (Py.str i) <= length (Py.str n).
Proof.
  induction 1 as [|n _ IH]; [lia|].
  pose proof (str_length_succ n). lia.
Qed.

Lemma sorted_strictly (A : Type) (R R' : A -> A -> Prop) (l : list A) :
  StronglySorted R l ->
  NoDup l ->
  (forall a b, In a l -> In b l -> R a b -> a <> b -> R' a b) ->
  StronglySorted R' l.
Proof.
  induction 1 as [|a l Hs IH Ha]; intros Hnd Hr; [constructor|].
  inversion Hnd as [|? ? Hna Hnd']; subst. constructor.
  - apply IH; [exact Hnd'|]. intros x y Hx Hy. apply Hr; now right.
  - rewrite Forall_forall in Ha |- *. intros b Hb.
    apply Hr; [now left | now right | now apply Ha |].
    intros ->. contradiction.
Qed.

(** X13.  The chapters "Chapter 1" to "Chapter n", for a number [n] of at
    most 4300 digits, come out of the sort in the order of their numbers, in
    whatever order they went in: "Chapter 10" follows "Chapter 9" and does
    not come before "Chapter 2". *)
Theorem numbered_chapters_in_numeric_order (n : nat) (l : list text) :
  length (Py.str n) <= Py.max_str_digits ->
  Permutation l (numbered_chapter_names n) ->
  sort_chapters l = Ok (numbered_chapter_names n).
Proof.
  intros Hn Hp.
  rewrite sort_chapters_checked.
  assert (Hconv : forallb key_converts l = true).
  { apply forallb_forall. intros c Hc.
    apply (Permutation_in _ Hp) in Hc.
    unfold numbered_chapter_names in Hc. apply in_map_iff in Hc.
    destruct Hc as (i & <- & Hi). apply in_seq in Hi.
    rewrite numbered_chapter_converts. unfold converts. apply Nat.leb_le.
    pose proof (@str_length_mono i n). lia. }
  rewrite Hconv. f_equal.
  set (f := fun c => match first_number c with
                     | Some k => N.to_nat k
                     | None => 0
                     end).
  assert (Hf : forall i, f (chars "Chapter " ++ Py.str i) = i).
  { intros i. unfold f. rewrite numbered_chapter_number. apply Nat2N.id. }
  assert (Hnames : StronglySorted (fun a b => f a < f b) (numbered_chapter_names n)).
  { clear - Hf. unfold numbered_chapter_names. generalize 1.
    induction n as [|n IH]; intros s.
    - constructor.
    - cbn [seq map]. constructor; [apply IH|].
      apply Forall_forall. intros c Hc. apply in_map_iff in Hc.
      destruct Hc as (i & <- & Hi). apply in_seq in Hi.
      rewrite !Hf. lia. }
  assert (Hin : forall c, In c (numbered_chapter_names n) ->
                          exists i, c = chars "Chapter " ++ Py.str i).
  { intros c Hc. unfold numbered_chapter_names in Hc. apply in_map_iff in Hc.
    destruct Hc as (i & <- & _). now exists i. }
  assert (Hnd : NoDup (numbered_chapter_names n)).
  { clear - Hnames. induction Hnames as [|a l Hs IH Ha]; constructor; [|exact IH].
    intros Hina. rewrite Forall_forall in Ha. specialize (Ha a Hina). lia. }
  assert (Hps : Permutation (chapters_in_order l) (numbered_chapter_names n)).
  { rewrite <- Hp. symmetry. apply chapters_in_order_perm. }
  apply sorted_perm_unique with (f := f); [|exact Hnames|exact Hps].
  apply sorted_strictly with (R := key_le).
  - apply chapters_in_order_sorted.
  - eapply Permutation_NoDup; [symmetry; exact Hps | exact Hnd].
  - intros a b Ha Hb Hle Hne.
    destruct (Hin a (Permutation_in _ Hps Ha)) as (i & ->).
    destruct (Hin b (Permutation_in _ Hps Hb)) as (j & ->).
    unfold key_le in Hle. rewrite !numbered_chapter_number in Hle.
    cbn [key_leb] in Hle. apply N.leb_le in Hle. rewrite !Hf.
    assert (i <> j) by congruence. lia.
Qed.

Lemma numbered_chapters_in_numeric_order_witness :
  sort_chapters (chars "Chapter 10" :: numbered_chapter_names 9)
  = Ok (numbered_chapter_names 10).
Proof.
  apply numbered_chapters_in_numeric_order.
  - apply Nat.leb_le. vm_compute. reflexivity.
  - change (numbered_chapter_names 10)
      with (numbered_chapter_names 9 ++ [chars "Chapter 10"]).
    apply Permutation_cons_append.
Defined.

(** ** Before any assignment *)

Lemma nothing_assigned (questions : list question) :
  Forall (fun q => chapter q = None) questions ->
  assigned_questions questions = [].
Proof.
  induction 1 as [|q l Hq _ IH]; [reflexivity|].
  unfold assigned_questions in *. cbn [filter]. unfold is_assigned at 1.
  now rewrite Hq.
Qed.

Lemma records_without_chapter (pdf : document) :
  Forall (fun q => chapter q = None) (records_of pdf).
Proof.
  apply Forall_forall. intros q Hin. apply make_questions_In in Hin.
  destruct Hin as (b & p & r & _ & Hmk).
  destruct (make_question_Some _ _ _ _ Hmk) as [_ ->]. reflexivity.
Qed.

(** X14.  A workbook generated from the questions as they come out of the
    extraction, or after [reset_assignments], holds the title and the notice
    that no question is assigned, and no chapter or question; the reset
    leaves no question assigned. *)
Theorem workbook_without_assignment (pdf : document) (questions : list question)
        (output_path : text) :
  (forall extracted,
      extract_questions_with_year pdf = Ok extracted ->
      generate_workbook extracted output_path = Ok (empty_workbook output_path))
  /\ generate_workbook (reset_assignments questions) output_path
     = Ok (empty_workbook output_path)
  /\ assigned_count (reset_assignments questions) = 0
  /\ (forall extracted,
         extract_questions_with_year pdf = Ok extracted ->
         assigned_count extracted = 0).
Proof.
  assert (Hreset : Forall (fun q => chapter q = None) (reset_assignments questions)).
  { unfold reset_assignments. apply Forall_forall. intros q Hq.
    apply in_map_iff in Hq. destruct Hq as (q0 & <- & _). reflexivity. }
  pose proof (nothing_assigned (records_without_chapter pdf)) as E1.
  pose proof (nothing_assigned Hreset) as E2.
  unfold generate_workbook, assigned_count.
  fold (assigned_questions (reset_assignments questions)).
  rewrite E2. split; [|split; [reflexivity|split; [reflexivity|]]].
  - intros extracted Hok. apply extract_returns in Hok. destruct Hok as [_ ->].
    now rewrite E1.
  - intros extracted Hok. apply extract_returns in Hok. destruct Hok as [_ ->].
    fold (assigned_questions (records_of pdf)). now rewrite E1.
Qed.

(** ** Bulk assignment *)

(** X15.  Applying the bulk assignment a second time with the same mapping
    changes nothing. *)
Theorem bulk_assign_twice (questions : list question)
        (keyword_mapping : list (text * list text)) :
  bulk_assign_by_keywords (bulk_assign_by_keywords questions keyword_mapping)
                          keyword_mapping
  = bulk_assign_by_keywords questions keyword_mapping.
Proof.
  unfold bulk_assign_by_keywords. rewrite map_map. apply map_ext. intros q.
  rewrite !assign_one_find.
  destruct (find (chapter_matches (question_preview q)) keyword_mapping)
    as [item|] eqn:E.
  - cbn [set_chapter question_preview]. rewrite E. reflexivity.
  - rewrite E. reflexivity.
Qed.

(** X16.  When no chapter of the mapping is the empty text or the placeholder
    of the selector, the bulk assignment takes no question out of the
    assigned ones: every question that was assigned stays assigned, and the
    number of assigned questions does not go down. *)
Theorem bulk_assign_keeps_assigned (questions : list question)
        (keyword_mapping : list (text * list text)) :
  Forall (fun item => fst item <> [] /\ fst item <> select_chapter)
         keyword_mapping ->
  Forall2 (fun q q' => is_assigned q = true -> is_assigned q' = true)
          questions (bulk_assign_by_keywords questions keyword_mapping)
  /\ assigned_count questions
     <= assigned_count (bulk_assign_by_keywords questions keyword_mapping).
Proof.
  intros Hm.
  assert (Hone : forall q,
             is_assigned q = true ->
             is_assigned (assign_one q (Py.lower (question_preview q))
                                     keyword_mapping) = true).
  { intros q Hq. rewrite assign_one_find.
    destruct (find (chapter_matches (question_preview q)) keyword_mapping)
      as [item|] eqn:E; [|exact Hq].
    apply find_some in E. destruct E as [Hin _].
    rewrite Forall_forall in Hm. destruct (Hm item Hin) as [Hne Hsel].
    unfold is_assigned. cbn [set_chapter chapter].
    destruct (fst item) as [|c t] eqn:Ef; [exfalso; exact (Hne Ef)|].
    rewrite text_eqb_neq; [reflexivity|]. intros E'. apply Hsel.
    exact (eq_trans Ef E'). }
  unfold bulk_assign_by_keywords, assigned_count. split.
  - induction questions as [|q l IH]; cbn [map]; constructor; auto.
  - induction questions as [|q l IH]; cbn [map filter]; [lia|].
    destruct (is_assigned q) eqn:Eq.
    + rewrite (Hone q Eq). cbn [length]. apply le_n_S, IH.
    + destruct (is_assigned
                  (assign_one q (Py.lower (question_preview q)) keyword_mapping));
        cbn [length]; [apply le_S, IH | apply IH].
Qed.

Lemma bulk_assign_keeps_assigned_witness :
  assigned_count labelled_questions
  <= assigned_count (bulk_assign_by_keywords labelled_questions sample_mapping).
Proof.
  apply bulk_assign_keeps_assigned.
  repeat (apply Forall_cons; [split; discriminate|]). apply Forall_nil.
Defined.

(** * Properties of the application *)

(** ** Chapter names typed by the user *)

(** X17.  Every custom chapter name is non-empty, has no white space at its
    ends and no line feed inside, whatever is typed into the field. *)
Theorem custom_chapter_names_are_clean (chapter_names_input : text) :
  Forall (fun name => name <> [] /\ Py.strip name = name /\ ~ In nl name)
         (custom_chapter_names chapter_names_input).
Proof.
  unfold custom_chapter_names. apply Forall_forall. intros name Hin.
  apply in_map_iff in Hin. destruct Hin as (raw & <- & Hraw).
  apply filter_In in Hraw. destruct Hraw as [Hraw Hne].
  split; [|split].
  - destruct (Py.strip raw); [discriminate Hne | discriminate].
  - apply strip_idempotent.
  - intros Hnl. apply strip_incl in Hnl.
    pose proof (proj2 (split_no_sep nl chapter_names_input)) as Hs.
    rewrite Forall_forall in Hs. exact (Hs raw Hraw Hnl).
Qed.

(** ** A keyword field that ends with a comma *)

Lemma find_first_match (A : Type) (f : A -> bool) (before after : list A) (x : A) :
  f x = true ->
  exists y, find f (before ++ x :: after) = Some y /\ In y (before ++ [x]).
Proof.
  intros Hx. induction before as [|b before IH]; cbn [app find].
  - rewrite Hx. exists x. split; [reflexivity | now left].
  - destruct (f b); [exists b; split; [reflexivity | now left]|].
    destruct IH as (y & Hy & Hin). exists y. split; [exact Hy | now right].
Qed.

(** X18.  The keywords read from a field that ends with a comma include the
    empty keyword, and the empty keyword is found in every preview: with
    such a field for the chapter [ch], the bulk assignment gives every
    question the chapter [ch] or a chapter that comes before it in the
    mapping, and never reaches the chapters after it. *)
Theorem trailing_comma_matches_everything
        (typed ch : text) (before after : list (text * list text))
        (questions : list question) :
  let keyword_mapping :=
    before ++ (ch, parse_keywords (typed ++ [","%char])) :: after in
  In [] (parse_keywords (typed ++ [","%char]))
  /\ Forall (fun q => exists item,
                 In item (before ++ [(ch, parse_keywords (typed ++ [","%char]))])
                 /\ chapter q = Some (fst item))
            (bulk_assign_by_keywords questions keyword_mapping).
Proof.
  cbv zeta.
  assert (Hempty : In [] (parse_keywords (typed ++ [","%char]))).
  { unfold parse_keywords. rewrite split_snoc, map_app.
    apply in_or_app. right. now left. }
  split; [exact Hempty|].
  unfold bulk_assign_by_keywords. apply Forall_forall. intros q' Hq'.
  apply in_map_iff in Hq'. destruct Hq' as (q & <- & _).
  rewrite assign_one_find.
  destruct (@find_first_match _ (chapter_matches (question_preview q)) before after
              (ch, parse_keywords (typed ++ [","%char])))
    as (item & Hfind & Hin).
  - unfold chapter_matches. cbn [snd]. apply existsb_exists.
    exists []. split; [exact Hempty|].
    cbn [Py.lower map]. now destruct (Py.lower (question_preview q)).
  - rewrite Hfind. exists item. split; [exact Hin | reflexivity].
Qed.

(** ** The pages of the assignment view *)

Lemma firstn_add (A : Type) (a b : nat) :
  forall l : list A, firstn (a + b) l = firstn a l ++ firstn b (skipn a l).
Proof.
  induction a as [|a IH]; intros l; [reflexivity|].
  destruct l as [|x l]; cbn [Nat.add firstn skipn app].
  - now rewrite firstn_nil.
  - now rewrite IH.
Qed.

Lemma page_questions_chunk (l : list question) (per p : nat) :
  page_questions l per p = firstn per (skipn (p * per) l).
Proof.
  unfold page_questions. cbv zeta.
  destruct (Nat.le_gt_cases (p * per + per) (length l)) as [H|H].
  - rewrite Nat.min_l by exact H. f_equal. lia.
  - rewrite Nat.min_r by lia.
    rewrite !firstn_all2; [reflexivity| |]; rewrite length_skipn; lia.
Qed.

Lemma pages_chunks (l : list question) (per : nat) (pages : nat) :
  concat (map (page_questions l per) (seq 0 pages)) = firstn (pages * per) l.
Proof.
  induction pages as [|pages IH]; [reflexivity|].
  rewrite seq_S, map_app, concat_app, IH. cbn [Nat.add map concat].
  rewrite app_nil_r, page_questions_chunk.
  replace (S pages * per) with (pages * per + per) by lia.
  now rewrite firstn_add.
Qed.

(** X19.  The pages of the assignment view cut the filtered list into
    consecutive pieces: put one after the other they give the list back, and
    every page holds at least one and at most [questions_per_page]
    questions. *)
Theorem pages_cover_the_filtered_list (filtered_questions : list question)
        (questions_per_page : nat) :
  0 < questions_per_page ->
  let pages := total_pages (length filtered_questions) questions_per_page in
  concat (map (page_questions filtered_questions questions_per_page) (seq 0 pages))
  = filtered_questions
  /\ forall page_num,
      page_num < pages ->
      0 < length (page_questions filtered_questions questions_per_page page_num)
      <= questions_per_page.
Proof.
  intros Hper. cbv zeta. unfold total_pages.
  set (n := length filtered_questions).
  destruct (Nat.ltb_spec 0 n) as [Hn|Hn].
  - assert (Hup : n - 1 < questions_per_page * S ((n - 1) / questions_per_page))
      by (apply Nat.mul_succ_div_gt; lia).
    assert (Hdown : questions_per_page * ((n - 1) / questions_per_page) <= n - 1)
      by (apply Nat.Div0.mul_div_le).
    split.
    + rewrite pages_chunks. apply firstn_all2. fold n. nia.
    + intros p Hp. rewrite page_questions_chunk.
      rewrite length_firstn, length_skipn. fold n.
      assert (p * questions_per_page <= n - 1) by nia.
      lia.
  - split; [|intros p Hp; lia].
    cbn [seq map concat]. destruct filtered_questions; [reflexivity|].
    unfold n in Hn. cbn [length] in Hn. lia.
Qed.

Lemma pages_cover_the_filtered_list_witness :
  concat (map (page_questions labelled_questions 5)
              (seq 0 (total_pages (length labelled_questions) 5)))
  = labelled_questions.
Proof.
  apply (pages_cover_the_filtered_list labelled_questions (questions_per_page := 5)).
  lia.
Defined.

(** ** Finding a question again *)

Lemma original_idx_from_spec (questions : list question) (q : question) :
  forall start j,
    nth_error questions j = Some q ->
    exists i orig_q,
      original_idx_from questions q start = Some (start + i)
      /\ i <= j
      /\ nth_error questions i = Some orig_q
      /\ question_number orig_q = question_number q
      /\ page orig_q = page q
      /\ (forall k earlier,
             k < i ->
             nth_error questions k = Some earlier ->
             question_number earlier <> question_number q
             \/ page earlier <> page q)
      /\ (NoDup (map (fun o => (question_number o, page o)) questions) -> i = j).
Proof.
  induction questions as [|o rest IH]; intros start j Hj.
  - destruct j; discriminate Hj.
  - cbn [original_idx_from].
    destruct ((question_number o =? question_number q)%N && (page o =? page q))
      eqn:E.
    + apply andb_true_iff in E. destruct E as [En Ep].
      apply N.eqb_eq in En. apply Nat.eqb_eq in Ep.
      exists 0, o. rewrite Nat.add_0_r.
      split; [reflexivity|]. split; [lia|]. split; [reflexivity|].
      split; [exact En|]. split; [exact Ep|]. split; [intros k earlier Hk; lia|].
      intros Hnd. destruct j as [|j]; [reflexivity|]. exfalso.
      cbn [map] in Hnd. inversion Hnd as [|? ? Hno _]; subst. apply Hno.
      cbn [nth_error] in Hj. apply nth_error_In in Hj.
      rewrite En, Ep. now apply (in_map (fun o => (question_number o, page o))).
    + destruct j as [|j].
      * cbn [nth_error] in Hj. injection Hj as ->.
        rewrite N.eqb_refl, Nat.eqb_refl in E. discriminate E.
      * cbn [nth_error] in Hj.
        destruct (IH (S start) j Hj)
          as (i & oq & Hi & Hle & Hnth & Hnum & Hpage & Hfirst & Hu).
        exists (S i), oq.
        split; [rewrite Hi; f_equal; lia|]. split; [lia|].
        split; [exact Hnth|]. split; [exact Hnum|]. split; [exact Hpage|]. split.
        -- intros [|k] earlier Hk Hk'; cbn [nth_error] in Hk'.
           ++ injection Hk' as <-. apply andb_false_iff in E.
              destruct E as [E|E]; [left; now apply N.eqb_neq | right; now apply Nat.eqb_neq].
           ++ apply (Hfirst k earlier); [lia | exact Hk'].
        -- intros Hnd. cbn [map] in Hnd. inversion Hnd; subst. f_equal. auto.
Qed.

(** X20.  The look-up that finds a displayed question in the list of all
    questions returns the index of the first question with the same number
    and page: the question at that index has them, and no question before it
    has both; it is the index of the displayed question itself when no two
    questions share number and page. *)
Theorem original_idx_finds_first (questions : list question) (q : question)
        (j : nat) :
  nth_error questions j = Some q ->
  exists i orig_q,
    original_idx questions q = Some i
    /\ i <= j
    /\ nth_error questions i = Some orig_q
    /\ question_number orig_q = question_number q
    /\ page orig_q = page q
    /\ (forall k earlier,
           k < i ->
           nth_error questions k = Some earlier ->
           question_number earlier <> question_number q \/ page earlier <> page q)
    /\ (NoDup (map (fun o => (question_number o, page o)) questions) -> i = j).
Proof.
  intros Hj. unfold original_idx.
  destruct (original_idx_from_spec questions 0 j Hj) as (i & o & H).
  exists i, o. exact H.
Qed.

Lemma original_idx_finds_first_witness :
  original_idx alike_questions
    (Question 7 (chars "Define a martingale.") (chars "Q. 7) Define a martingale.")
       (chars "5") None (chars "2024") 4)
  = Some 0.
Proof.
  destruct (@original_idx_finds_first alike_questions
              (Question 7 (chars "Define a martingale.")
                 (chars "Q. 7) Define a martingale.")
                 (chars "5") None (chars "2024") 4)
              1 eq_refl) as (i & o & Hi & _ & _ & _ & _ & Hfirst & _).
  destruct i as [|i]; [exact Hi|]. exfalso.
  destruct (Hfirst 0 (Question 7 (chars "State the CAPM assumptions.")
                        (chars "Q. 7) State the CAPM assumptions.")
                        (chars "5") None (chars "2024") 4))
    as [H|H]; [lia | reflexivity | | ]; apply H; reflexivity.
Defined.

(** ** The views of the assignment *)

Lemma is_unassigned_not_assigned (q : question) :
  is_unassigned q = negb (is_assigned q).
Proof.
  unfold is_unassigned, is_assigned.
  destruct (chapter q) as [[|c t]|]; try reflexivity.
  now rewrite negb_involutive.
Qed.

(** X21.  The "Unassigned" view and the questions that go into the workbook
    share no question and together hold every question: the count of the
    assigned ones and the size of the "Unassigned" view add up to the number
    of questions; without a filter the view shows all questions in order. *)
Theorem views_partition_the_questions (questions : list question) :
  Permutation (apply_filters questions (chars "Unassigned") (chars "All")
               ++ assigned_questions questions) questions
  /\ (forall q, In q (apply_filters questions (chars "Unassigned") (chars "All")) ->
                is_assigned q = false)
  /\ length (apply_filters questions (chars "Unassigned") (chars "All"))
     + assigned_count questions = length questions
  /\ apply_filters questions (chars "All") (chars "All") = questions.
Proof.
  assert (E : apply_filters questions (chars "Unassigned") (chars "All")
              = filter (fun q => negb (is_assigned q)) questions).
  { unfold apply_filters.
    change (text_eqb (chars "Unassigned") (chars "Unassigned")) with true.
    change (text_eqb (chars "All") (chars "All")) with true.
    cbv zeta. cbn [negb]. apply filter_ext. intros q.
    apply is_unassigned_not_assigned. }
  pose proof (filter_split is_assigned questions) as Hp.
  split; [|split; [|split]].
  - rewrite E. rewrite Permutation_app_comm. symmetry. exact Hp.
  - intros q Hq. rewrite E in Hq. apply filter_In in Hq.
    destruct Hq as [_ Hq]. now apply negb_true_iff in Hq.
  - rewrite E. unfold assigned_count. apply Permutation_length in Hp.
    rewrite length_app in Hp. lia.
  - reflexivity.
Qed.

(** ** The summary *)

Lemma count_year_total (years : list (text * nat)) (y : text) :
  fold_right Nat.add 0 (map snd (count_year years y))
  = S (fold_right Nat.add 0 (map snd years)).
Proof.
  induction years as [|[k n] rest IH]; cbn [count_year]; [reflexivity|].
  destruct (text_eqb k y); cbn [map snd fold_right]; [lia|].
  rewrite IH. lia.
Qed.

Lemma chapter_total_count (summary_data : list (text * list (text * nat)))
      (ch y k : text) :
  chapter_total (count_chapter summary_data ch y) k
  = chapter_total summary_data k + (if text_eqb ch k then 1 else 0).
Proof.
  unfold chapter_total.
  induction summary_data as [|[k' years] rest IH]; cbn [count_chapter years_of].
  - destruct (text_eqb ch k); reflexivity.
  - destruct (text_eq_dec k' ch) as [->|Hne].
    + rewrite text_eqb_refl. cbn [years_of].
      destruct (text_eqb ch k); [rewrite count_year_total; lia | lia].
    + rewrite (text_eqb_neq Hne). cbn [years_of].
      destruct (text_eq_dec k' k) as [->|Hne'].
      * rewrite text_eqb_refl. rewrite text_eqb_neq by congruence. lia.
      * rewrite (text_eqb_neq Hne'). exact IH.
Qed.

(** X22.  The number of questions that the summary shows for a chapter is the
    number of assigned questions with that chapter, the number of headers
    the workbook prints under it. *)
Theorem summary_counts_the_chapter (questions : list question) (k : text) :
  chapter_total (summarize questions) k
  = length (filter (in_chapter k) (assigned_questions questions))
  /\ chapter_total (summarize questions) k
     = length (questions_of (group_by_chapter (assigned_questions questions)) k).
Proof.
  assert (H : forall l summary_data,
             chapter_total
               (fold_left (fun s q => count_chapter s (chapter_name q) (year q))
                          l summary_data) k
             = chapter_total summary_data k + length (filter (in_chapter k) l)).
  { induction l as [|q l IH]; intros s; cbn [fold_left filter length]; [lia|].
    rewrite IH, chapter_total_count. unfold in_chapter at 2.
    destruct (text_eqb (chapter_name q) k); cbn [length]; lia. }
  unfold summarize. rewrite H.
  rewrite (proj1 (group_by_chapter_spec (assigned_questions questions))).
  split; reflexivity.
Qed.

(** ** The preview *)

Lemma sub_from_incl (ci : bool) (r : regex) (c : ascii) (s : text) :
  forall skip, In c (sub_from ci r [] skip s) -> In c s.
Proof.
  induction s as [|x s IH]; intros skip H.
  - destruct skip; cbn [sub_from] in H; [|contradiction].
    destruct (match_at ci r []) as [[rest cs]|]; cbn [app] in H;
      [destruct (length (@nil ascii) - length rest)|]; contradiction.
  - destruct skip as [|n]; cbn [sub_from] in H; [|right; eapply IH; exact H].
    destruct (match_at ci r (x :: s)) as [[rest cs]|]; cbn [app] in H.
    + destruct (length (x :: s) - length rest).
      * destruct H as [<-|H]; [now left | right; eapply IH; exact H].
      * right. eapply IH. exact H.
    + destruct H as [<-|H]; [now left | right; eapply IH; exact H].
Qed.

Lemma split_head (sep c : ascii) (s : text) :
  c <> sep -> exists l ls, Py.split sep (c :: s) = (c :: l) :: ls.
Proof.
  intros Hc. cbn [Py.split].
  destruct (Ascii.eqb_spec c sep) as [E|_]; [contradiction|].
  destruct (Py.split sep s) as [|l ls]; eauto.
Qed.

Lemma firstn_incl (A : Type) (x : A) (l : list A) :
  forall n, In x (firstn n l) -> In x l.
Proof.
  induction l as [|y l IH]; intros [|n] H; cbn [firstn] in H; try contradiction.
  destruct H as [<-|H]; [now left | right; eapply IH; exact H].
Qed.

Lemma shorten_keeps_line (s : text) :
  s <> [] -> ~ In nl s -> shorten s <> [] /\ ~ In nl (shorten s).
Proof.
  intros Hne Hnl. unfold shorten.
  destruct (150 <? length s); [|auto]. split.
  - destruct s; [congruence | discriminate].
  - intros H. apply in_app_or in H. destruct H as [H|H].
    + apply Hnl. eapply firstn_incl. exact H.
    + cbn in H. intuition discriminate.
Qed.

Lemma clean_line_no_line_feed (line : text) :
  ~ In nl line -> ~ In nl (clean_line line).
Proof.
  intros Hnl H. apply Hnl. unfold clean_line in H.
  apply strip_incl in H. unfold sub in H. eapply sub_from_incl. exact H.
Qed.

(** X23.  The preview of every record is one line: it is not empty and holds
    no line feed. *)
Theorem preview_is_one_line (pdf : document) (questions : list question)
        (q : question) :
  extract_questions_with_year pdf = Ok questions ->
  In q questions ->
  question_preview q <> [] /\ ~ In nl (question_preview q).
Proof.
  intros Hok Hin. apply extract_returns in Hok. destruct Hok as [_ ->].
  destruct (@content_begins_with_marker_lemma pdf q Hin) as (t & Hc).
  apply make_questions_In in Hin. destruct Hin as (b & p & r & _ & Hmk).
  destruct (make_question_Some _ _ _ _ Hmk) as [_ E]. rewrite E in Hc |- *.
  cbn [complete_content question_preview] in Hc |- *.
  rewrite preview_of_chosen_line.
  assert (Hch : chosen_line (clean_content (all_text_of pdf) p r) <> []
                /\ ~ In nl (chosen_line (clean_content (all_text_of pdf) p r))).
  { unfold chosen_line. cbv zeta. rewrite Hc.
    pose proof (proj2 (split_no_sep nl ("Q"%char :: "."%char :: t))) as Hs.
    destruct (find (fun l => 10 <? length l)
                   (map clean_line (Py.split nl ("Q"%char :: "."%char :: t))))
      as [l|] eqn:Ef.
    - apply find_some in Ef. destruct Ef as [Hl Ef]. apply Nat.ltb_lt in Ef. split.
      + destruct l; [cbn [length] in Ef; lia | discriminate].
      + apply in_map_iff in Hl. destruct Hl as (line & <- & Hline).
        apply clean_line_no_line_feed.
        rewrite Forall_forall in Hs. exact (Hs line Hline).
    - destruct (@split_head nl "Q" ("."%char :: t)) as (l & ls & El);
        [discriminate|].
      rewrite El in Hs |- *. cbn [hd]. split; [discriminate|].
      now inversion Hs. }
  apply shorten_keeps_line; apply Hch.
Qed.

Lemma preview_is_one_line_witness :
  chars "Explain ruin theory in detail." <> []
  /\ ~ In nl (chars "Explain ruin theory in detail.").
Proof.
  apply (@preview_is_one_line gap_pdf gap_questions
           (Question 2 (chars "Explain ruin theory in detail.")
              (chars "Q. 2) Explain ruin theory in detail.")
              (chars "Unknown") None (chars "Unknown") 3)).
  - vm_compute. reflexivity.
  - right. left. reflexivity.
Defined.

(** ** The lines of a question in the workbook *)

Lemma multi_cell_texts_app (a b : list pdf_call) :
  multi_cell_texts (a ++ b) = multi_cell_texts a ++ multi_cell_texts b.
Proof. apply flat_map_app. Qed.

Lemma multi_cell_texts_flat_map (A : Type) (f : A -> list pdf_call) (l : list A) :
  multi_cell_texts (flat_map f l) = flat_map (fun x => multi_cell_texts (f x)) l.
Proof.
  induction l as [|x l IH]; [reflexivity|].
  cbn [flat_map]. now rewrite multi_cell_texts_app, IH.
Qed.

Lemma render_line_text (line : text) :
  multi_cell_texts (render_line line)
  = if nonempty (Py.strip line) then [Py.strip line] else [].
Proof.
  unfold render_line. cbv zeta.
  destruct (Py.strip line) as [|c l]; [reflexivity|].
  rewrite multi_cell_texts_app, latin1_round_trip. cbn [nonempty].
  destruct (starts_with_option (chars "ABCD") (c :: l)); [reflexivity|].
  destruct (starts_with_run (chars "IVX") "." (c :: l)); [reflexivity|].
  destruct (starts_with_option (chars "abcd") (c :: l)); [reflexivity|].
  destruct (starts_with_run (chars "i") ")" (c :: l)); reflexivity.
Qed.

Lemma question_calls_lines (q : question) :
  multi_cell_texts (question_calls q) = printed_lines (complete_content q).
Proof.
  unfold question_calls, printed_lines.
  rewrite !multi_cell_texts_app, multi_cell_texts_flat_map.
  cbn [multi_cell_texts flat_map app]. rewrite app_nil_r.
  induction (Py.split nl (complete_content q)) as [|line lines IH]; [reflexivity|].
  cbn [flat_map map filter]. rewrite render_line_text, IH.
  now destruct (nonempty (Py.strip line)).
Qed.

Lemma flat_map_flat_map (A B C : Type) (f : A -> list B) (g : B -> list C)
      (l : list A) :
  flat_map g (flat_map f l) = flat_map (fun x => flat_map g (f x)) l.
Proof.
  induction l as [|x l IH]; [reflexivity|].
  cbn [flat_map]. now rewrite flat_map_app, IH.
Qed.

Lemma chapter_calls_lines (chapters : list (text * list question)) (ch : text) :
  multi_cell_texts (chapter_calls chapters ch)
  = flat_map (fun q => printed_lines (complete_content q))
             (questions_of chapters ch).
Proof.
  unfold chapter_calls.
  rewrite !multi_cell_texts_app, multi_cell_texts_flat_map.
  cbn [multi_cell_texts flat_map app]. rewrite app_nil_r.
  apply flat_map_ext. intros q. apply question_calls_lines.
Qed.

Lemma workbook_calls_lines (questions : list question) (output_path : text) :
  multi_cell_texts (workbook_calls questions output_path)
  = flat_map (fun q => printed_lines (complete_content q))
             (filed_in_order
                (chapters_in_order
                   (map fst (group_by_chapter (assigned_questions questions))))
                (assigned_questions questions)).
Proof.
  unfold filed_in_order, workbook_calls. cbv zeta.
  rewrite multi_cell_texts_app. cbn [multi_cell_texts flat_map app].
  destruct (assigned_questions questions) as [|q0 l] eqn:E; [reflexivity|].
  rewrite multi_cell_texts_app, multi_cell_texts_flat_map.
  cbn [multi_cell_texts flat_map app]. rewrite app_nil_r.
  rewrite flat_map_flat_map. apply flat_map_ext. intros ch.
  rewrite chapter_calls_lines.
  now rewrite (proj1 (group_by_chapter_spec (q0 :: l))).
Qed.

(** X24.  For contents in Latin-1, the texts that the workbook prints with
    [multi_cell] are the lines of the content of every assigned question
    that are not blank, stripped of the white space at their ends, passed
    through the encoding to Latin-1 and back, which leaves them as they are;
    they come in the order of the workbook, and nothing else is printed
    this way. *)
Theorem workbook_prints_content_lines (questions : list question)
        (output_path : text) (calls : list pdf_call) :
  generate_workbook questions output_path = Ok calls ->
  let assigned := assigned_questions questions in
  (exists sorted_chapters,
      sort_chapters (map fst (group_by_chapter assigned)) = Ok sorted_chapters
      /\ multi_cell_texts calls
         = map (fun line => Py.decode_latin1 (Py.encode_latin1_replace line))
               (flat_map (fun q => printed_lines (complete_content q))
                         (filed_in_order sorted_chapters assigned)))
  /\ (forall line : text, Py.decode_latin1 (Py.encode_latin1_replace line) = line).
Proof.
  intros Hok. cbv zeta. split; [|exact latin1_round_trip].
  apply generate_workbook_returns in Hok. destruct Hok as [Hconv ->].
  destruct (workbook_converts_parts questions Hconv) as [Hsort _].
  eexists. split; [exact Hsort|].
  rewrite workbook_calls_lines.
  rewrite (map_ext _ (fun line => line) latin1_round_trip), map_id.
  reflexivity.
Qed.

Lemma workbook_prints_content_lines_witness :
  multi_cell_texts (workbook_calls labelled_questions (chars "temp_workbook.pdf"))
  = [ chars "Q. 2) Explain ruin theory.";
      chars "Q. 1) What is CAPM? [4]";
      chars "Q. 4) State the CAPM assumptions.";
      chars "Q. 3) Define a martingale." ].
Proof.
  destruct (@workbook_prints_content_lines labelled_questions
              (chars "temp_workbook.pdf")
              (workbook_calls labelled_questions (chars "temp_workbook.pdf")))
    as [(sorted_chapters & Hs & Ht) _]; [vm_compute; reflexivity|].
  rewrite Ht.
  assert (E : sort_chapters
                (map fst (group_by_chapter (assigned_questions labelled_questions)))
              = Ok [ chars "Chapter 2"; chars "Chapter 10"; chars "Ruin Theory" ])
    by (vm_compute; reflexivity).
  rewrite E in Hs. injection Hs as <-. vm_compute. reflexivity.
Defined.

(** ** The keyword fields *)

Lemma keys_of_mapping_set (mapping : list (text * list text)) (ch : text)
      (keywords : list text) :
  map fst (mapping_set mapping ch keywords)
  = if existsb (fun k => text_eqb k ch) (map fst mapping)
    then map fst mapping else map fst mapping ++ [ch].
Proof.
  induction mapping as [|[k v] rest IH]; cbn [mapping_set map fst existsb].
  - reflexivity.
  - destruct (text_eqb k ch); cbn [map fst orb]; [reflexivity|].
    rewrite IH. now destruct (existsb _ (map fst rest)).
Qed.

Lemma read_loop_keys (fields : list (text * text)) :
  forall mapping,
    let result :=
      fold_left (fun mapping field =>
                   if nonempty (snd field)
                   then mapping_set mapping (fst field)
                                    (parse_keywords (snd field))
                   else mapping)
                fields mapping in
    (NoDup (map fst mapping) -> NoDup (map fst result))
    /\ (forall ch, In ch (map fst result)
                   <-> In ch (map fst mapping)
                       \/ exists typed, In (ch, typed) fields /\ typed <> []).
Proof.
  induction fields as [|[c typed] fields IH]; intros mapping; cbv zeta;
    cbn [fold_left snd fst].
  - split; [auto|]. intros ch. split; [auto|]. intros [H|(t & [] & _)]. exact H.
  - destruct typed as [|x typed]; cbn [nonempty].
    + destruct (IH mapping) as [Hn Hk]. cbv zeta in Hn, Hk.
      split; [exact Hn|]. intros ch. rewrite Hk. split.
      * intros [H|(t & Hin & Hne)]; [now left|]. right. exists t. split; [now right|exact Hne].
      * intros [H|(t & [E|Hin] & Hne)]; [now left| |right; exists t; auto].
        injection E as <- <-. congruence.
    + destruct (IH (mapping_set mapping c (parse_keywords (x :: typed))))
        as [Hn Hk]. cbv zeta in Hn, Hk.
      pose proof (keys_of_mapping_set mapping c (parse_keywords (x :: typed)))
        as Hkeys.
      destruct (existsb (fun k => text_eqb k c) (map fst mapping)) eqn:Ex.
      * apply existsb_exists in Ex. destruct Ex as (k & Hin & Hkc).
        apply text_eqb_eq in Hkc. subst k.
        split.
        -- intros Hnd. apply Hn. now rewrite Hkeys.
        -- intros ch. rewrite Hk, Hkeys. split.
           ++ intros [H|(t & Ht & Hne)]; [now left|].
              right. exists t. split; [now right | exact Hne].
           ++ intros [H|(t & [E|Ht] & Hne)]; [now left| |right; exists t; auto].
              injection E as <- <-. now left.
      * split.
        -- intros Hnd. apply Hn. rewrite Hkeys.
           apply NoDup_app; [exact Hnd | repeat constructor; intros [] |].
           intros k Hin [Ek|[]]. rewrite <- Ek in Hin.
           assert (Ht : existsb (fun k' => text_eqb k' c) (map fst mapping) = true)
             by (apply existsb_exists; exists c;
                 split; [exact Hin | apply text_eqb_refl]).
           congruence.
        -- intros ch. rewrite Hk, Hkeys. split.
           ++ intros [H|(t & Ht & Hne)].
              ** apply in_app_or in H. destruct H as [H|[<-|[]]]; [now left|].
                 right. exists (x :: typed). split; [now left | discriminate].
              ** right. exists t. split; [now right | exact Hne].
           ++ intros [H|(t & [E|Ht] & Hne)].
              ** left. apply in_or_app. now left.
              ** injection E as <- <-. left. apply in_or_app. right. now left.
              ** right. exists t. auto.
Qed.

(** X25.  The mapping read from the keyword fields has one entry for every
    chapter whose field is not empty and none for the others; so the bulk
    assignment with this mapping leaves a question as it was or gives it a
    chapter whose field is not empty. *)
Theorem empty_field_gives_no_chapter (fields : list (text * text))
        (questions : list question) :
  let keyword_mapping := read_keyword_mapping fields in
  NoDup (map fst keyword_mapping)
  /\ (forall ch, In ch (map fst keyword_mapping)
                 <-> exists typed, In (ch, typed) fields /\ typed <> [])
  /\ Forall2 (fun q q' =>
                q' = q
                \/ exists ch typed,
                    In (ch, typed) fields /\ typed <> []
                    /\ q' = set_chapter q ch)
             questions (bulk_assign_by_keywords questions keyword_mapping).
Proof.
  cbv zeta. unfold read_keyword_mapping.
  destruct (read_loop_keys fields []) as [Hn Hk]. cbv zeta in Hn, Hk.
  split; [apply Hn; constructor|].
  assert (Hkeys : forall ch,
             In ch (map fst (read_keyword_mapping fields))
             <-> exists typed, In (ch, typed) fields /\ typed <> []).
  { intros ch. unfold read_keyword_mapping. rewrite Hk.
    split; [intros [[]|H]; exact H | auto]. }
  split; [exact Hkeys|].
  fold (read_keyword_mapping fields). unfold bulk_assign_by_keywords.
  induction questions as [|q l IH]; cbn [map]; constructor; [|exact IH].
  rewrite assign_one_find.
  destruct (find (chapter_matches (question_preview q)) (read_keyword_mapping fields))
    as [item|] eqn:E; [right | now left].
  apply find_some in E. destruct E as [Hin _].
  apply (in_map fst) in Hin. apply Hkeys in Hin. destruct Hin as (typed & Hin & Hne).
  exists (fst item), typed. auto.
Qed.
